(** * Onboarding backend: authentication and user services

    A shallow embedding of [backend/src/services/auth.service.ts] and of the
    users service ([UsersService]) over an explicit relational store, followed
    by the properties of the magic-link / session life cycle and of the
    per-company scoping of user records.

    Conventions.
    - Dates are milliseconds since the epoch, in [Z]; a nullable column is an
      [option]; a TypeScript optional-and-nullable field is a [JsOpt].
    - The four Prisma models are lists of rows, in insertion order.  A query
      with a filter acts on every row that satisfies the filter, as the SQL
      statement Prisma emits does; [findUnique] returns the first such row.
    - The primary keys and the unique indexes of the two migrations
      ([id], [token_hash], [email]) are enforced by the [create]/[update]
      primitives, which throw a Prisma error when they are violated.
    - Everything a call takes from its environment (the wall clock, the
      random generator, the id generator of the Prisma client) is passed in
      an [Env].
    - The human-readable message of an [ApiError] is display text only and is
      not part of the model; errors are compared by code and status. *)

From Stdlib Require Import ZArith List String Ascii Bool Lia.
Import ListNotations.

Local Open Scope Z_scope.
Local Open Scope string_scope.

(* ===================================================================== *)
(** ** Data model (the two Prisma migrations) *)
(* ===================================================================== *)

(** [CREATE TYPE "Role" AS ENUM ('ADMIN_RH', 'MANAGER', 'COLLABORATEUR')] *)
Inductive Role : Type := ADMIN_RH | MANAGER | COLLABORATEUR.

Definition Role_eqb (a b : Role) : bool :=
  match a, b with
  | ADMIN_RH, ADMIN_RH | MANAGER, MANAGER | COLLABORATEUR, COLLABORATEUR => true
  | _, _ => false
  end.

Module Company.
Record t : Type := mk
  { id : string; name : string; domain : string; createdAt : Z }.
End Company.

Module User.
Record t : Type := mk
  { id : string;
    companyId : string;
    email : string;
    role : Role;
    teamId : option string;
    createdAt : Z }.
End User.

Module MagicLink.
Record t : Type := mk
  { id : string;
    userId : string;
    tokenHash : string;
    usedAt : option Z;
    expiresAt : Z;
    createdAt : Z }.
End MagicLink.

Module AuthSession.
Record t : Type := mk
  { id : string;
    userId : string;
    tokenHash : string;
    expiresAt : Z;
    createdAt : Z }.
End AuthSession.

(** The persistent store: one list of rows per table. *)
Record Store : Type := mkStore
  { companies : list Company.t;
    users : list User.t;
    magicLinks : list MagicLink.t;
    authSessions : list AuthSession.t }.

Definition set_users (s : Store) (us : list User.t) : Store :=
  mkStore (companies s) us (magicLinks s) (authSessions s).
Definition set_magicLinks (s : Store) (ls : list MagicLink.t) : Store :=
  mkStore (companies s) (users s) ls (authSessions s).
Definition set_authSessions (s : Store) (ss : list AuthSession.t) : Store :=
  mkStore (companies s) (users s) (magicLinks s) ss.

(** What a call reads from outside the store: the successive readings of the
    wall clock ([new Date()], [Date.now()], the [CURRENT_TIMESTAMP] default),
    numbered from 0 in program order, the hexadecimal string produced by
    [randomBytes(32).toString('hex')], and the id the Prisma client gives to
    the row the call creates. *)
Record Env : Type := mkEnv
  { clock : nat -> Z;
    randomHex : string;
    cuid : string }.

(* ===================================================================== *)
(** ** Errors and the store monad *)
(* ===================================================================== *)

(** [class ApiError] / [createApiError]: code and HTTP status. *)
Record ApiError : Type := mkApiError { code : string; statusCode : Z }.

(** What a [throw] can carry inside a service body: an [ApiError], an error
    raised by the Prisma client (with its [Pxxxx] code), or the [TypeError]
    of a property read on [null]. *)
Inductive Exn : Type :=
| Api (e : ApiError)
| Prisma (pcode : string)
| TypeError.

(** The outcome of a service call once its [catch] block has run. *)
Inductive Result (A : Type) : Type :=
| Ok (a : A)
| Err (e : ApiError).
Arguments Ok {A} a.
Arguments Err {A} e.

(** A service body: reads and writes the store, may throw.  Writes made
    before a [throw] stay (there is no transaction in the services). *)
Definition M (A : Type) : Type := Store -> Store * (Exn + A).

Definition ret {A} (a : A) : M A := fun s => (s, inr a).
Definition throw {A} (e : Exn) : M A := fun s => (s, inl e).
Definition bind {A B} (m : M A) (k : A -> M B) : M B :=
  fun s => match m s with
           | (s', inr a) => k a s'
           | (s', inl e) => (s', inl e)
           end.
Definition gets {A} (f : Store -> A) : M A := fun s => (s, inr (f s)).
Definition modify (f : Store -> Store) : M unit := fun s => (f s, inr tt).

Declare Scope store_scope.
Delimit Scope store_scope with store.
Notation "x <- m ;; k" := (bind m (fun x => k))
  (at level 100, m at next level, right associativity) : store_scope.
Notation "m ;;; k" := (bind m (fun _ => k))
  (at level 100, right associativity) : store_scope.
Local Open Scope store_scope.

(** [catch (error) { if (error instanceof ApiError) throw error; throw new
    ApiError(code, ..., 500) }] of the authentication service. *)
Definition tryCatch {A} (fallback : string) (m : M A) (s : Store)
  : Store * Result A :=
  match m s with
  | (s', inr a) => (s', Ok a)
  | (s', inl (Api e)) => (s', Err e)
  | (s', inl _) => (s', Err (mkApiError fallback 500))
  end.

(** [catch (error) { throw new ApiError(code, ..., 500) }]: every error is
    replaced. *)
Definition tryCatchAll {A} (fallback : string) (m : M A) (s : Store)
  : Store * Result A :=
  match m s with
  | (s', inr a) => (s', Ok a)
  | (s', inl _) => (s', Err (mkApiError fallback 500))
  end.

(** [catch (error) { if (error.statusCode) throw error; throw
    createApiError(code, ..., 500) }] of the users service: a thrown object
    is passed on when its [statusCode] is truthy. *)
Definition tryCatchStatus {A} (fallback : string) (m : M A) (s : Store)
  : Store * Result A :=
  match m s with
  | (s', inr a) => (s', Ok a)
  | (s', inl (Api e)) =>
      if (statusCode e =? 0)%Z then (s', Err (mkApiError fallback 500))
      else (s', Err e)
  | (s', inl _) => (s', Err (mkApiError fallback 500))
  end.

(* ===================================================================== *)
(** ** JavaScript values *)
(* ===================================================================== *)

(** An optional, nullable property: [undefined], [null] or a value. *)
Inductive JsOpt (A : Type) : Type :=
| Undefined
| Null
| Value (a : A).
Arguments Undefined {A}.
Arguments Null {A}.
Arguments Value {A} a.

(** Truthiness of a [string | null | undefined]: the empty string is falsy. *)
Definition truthy (o : option string) : bool :=
  match o with
  | Some s => negb (s =? "")
  | None => false
  end.

(** [x || undefined] on a nullable string. *)
Definition orUndefined (o : option string) : option string :=
  if truthy o then o else None.

Definition isNone {A} (o : option A) : bool :=
  match o with None => true | Some _ => false end.

Definition option_eqb (a b : option string) : bool :=
  match a, b with
  | Some x, Some y => x =? y
  | None, None => true
  | _, _ => false
  end.

(* ===================================================================== *)
(** ** The Prisma client, table by table *)
(* ===================================================================== *)

(** *** [prisma.magicLink] *)

Definition magicLink_findUnique (tokenHash : string) : M (option MagicLink.t) :=
  gets (fun s =>
    find (fun l => MagicLink.tokenHash l =? tokenHash) (magicLinks s)).

Definition magicLink_deleteMany (where_ : MagicLink.t -> bool) : M Z :=
  n <- gets (fun s => Z.of_nat (List.length (filter where_ (magicLinks s)))) ;;
  modify (fun s =>
    set_magicLinks s (filter (fun l => negb (where_ l)) (magicLinks s))) ;;;
  ret n.

Definition magicLink_create (row : MagicLink.t) : M MagicLink.t :=
  clash <- gets (fun s =>
    existsb (fun l => (MagicLink.id l =? MagicLink.id row)
                      || (MagicLink.tokenHash l =? MagicLink.tokenHash row))
            (magicLinks s)) ;;
  if clash then throw (Prisma "P2002")
  else modify (fun s => set_magicLinks s (magicLinks s ++ [row])) ;;; ret row.

(** [update({ where: { id }, data: { usedAt } })] *)
Definition magicLink_update_usedAt (id : string) (usedAt : Z) : M unit :=
  found <- gets (fun s =>
    existsb (fun l => MagicLink.id l =? id) (magicLinks s)) ;;
  if found then
    modify (fun s => set_magicLinks s
      (map (fun l =>
              if MagicLink.id l =? id then
                MagicLink.mk (MagicLink.id l) (MagicLink.userId l)
                  (MagicLink.tokenHash l) (Some usedAt)
                  (MagicLink.expiresAt l) (MagicLink.createdAt l)
              else l)
           (magicLinks s)))
  else throw (Prisma "P2025").

(** *** [prisma.authSession] *)

Definition authSession_findUnique (tokenHash : string)
  : M (option AuthSession.t) :=
  gets (fun s =>
    find (fun x => AuthSession.tokenHash x =? tokenHash) (authSessions s)).

Definition authSession_deleteMany (where_ : AuthSession.t -> bool) : M Z :=
  n <- gets (fun s => Z.of_nat (List.length (filter where_ (authSessions s)))) ;;
  modify (fun s =>
    set_authSessions s (filter (fun x => negb (where_ x)) (authSessions s))) ;;;
  ret n.

Definition authSession_create (row : AuthSession.t) : M AuthSession.t :=
  clash <- gets (fun s =>
    existsb (fun x => (AuthSession.id x =? AuthSession.id row)
                      || (AuthSession.tokenHash x =? AuthSession.tokenHash row))
            (authSessions s)) ;;
  if clash then throw (Prisma "P2002")
  else modify (fun s => set_authSessions s (authSessions s ++ [row])) ;;; ret row.

(** [delete({ where: { id } })] *)
Definition authSession_delete (id : string) : M unit :=
  found <- gets (fun s =>
    existsb (fun x => AuthSession.id x =? id) (authSessions s)) ;;
  if found then
    modify (fun s => set_authSessions s
      (filter (fun x => negb (AuthSession.id x =? id)) (authSessions s)))
  else throw (Prisma "P2025").

(** *** [prisma.company] *)

Definition company_findUnique (id : string) : M (option Company.t) :=
  gets (fun s => find (fun c => Company.id c =? id) (companies s)).

(** *** [prisma.user] *)

(** ASCII lower-casing and substring search, for
    [{ contains: search, mode: 'insensitive' }].  The search text is taken
    literally: the wildcards of the pattern the database receives are not
    modelled, and the statements on the rows of a listing are made for
    queries without search text. *)
Definition lower (c : ascii) : ascii :=
  let n := nat_of_ascii c in
  if (65 <=? n)%nat && (n <=? 90)%nat then ascii_of_nat (n + 32) else c.

Fixpoint lowercase (s : string) : string :=
  match s with
  | EmptyString => EmptyString
  | String c r => String (lower c) (lowercase r)
  end.

Fixpoint containsb (needle hay : string) : bool :=
  String.prefix needle hay ||
  match hay with
  | EmptyString => false
  | String _ r => containsb needle r
  end.

(** A [UserWhereInput]: an absent field ([None]) does not filter;
    [w_teamId = Some None] is [team_id IS NULL]. *)
Record UserWhere : Type := mkWhere
  { w_id : option string;
    w_email : option string;
    w_companyId : option string;
    w_teamId : option (option string);
    w_role : option Role;
    w_emailContains : option string }.

Definition emptyWhere : UserWhere := mkWhere None None None None None None.

Definition on_field {A} (f : option A) (test : A -> bool) : bool :=
  match f with None => true | Some a => test a end.

Definition matches (w : UserWhere) (u : User.t) : bool :=
  on_field (w_id w) (fun i => User.id u =? i)
  && on_field (w_email w) (fun e => User.email u =? e)
  && on_field (w_companyId w) (fun c => User.companyId u =? c)
  && on_field (w_teamId w) (fun t => option_eqb (User.teamId u) t)
  && on_field (w_role w) (fun r => Role_eqb (User.role u) r)
  && on_field (w_emailContains w)
       (fun q => containsb (lowercase q) (lowercase (User.email u))).

Definition user_findUnique (w : UserWhere) : M (option User.t) :=
  gets (fun s => find (matches w) (users s)).

(** [orderBy: { createdAt: 'desc' }], as a stable insertion sort. *)
Fixpoint insert_desc (u : User.t) (l : list User.t) : list User.t :=
  match l with
  | [] => [u]
  | v :: r =>
      if (User.createdAt v <? User.createdAt u)%Z then u :: v :: r
      else v :: insert_desc u r
  end.

Definition sort_desc (l : list User.t) : list User.t :=
  fold_right insert_desc [] l.

(** [skip] and [take] are [Int] arguments of the client: 64-bit signed
    integers. *)
Definition INT64_MAX : Z := 9223372036854775807.

Definition fits_int64 (z : Z) : bool :=
  ((- INT64_MAX - 1 <=? z) && (z <=? INT64_MAX))%Z.

(** [findMany({ where, skip, take, orderBy })]: a [skip] or a [take] that
    does not fit the [Int] type is refused by the client, and so is a
    negative [skip]; a negative [take] takes from the end of the ordering. *)
Definition user_findMany (w : UserWhere) (skip take : Z) : M (list User.t) :=
  if (skip <? 0)%Z || negb (fits_int64 skip) || negb (fits_int64 take)
  then throw (Prisma "P2009")
  else
    gets (fun s =>
      let rows := sort_desc (filter (matches w) (users s)) in
      if (take <? 0)%Z then
        rev (firstn (Z.to_nat (- take)) (skipn (Z.to_nat skip) (rev rows)))
      else firstn (Z.to_nat take) (skipn (Z.to_nat skip) rows)).

Definition user_count (w : UserWhere) : M Z :=
  gets (fun s => Z.of_nat (List.length (filter (matches w) (users s)))).

Definition user_create (row : User.t) : M User.t :=
  clash <- gets (fun s =>
    existsb (fun u => (User.id u =? User.id row)
                      || (User.email u =? User.email row)) (users s)) ;;
  owner <- gets (fun s =>
    existsb (fun c => Company.id c =? User.companyId row) (companies s)) ;;
  if clash then throw (Prisma "P2002")
  else if negb owner then throw (Prisma "P2003")
  else modify (fun s => set_users s (users s ++ [row])) ;;; ret row.

(** The [data] of [prisma.user.update]: [None] leaves the column as it is;
    [d_teamId] is always written. *)
Record UserData : Type := mkData
  { d_email : option string;
    d_role : option Role;
    d_teamId : option string }.

Definition apply_data (d : UserData) (u : User.t) : User.t :=
  User.mk (User.id u) (User.companyId u)
    (match d_email d with Some e => e | None => User.email u end)
    (match d_role d with Some r => r | None => User.role u end)
    (d_teamId d)
    (User.createdAt u).

Definition user_update (w : UserWhere) (d : UserData) : M User.t :=
  target <- gets (fun s => find (matches w) (users s)) ;;
  match target with
  | None => throw (Prisma "P2025")
  | Some u =>
      clash <- gets (fun s =>
        match d_email d with
        | None => false
        | Some e =>
            existsb (fun v => negb (matches w v) && (User.email v =? e))
                    (users s)
        end) ;;
      if clash then throw (Prisma "P2002")
      else
        modify (fun s => set_users s
          (map (fun v => if matches w v then apply_data d v else v)
               (users s))) ;;;
        ret (apply_data d u)
  end.

(** [delete({ where })]; the two foreign keys on [user_id] are
    [ON DELETE CASCADE]. *)
Definition user_delete (w : UserWhere) : M unit :=
  target <- gets (fun s => find (matches w) (users s)) ;;
  match target with
  | None => throw (Prisma "P2025")
  | Some _ =>
      modify (fun s =>
        let gone := map User.id (filter (matches w) (users s)) in
        let owned (i : string) := existsb (String.eqb i) gone in
        mkStore (companies s)
          (filter (fun v => negb (matches w v)) (users s))
          (filter (fun l => negb (owned (MagicLink.userId l))) (magicLinks s))
          (filter (fun x => negb (owned (AuthSession.userId x)))
                  (authSessions s)))
  end.

(* ===================================================================== *)
(** ** Types of the services *)
(* ===================================================================== *)

(** [interface UserSession]: the minimal context of an authenticated user. *)
Module UserSession.
Record t : Type := mk
  { id : string; role : Role; companyId : string; teamId : option string }.
End UserSession.

(** [CreateUserInput] (inferred from [createUserSchema]). *)
Module CreateUserInput.
Record t : Type := mk
  { email : string; role : Role; companyId : string;
    teamId : option string }.
End CreateUserInput.

(** [UpdateUserInput] (inferred from [updateUserSchema]). *)
Module UpdateUserInput.
Record t : Type := mk
  { email : option string; role : option Role; teamId : JsOpt string }.
End UpdateUserInput.

(** [ListUsersQuery] (inferred from [listUsersQuerySchema]). *)
Module ListUsersQuery.
Record t : Type := mk
  { page : Z; limit : Z; role : option Role;
    companyId : option string; search : option string }.
End ListUsersQuery.

(** [PaginatedResponse<UserWithCompany>]; [totalPages] is [None] when
    [Math.ceil(total / limit)] is not a finite number ([limit = 0]). *)
Record Pagination : Type := mkPagination
  { pg_page : Z; pg_limit : Z; pg_total : Z; pg_totalPages : option Z }.

Record PaginatedResponse : Type := mkPaginated
  { data : list User.t; pagination : Pagination }.

(** [interface JwtPayload] *)
Record JwtPayload : Type := mkJwtPayload
  { jwt_userId : string; jwt_role : Role; jwt_companyId : string;
    jwt_teamId : option string }.

(** The [user] summary returned with a new access token. *)
Record UserSummary : Type := mkSummary
  { sum_id : string; sum_email : string; sum_role : Role }.

Record MagicLinkIssued : Type := mkIssued
  { magicLinkId : string; token : string; issuedExpiresAt : Z }.

Record SessionCreated : Type := mkCreated
  { user : UserSummary; accessToken : string; refreshToken : string;
    refreshExpiresAt : Z }.

Record AccessRefreshed : Type := mkRefreshed
  { refreshedUser : UserSummary; refreshedAccessToken : string }.

Record CleanupCount : Type := mkCleanup
  { deletedMagicLinks : Z; deletedSessions : Z }.

(* ===================================================================== *)
(** ** [UsersService] *)
(* ===================================================================== *)

Definition with_id (w : UserWhere) (i : string) : UserWhere :=
  mkWhere (Some i) (w_email w) (w_companyId w) (w_teamId w) (w_role w)
          (w_emailContains w).
Definition with_companyId (w : UserWhere) (c : string) : UserWhere :=
  mkWhere (w_id w) (w_email w) (Some c) (w_teamId w) (w_role w)
          (w_emailContains w).
Definition with_teamId (w : UserWhere) (t : option string) : UserWhere :=
  mkWhere (w_id w) (w_email w) (w_companyId w) (Some t) (w_role w)
          (w_emailContains w).
Definition with_role (w : UserWhere) (r : Role) : UserWhere :=
  mkWhere (w_id w) (w_email w) (w_companyId w) (w_teamId w) (Some r)
          (w_emailContains w).
Definition with_emailContains (w : UserWhere) (q : string) : UserWhere :=
  mkWhere (w_id w) (w_email w) (w_companyId w) (w_teamId w) (w_role w)
          (Some q).

(** [createUser(data)] *)
Definition createUser_body (env : Env) (d : CreateUserInput.t) : M User.t :=
  company <- company_findUnique (CreateUserInput.companyId d) ;;
  match company with
  | None => throw (Api (mkApiError "COMPANY_NOT_FOUND" 404))
  | Some _ =>
      if Role_eqb (CreateUserInput.role d) MANAGER
         && negb (truthy (CreateUserInput.teamId d))
      then throw (Api (mkApiError "TEAM_ID_REQUIRED" 400))
      else if Role_eqb (CreateUserInput.role d) ADMIN_RH
              && truthy (CreateUserInput.teamId d)
      then throw (Api (mkApiError "TEAM_ID_NOT_ALLOWED" 400))
      else
        user_create
          (User.mk (cuid env) (CreateUserInput.companyId d)
             (CreateUserInput.email d) (CreateUserInput.role d)
             (CreateUserInput.teamId d) (clock env 0))
  end.

Definition createUser (env : Env) (d : CreateUserInput.t)
  : Store -> Store * Result User.t :=
  tryCatchStatus "USER_CREATION_FAILED" (createUser_body env d).

(** The filter built at the head of [getUserById], [getUserByEmail] and
    [updateUser]: [where.companyId = requestingUser.companyId], then the
    restriction by role. *)
Definition scoped (base : UserWhere) (requestingUser : UserSession.t)
  : UserWhere :=
  let w := with_companyId base (UserSession.companyId requestingUser) in
  match UserSession.role requestingUser with
  | MANAGER => with_teamId w (UserSession.teamId requestingUser)
  | COLLABORATEUR => with_id w (UserSession.id requestingUser)
  | ADMIN_RH => w
  end.

(** [getUserById(userId, requestingUser)] *)
Definition getUserById (userId : string) (requestingUser : UserSession.t)
  : Store -> Store * Result (option User.t) :=
  tryCatchAll "USER_FETCH_FAILED"
    (user_findUnique (scoped (with_id emptyWhere userId) requestingUser)).

(** [getUserByEmail(email, requestingUser)] *)
Definition getUserByEmail (email : string) (requestingUser : UserSession.t)
  : Store -> Store * Result (option User.t) :=
  tryCatchAll "USER_FETCH_FAILED"
    (user_findUnique
       (scoped (mkWhere None (Some email) None None None None)
               requestingUser)).

(** The [where] of [listUsers]. *)
Definition listWhere (q : ListUsersQuery.t)
  (requestingUser : option UserSession.t) : UserWhere :=
  let w0 := emptyWhere in
  let w1 :=
    if truthy (ListUsersQuery.companyId q) then
      match ListUsersQuery.companyId q with
      | Some c => with_companyId w0 c
      | None => w0
      end
    else
      match requestingUser with
      | Some r => with_companyId w0 (UserSession.companyId r)
      | None => w0
      end in
  let w2 :=
    match requestingUser with
    | Some r =>
        match UserSession.role r with
        | MANAGER => with_teamId w1 (UserSession.teamId r)
        | _ => w1
        end
    | None => w1
    end in
  let w3 :=
    match ListUsersQuery.role q with
    | Some r => with_role w2 r
    | None => w2
    end in
  if truthy (ListUsersQuery.search q) then
    match ListUsersQuery.search q with
    | Some t => with_emailContains w3 t
    | None => w3
    end
  else w3.

(** [Math.ceil(total / limit)] *)
Definition totalPages (total limit : Z) : option Z :=
  if (limit =? 0)%Z then None else Some (- ((- total) / limit))%Z.

(** [Number.MAX_SAFE_INTEGER]: up to it the arithmetic of JavaScript on
    integers is exact. *)
Definition MAX_SAFE_INTEGER : Z := 9007199254740991.

(** [listUsers(query, requestingUser?)].  [page] and [limit] are the
    integers the query schema produces from strings of digits; the product
    [(page - 1) * limit] is the exact one, which is what JavaScript computes
    as long as it does not exceed [MAX_SAFE_INTEGER]. *)
Definition listUsers_body (q : ListUsersQuery.t)
  (requestingUser : option UserSession.t) : M PaginatedResponse :=
  let page := ListUsersQuery.page q in
  let limit := ListUsersQuery.limit q in
  let skip := ((page - 1) * limit)%Z in
  let w := listWhere q requestingUser in
  rows <- user_findMany w skip limit ;;
  total <- user_count w ;;
  ret (mkPaginated rows
         (mkPagination page limit total (totalPages total limit))).

Definition listUsers (q : ListUsersQuery.t)
  (requestingUser : option UserSession.t)
  : Store -> Store * Result PaginatedResponse :=
  tryCatchAll "USERS_LIST_FAILED" (listUsers_body q requestingUser).

(** [const newRole = data.role || existingUser.role] *)
Definition newRole_of (d : UpdateUserInput.t) (existingUser : User.t) : Role :=
  match UpdateUserInput.role d with
  | Some r => r
  | None => User.role existingUser
  end.

(** [const newTeamId = data.teamId !== undefined ? data.teamId :
    existingUser.teamId] *)
Definition newTeamId_of (d : UpdateUserInput.t) (existingUser : User.t)
  : option string :=
  match UpdateUserInput.teamId d with
  | Undefined => User.teamId existingUser
  | Null => None
  | Value t => Some t
  end.

(** [updateUser(userId, data, requestingUser)] *)
Definition updateUser_body (userId : string) (d : UpdateUserInput.t)
  (requestingUser : UserSession.t) : M User.t :=
  let w := scoped (with_id emptyWhere userId) requestingUser in
  existingUser <- user_findUnique w ;;
  match existingUser with
  | None => throw (Api (mkApiError "USER_NOT_FOUND" 404))
  | Some existingUser =>
      let newRole := newRole_of d existingUser in
      let newTeamId := newTeamId_of d existingUser in
      if Role_eqb newRole MANAGER && negb (truthy newTeamId)
      then throw (Api (mkApiError "TEAM_ID_REQUIRED" 400))
      else if Role_eqb newRole ADMIN_RH && truthy newTeamId
      then throw (Api (mkApiError "TEAM_ID_NOT_ALLOWED" 400))
      else
        user_update w
          (mkData (UpdateUserInput.email d) (UpdateUserInput.role d)
                  (if Role_eqb newRole ADMIN_RH then None else newTeamId))
  end.

Definition updateUser (userId : string) (d : UpdateUserInput.t)
  (requestingUser : UserSession.t) : Store -> Store * Result User.t :=
  tryCatchStatus "USER_UPDATE_FAILED" (updateUser_body userId d requestingUser).

(** [deleteUser(userId, requestingUser)] *)
Definition deleteUser_body (userId : string) (requestingUser : UserSession.t)
  : M unit :=
  let w := with_companyId (with_id emptyWhere userId)
             (UserSession.companyId requestingUser) in
  match UserSession.role requestingUser with
  | COLLABORATEUR => throw (Api (mkApiError "UNAUTHORIZED" 403))
  | r =>
      let w := match r with
               | MANAGER => with_teamId w (UserSession.teamId requestingUser)
               | _ => w
               end in
      existingUser <- user_findUnique w ;;
      match existingUser with
      | None => throw (Api (mkApiError "USER_NOT_FOUND" 404))
      | Some _ => user_delete w
      end
  end.

Definition deleteUser (userId : string) (requestingUser : UserSession.t)
  : Store -> Store * Result unit :=
  tryCatchStatus "USER_DELETE_FAILED" (deleteUser_body userId requestingUser).

(* ===================================================================== *)
(** ** [AuthService] *)
(* ===================================================================== *)

Definition DAY_MS : Z := 24 * 60 * 60 * 1000.

Definition INVALID_TOKEN : ApiError := mkApiError "INVALID_TOKEN" 401.
Definition EXPIRED_TOKEN : ApiError := mkApiError "EXPIRED_TOKEN" 401.
Definition TOKEN_ALREADY_USED : ApiError := mkApiError "TOKEN_ALREADY_USED" 401.
Definition INVALID_SESSION : ApiError := mkApiError "INVALID_SESSION" 401.
Definition EXPIRED_SESSION : ApiError := mkApiError "EXPIRED_SESSION" 401.
Definition USER_NOT_FOUND : ApiError := mkApiError "USER_NOT_FOUND" 404.
Definition INVALID_REFRESH_TOKEN : ApiError :=
  mkApiError "INVALID_REFRESH_TOKEN" 401.
Definition EXPIRED_REFRESH_TOKEN : ApiError :=
  mkApiError "EXPIRED_REFRESH_TOKEN" 401.

(** The relation [user] loaded by [include: { user: ... }] with a row that
    carries a [userId]. *)
Definition included_user (userId : string) (s : Store) : option User.t :=
  find (fun u => User.id u =? userId) (users s).

(** Reading a property of the included user: a [TypeError] if the relation
    is [null] (which the foreign key on [user_id] rules out). *)
Definition deref {A} (o : option A) : M A :=
  match o with
  | Some a => ret a
  | None => throw TypeError
  end.

Section AuthService.

(** [createHash('sha256').update(x).digest('hex')] *)
Variable sha256 : string -> string.

(** [jwt.sign(payload, ACCESS_TOKEN_SECRET, { expiresIn: '15m', issuer,
    audience })], as called by [JwtUtils.generateAccessToken]; signing a
    well-formed payload is taken never to throw. *)
Variable jwt_sign : JwtPayload -> string.

Definition generateAccessToken (p : JwtPayload) : string := jwt_sign p.

(** [generateMagicLink(email)] *)
Definition generateMagicLink_body (env : Env) (email : string)
  : M MagicLinkIssued :=
  user <- user_findUnique (mkWhere None (Some email) None None None None) ;;
  match user with
  | None => throw (Api USER_NOT_FOUND)
  | Some user =>
      let token := randomHex env in
      let tokenHash := sha256 token in
      let expiresAt := (clock env 0 + DAY_MS)%Z in
      magicLink_deleteMany
        (fun l => (MagicLink.userId l =? User.id user)
                  && isNone (MagicLink.usedAt l)) ;;;
      magicLink <- magicLink_create
        (MagicLink.mk (cuid env) (User.id user) tokenHash None expiresAt
                      (clock env 1)) ;;
      ret (mkIssued (MagicLink.id magicLink) token expiresAt)
  end.

Definition generateMagicLink (env : Env) (email : string)
  : Store -> Store * Result MagicLinkIssued :=
  tryCatch "MAGIC_LINK_GENERATION_FAILED" (generateMagicLink_body env email).

(** [validateMagicLinkAndCreateSession(token)] *)
Definition validateMagicLinkAndCreateSession_body (env : Env)
  (token : string) : M SessionCreated :=
  let tokenHash := sha256 token in
  magicLink <- magicLink_findUnique tokenHash ;;
  match magicLink with
  | None => throw (Api INVALID_TOKEN)
  | Some magicLink =>
      magicLink_user <- gets (included_user (MagicLink.userId magicLink)) ;;
      if (MagicLink.expiresAt magicLink <? clock env 0)%Z
      then throw (Api EXPIRED_TOKEN)
      else if negb (isNone (MagicLink.usedAt magicLink))
      then throw (Api TOKEN_ALREADY_USED)
      else
        magicLink_update_usedAt (MagicLink.id magicLink) (clock env 1) ;;;
        let refreshToken := randomHex env in
        let refreshTokenHash := sha256 refreshToken in
        let refreshExpiresAt := (clock env 2 + 30 * DAY_MS)%Z in
        u <- deref magicLink_user ;;
        authSession_create
          (AuthSession.mk (cuid env) (User.id u) refreshTokenHash
                          refreshExpiresAt (clock env 3)) ;;;
        let accessToken :=
          generateAccessToken
            (mkJwtPayload (User.id u) (User.role u) (User.companyId u)
                          (orUndefined (User.teamId u))) in
        ret (mkCreated
               (mkSummary (User.id u) (User.email u) (User.role u))
               accessToken refreshToken refreshExpiresAt)
  end.

Definition validateMagicLinkAndCreateSession (env : Env) (token : string)
  : Store -> Store * Result SessionCreated :=
  tryCatch "MAGIC_LINK_VALIDATION_FAILED"
    (validateMagicLinkAndCreateSession_body env token).

(** [validateSession(sessionToken)] *)
Definition validateSession_body (env : Env) (sessionToken : string)
  : M UserSession.t :=
  let tokenHash := sha256 sessionToken in
  session <- authSession_findUnique tokenHash ;;
  match session with
  | None => throw (Api INVALID_SESSION)
  | Some session =>
      session_user <- gets (included_user (AuthSession.userId session)) ;;
      if (AuthSession.expiresAt session <? clock env 0)%Z then
        authSession_delete (AuthSession.id session) ;;;
        throw (Api EXPIRED_SESSION)
      else
        u <- deref session_user ;;
        ret (UserSession.mk (User.id u) (User.role u) (User.companyId u)
                            (User.teamId u))
  end.

Definition validateSession (env : Env) (sessionToken : string)
  : Store -> Store * Result UserSession.t :=
  tryCatch "SESSION_VALIDATION_FAILED" (validateSession_body env sessionToken).

(** [revokeSession(sessionToken)] *)
Definition revokeSession_body (sessionToken : string) : M unit :=
  let tokenHash := sha256 sessionToken in
  authSession_deleteMany (fun x => AuthSession.tokenHash x =? tokenHash) ;;;
  ret tt.

Definition revokeSession (sessionToken : string)
  : Store -> Store * Result unit :=
  tryCatchAll "SESSION_REVOCATION_FAILED" (revokeSession_body sessionToken).

(** [refreshAccessToken(refreshToken)] *)
Definition refreshAccessToken_body (env : Env) (refreshToken : string)
  : M AccessRefreshed :=
  let tokenHash := sha256 refreshToken in
  session <- authSession_findUnique tokenHash ;;
  match session with
  | None => throw (Api INVALID_REFRESH_TOKEN)
  | Some session =>
      session_user <- gets (included_user (AuthSession.userId session)) ;;
      if (AuthSession.expiresAt session <? clock env 0)%Z then
        authSession_delete (AuthSession.id session) ;;;
        throw (Api EXPIRED_REFRESH_TOKEN)
      else
        u <- deref session_user ;;
        let accessToken :=
          generateAccessToken
            (mkJwtPayload (User.id u) (User.role u) (User.companyId u)
                          (orUndefined (User.teamId u))) in
        ret (mkRefreshed
               (mkSummary (User.id u) (User.email u) (User.role u))
               accessToken)
  end.

Definition refreshAccessToken (env : Env) (refreshToken : string)
  : Store -> Store * Result AccessRefreshed :=
  tryCatch "TOKEN_REFRESH_FAILED" (refreshAccessToken_body env refreshToken).

End AuthService.

(** [revokeAllUserSessions(userId)] *)
Definition revokeAllUserSessions (userId : string)
  : Store -> Store * Result unit :=
  tryCatchAll "ALL_SESSIONS_REVOCATION_FAILED"
    (authSession_deleteMany (fun x => AuthSession.userId x =? userId) ;;;
     ret tt).

(** [cleanupExpiredTokens()] *)
Definition cleanupExpiredTokens (env : Env)
  : Store -> Store * Result CleanupCount :=
  tryCatchAll "CLEANUP_FAILED"
    (let now := clock env 0 in
     deletedMagicLinks <- magicLink_deleteMany
       (fun l => (MagicLink.expiresAt l <? now)%Z
                 || negb (isNone (MagicLink.usedAt l))) ;;
     deletedSessions <- authSession_deleteMany
       (fun x => (AuthSession.expiresAt x <? now)%Z) ;;
     ret (mkCleanup deletedMagicLinks deletedSessions)).

(* ===================================================================== *)
(** ** Express middleware ([auth.middleware.ts]) and route guards *)
(* ===================================================================== *)

(** The JSON error a middleware answers with: HTTP status and error code. *)
Record HttpError : Type := mkHttpError { http_status : Z; http_code : string }.

(** [authenticateToken]: reads the cookie [session_token], validates it, and
    either answers with the status and code of the [ApiError], or attaches
    the user to the request and calls [next()]. *)
Definition authenticateToken (sha256 : string -> string) (env : Env)
  (session_token : option string) (s : Store)
  : Store * (HttpError + UserSession.t) :=
  match session_token with
  | Some sessionToken =>
      if truthy session_token then
        match validateSession sha256 env sessionToken s with
        | (s', Ok user) => (s', inr user)
        | (s', Err e) => (s', inl (mkHttpError (statusCode e) (code e)))
        end
      else (s, inl (mkHttpError 401 "NO_TOKEN"))
  | None => (s, inl (mkHttpError 401 "NO_TOKEN"))
  end.

(** [requireRole(allowedRoles)] *)
Definition requireRole (allowedRoles : list Role)
  (user : option UserSession.t) : HttpError + unit :=
  match user with
  | None => inl (mkHttpError 401 "NOT_AUTHENTICATED")
  | Some u =>
      if existsb (Role_eqb (UserSession.role u)) allowedRoles then inr tt
      else inl (mkHttpError 403 "INSUFFICIENT_PERMISSIONS")
  end.

(** The [companyFilter] that [requireCompanyAccess] attaches to the
    request. *)
Record CompanyFilter : Type := mkCompanyFilter
  { cf_companyId : string;
    cf_teamId : option (option string);
    cf_userId : option string }.

(** [requireCompanyAccess] *)
Definition requireCompanyAccess (user : option UserSession.t)
  : HttpError + CompanyFilter :=
  match user with
  | None => inl (mkHttpError 401 "NOT_AUTHENTICATED")
  | Some u =>
      inr (mkCompanyFilter (UserSession.companyId u)
             (match UserSession.role u with
              | MANAGER => Some (UserSession.teamId u)
              | _ => None
              end)
             (match UserSession.role u with
              | COLLABORATEUR => Some (UserSession.id u)
              | _ => None
              end))
  end.

(** [optionalAuth]: never answers; attaches the user when the cookie
    validates and ignores every failure. *)
Definition optionalAuth (sha256 : string -> string) (env : Env)
  (session_token : option string) (s : Store)
  : Store * option UserSession.t :=
  match session_token with
  | Some sessionToken =>
      if truthy session_token then
        match validateSession sha256 env sessionToken s with
        | (s', Ok user) => (s', Some user)
        | (s', Err _) => (s', None)
        end
      else (s, None)
  | None => (s, None)
  end.

(** The routes of [users.routes.ts]. *)
Inductive UsersRoute : Type :=
| GET_users             (* GET    /api/users               *)
| POST_users            (* POST   /api/users               *)
| GET_users_email       (* GET    /api/users/email/:email  *)
| GET_users_userId      (* GET    /api/users/:userId       *)
| PUT_users_userId      (* PUT    /api/users/:userId       *)
| DELETE_users_userId.  (* DELETE /api/users/:userId       *)

(** The argument of the [requireRole] of each route; [None] for the route
    that has none. *)
Definition routeRoles (r : UsersRoute) : option (list Role) :=
  match r with
  | GET_users => Some [ADMIN_RH; MANAGER]
  | POST_users => Some [ADMIN_RH]
  | GET_users_email => Some [ADMIN_RH; MANAGER]
  | GET_users_userId => None
  | PUT_users_userId => Some [ADMIN_RH; MANAGER]
  | DELETE_users_userId => Some [ADMIN_RH]
  end.

(** What runs before the controller of a users route:
    [router.use(authenticateToken)], [router.use(requireCompanyAccess)],
    then the [requireRole] of the route.  The result is the answer of the
    first middleware that does not call [next()], or the user the controller
    receives. *)
Definition usersRouteGuard (sha256 : string -> string) (env : Env)
  (route : UsersRoute) (session_token : option string) (s : Store)
  : Store * (HttpError + UserSession.t) :=
  match authenticateToken sha256 env session_token s with
  | (s1, inl e) => (s1, inl e)
  | (s1, inr user) =>
      match requireCompanyAccess (Some user) with
      | inl e => (s1, inl e)
      | inr _ =>
          match routeRoles route with
          | None => (s1, inr user)
          | Some allowedRoles =>
              match requireRole allowedRoles (Some user) with
              | inl e => (s1, inl e)
              | inr _ => (s1, inr user)
              end
          end
      end
  end.


(* ===================================================================== *)
(** ** Next.js middleware: routing by role (frontend) *)
(* ===================================================================== *)

(** The keys of [PROTECTED_ROUTES]. *)
Inductive RouteKey : Type :=
| ForRole (r : Role)
| ALL.

Definition PROTECTED_ROUTES : list (RouteKey * list string) :=
  [ (ForRole COLLABORATEUR, ["/user"]);
    (ForRole MANAGER, ["/manager"]);
    (ForRole ADMIN_RH, ["/admin"]);
    (ALL, ["/profile"; "/settings"]) ].

(** [PROTECTED_ROUTES.ALL] *)
Definition PROTECTED_ROUTES_ALL : list string :=
  List.concat (map (fun e => match fst e with ALL => snd e | _ => [] end)
              PROTECTED_ROUTES).

Definition PUBLIC_ROUTES : list string :=
  ["/"; "/connexion"; "/auth/magic-link"; "/health"; "/_next";
   "/favicon.ico"].

Definition ROLE_REDIRECTS (r : Role) : string :=
  match r with
  | COLLABORATEUR => "/user"
  | MANAGER => "/manager"
  | ADMIN_RH => "/admin"
  end.

(** The name of a role, as the API sends it. *)
Definition role_name (r : Role) : string :=
  match r with
  | ADMIN_RH => "ADMIN_RH"
  | MANAGER => "MANAGER"
  | COLLABORATEUR => "COLLABORATEUR"
  end.

(** [pathname.startsWith(route)] *)
Definition startsWith (pathname route : string) : bool :=
  String.prefix route pathname.

(** The loop over [Object.entries(PROTECTED_ROUTES)]: the first role whose
    routes match decides. *)
Fixpoint byRole (entries : list (RouteKey * list string))
  (pathname : string) (userRole : Role) : bool :=
  match entries with
  | [] => false
  | (ALL, _) :: rest => byRole rest pathname userRole
  | (ForRole role, routes) :: rest =>
      if existsb (startsWith pathname) routes then Role_eqb userRole role
      else byRole rest pathname userRole
  end.

(** [hasAccessToRoute(pathname, userRole)]; [userRole] is [None] when
    nobody is logged in. *)
Definition hasAccessToRoute (pathname : string) (userRole : option Role)
  : bool :=
  if pathname =? "" then false
  else if existsb (fun route =>
                     if route =? "/" then pathname =? "/"
                     else startsWith pathname route)
                  PUBLIC_ROUTES
  then true
  else
    match userRole with
    | None => false
    | Some role =>
        if existsb (startsWith pathname) PROTECTED_ROUTES_ALL then true
        else byRole PROTECTED_ROUTES pathname role
    end.

(** What the middleware answers: [NextResponse.next()] with the headers it
    sets, or [NextResponse.redirect] to a path of the same origin with its
    search parameters. *)
Inductive NextResponse : Type :=
| next (headers : list (string * string))
| redirect (pathname : string) (searchParams : list (string * string)).

(** The role the middleware works with: the role returned by the API for the
    cookie [refreshToken], when there is a cookie and the API accepts it. *)
Definition userRoleOf (validateRefreshToken : string -> option Role)
  (refreshToken : option string) : option Role :=
  match refreshToken with
  | Some t => if truthy refreshToken then validateRefreshToken t else None
  | None => None
  end.

(** [middleware(request)]; [validateRefreshToken] stands for the call to
    [/api/auth/refresh] and yields the role of the user when the answer is
    valid and carries a user. *)
Definition middleware (validateRefreshToken : string -> option Role)
  (pathname : string) (refreshToken : option string) : NextResponse :=
  if pathname =? "" then next []
  else if startsWith pathname "/_next" || startsWith pathname "/api"
          || containsb "." pathname
  then next []
  else
    let userRole := userRoleOf validateRefreshToken refreshToken in
    if pathname =? "/" then
      match userRole with
      | Some r => redirect (ROLE_REDIRECTS r) []
      | None => redirect "/connexion" []
      end
    else if negb (hasAccessToRoute pathname userRole) then
      match userRole with
      | None => redirect "/connexion" [("redirect", pathname)]
      | Some r => redirect (ROLE_REDIRECTS r) []
      end
    else
      next ([("X-Frame-Options", "DENY");
             ("X-Content-Type-Options", "nosniff");
             ("Referrer-Policy", "strict-origin-when-cross-origin")]
            ++ match userRole with
               | Some r => [("X-User-Role", role_name r)]
               | None => []
               end).

(* ===================================================================== *)
(** ** Notions used in the statements *)
(* ===================================================================== *)

(** The unredeemed links of a user: what [generateMagicLink] invalidates. *)
Definition pending_of (userId : string) (l : MagicLink.t) : bool :=
  (MagicLink.userId l =? userId) && isNone (MagicLink.usedAt l).

(** The row inserted by [generateMagicLink] for user [u]. *)
Definition issued_row (sha256 : string -> string) (env : Env) (u : User.t)
  : MagicLink.t :=
  MagicLink.mk (cuid env) (User.id u) (sha256 (randomHex env)) None
               (clock env 0 + DAY_MS)%Z (clock env 1).

(** A magic link once redeemed at time [t]. *)
Definition mark_used (t : Z) (l : MagicLink.t) : MagicLink.t :=
  MagicLink.mk (MagicLink.id l) (MagicLink.userId l) (MagicLink.tokenHash l)
               (Some t) (MagicLink.expiresAt l) (MagicLink.createdAt l).

(** The session row inserted by a successful redemption for user [u]. *)
Definition session_row (sha256 : string -> string) (env : Env) (u : User.t)
  : AuthSession.t :=
  AuthSession.mk (cuid env) (User.id u) (sha256 (randomHex env))
                 (clock env 2 + 30 * DAY_MS)%Z (clock env 3).

(** The store after link [l], owned by [u], has been redeemed. *)
Definition redeemed_store (sha256 : string -> string) (env : Env)
  (l : MagicLink.t) (u : User.t) (s : Store) : Store :=
  mkStore (companies s) (users s)
    (map (fun m => if MagicLink.id m =? MagicLink.id l
                   then mark_used (clock env 1) m else m)
         (magicLinks s))
    (authSessions s ++ [session_row sha256 env u]).

(** The context [validateSession] builds from a user row. *)
Definition context_of (u : User.t) : UserSession.t :=
  UserSession.mk (User.id u) (User.role u) (User.companyId u) (User.teamId u).

(** No stored session clashes with the id and the refresh-token hash that
    [env] supplies (the primary key and the unique index accept the insert). *)
Definition session_slot_free (sha256 : string -> string) (env : Env)
  (s : Store) : Prop :=
  forall x, In x (authSessions s) ->
    AuthSession.id x <> cuid env
    /\ AuthSession.tokenHash x <> sha256 (randomHex env).

(** Session row [x] is stored in [s] and no other stored session carries
    its digest (the unique index on [token_hash]). *)
Definition session_stored (x : AuthSession.t) (s : Store) : Prop :=
  In x (authSessions s)
  /\ forall y, In y (authSessions s) ->
       AuthSession.tokenHash y = AuthSession.tokenHash x -> y = x.

(** The store once the session rows with the id of [x] are deleted. *)
Definition without_session (x : AuthSession.t) (s : Store) : Store :=
  set_authSessions s
    (filter (fun y => negb (AuthSession.id y =? AuthSession.id x))
            (authSessions s)).

(** The store once the session rows with digest [h] are deleted. *)
Definition without_digest (h : string) (s : Store) : Store :=
  set_authSessions s
    (filter (fun y => negb (AuthSession.tokenHash y =? h)) (authSessions s)).

(* ===================================================================== *)
(** ** Sample data *)
(* ===================================================================== *)

(** A stand-in digest and a stand-in signer, to run the services on sample
    data. *)
Definition sample_sha256 (x : string) : string := "sha256:" ++ x.
Definition sample_jwt (p : JwtPayload) : string := "jwt:" ++ jwt_userId p.

Definition acme : Company.t := Company.mk "c-acme" "Acme" "acme.com" 0.
Definition globex : Company.t := Company.mk "c-globex" "Globex" "globex.com" 0.

Definition alice : User.t :=
  User.mk "u-alice" "c-acme" "alice@acme.com" COLLABORATEUR None 10.
Definition bob : User.t :=
  User.mk "u-bob" "c-acme" "bob@acme.com" ADMIN_RH None 11.
Definition carol : User.t :=
  User.mk "u-carol" "c-globex" "carol@globex.com" MANAGER (Some "team-1") 12.

Definition bob_ctx : UserSession.t := context_of bob.

(** Two companies, three users, no credential yet. *)
Definition sample_store : Store :=
  mkStore [acme; globex] [alice; bob; carol] [] [].

(** A pending link of alice (secret [t0], expiring at 5000), a link of alice
    already redeemed, a pending link of carol, and a session of alice (secret
    [r0], expiring at 4000). *)
Definition alice_pending : MagicLink.t :=
  MagicLink.mk "ml-0" "u-alice" "sha256:t0" None 5000 0.
Definition alice_redeemed : MagicLink.t :=
  MagicLink.mk "ml-u" "u-alice" "sha256:tu" (Some 50) 5000 0.
Definition carol_pending : MagicLink.t :=
  MagicLink.mk "ml-c" "u-carol" "sha256:tc" None 5000 0.
Definition alice_session : AuthSession.t :=
  AuthSession.mk "sess-0" "u-alice" "sha256:r0" 4000 0.

Definition linked_store : Store :=
  mkStore [acme; globex] [alice; bob; carol]
          [alice_pending; alice_redeemed; carol_pending] [alice_session].

(** An environment whose clock stands at [t]. *)
Definition env_at (t : Z) (rand id : string) : Env :=
  mkEnv (fun _ => t) rand id.

(** The sample scenario: at time 3000 alice redeems [t0] and receives the
    refresh secret [r1]; bob, administrator of her company, then makes her
    the manager of [team-9]. *)
Definition env_redeem : Env := env_at 3000 "r1" "sess-1".

Definition redeemed : Store :=
  redeemed_store sample_sha256 env_redeem alice_pending alice linked_store.

Definition session_r1 : SessionCreated :=
  mkCreated (mkSummary "u-alice" "alice@acme.com" COLLABORATEUR)
            "jwt:u-alice" "r1" (3000 + 30 * DAY_MS)%Z.

Definition promote : UpdateUserInput.t :=
  UpdateUserInput.mk None (Some MANAGER) (Value "team-9").

Definition alice_promoted : User.t :=
  User.mk "u-alice" "c-acme" "alice@acme.com" MANAGER (Some "team-9") 10.

Definition promoted : Store :=
  set_users redeemed [alice_promoted; bob; carol].

(* ===================================================================== *)
(** ** Further notions *)
(* ===================================================================== *)

(** The data-model invariant on magic links: no user has more than one
    unredeemed link. *)
Definition one_pending_per_user (s : Store) : Prop :=
  forall userId,
    (List.length (filter (pending_of userId) (magicLinks s)) <= 1)%nat.

(** The id and the digest that [env] supplies clash with no magic link that
    [generateMagicLink] keeps for user [u] (the insert is accepted). *)
Definition link_slot_free (sha256 : string -> string) (env : Env)
  (u : User.t) (s : Store) : Prop :=
  forall l, In l (magicLinks s) ->
    pending_of (User.id u) l = false ->
    MagicLink.id l <> cuid env
    /\ MagicLink.tokenHash l <> sha256 (randomHex env).

(** The magic links after the row(s) with the id of [l] were marked as used
    at time [t]. *)
Definition consumed (t : Z) (l : MagicLink.t) (ls : list MagicLink.t)
  : list MagicLink.t :=
  map (fun m => if MagicLink.id m =? MagicLink.id l then mark_used t m else m)
      ls.

(** The business rule on role and team: a manager has a team, an
    administrator has none. *)
Definition role_team_ok (u : User.t) : Prop :=
  (User.role u = MANAGER -> truthy (User.teamId u) = true)
  /\ (User.role u = ADMIN_RH -> truthy (User.teamId u) = false).

(** The rows a requester may reach: those of the requester's company; for a
    manager, of the manager's team; for a collaborator, the requester's own
    row. *)
Definition in_scope (requestingUser : UserSession.t) (v : User.t) : Prop :=
  User.companyId v = UserSession.companyId requestingUser
  /\ (UserSession.role requestingUser = MANAGER ->
      User.teamId v = UserSession.teamId requestingUser)
  /\ (UserSession.role requestingUser = COLLABORATEUR ->
      User.id v = UserSession.id requestingUser).

(** The id actually looked up by [getUserById] and [updateUser]: the
    requester's own id for a collaborator, the id asked for otherwise. *)
Definition target_id (userId : string) (requestingUser : UserSession.t)
  : string :=
  match UserSession.role requestingUser with
  | COLLABORATEUR => UserSession.id requestingUser
  | _ => userId
  end.

(** The constraints of the schema on users, with the business rule: ids and
    e-mail addresses are unique, every user satisfies the role and team
    rule and belongs to a stored company. *)
Definition users_wf (s : Store) : Prop :=
  NoDup (map User.id (users s))
  /\ NoDup (map User.email (users s))
  /\ (forall u, In u (users s) -> role_team_ok u)
  /\ (forall u, In u (users s) ->
        exists c, In c (companies s) /\ Company.id c = User.companyId u).

(** The row [updateUser] writes over [existing]. *)
Definition updated_row (d : UpdateUserInput.t) (existing : User.t) : User.t :=
  User.mk (User.id existing) (User.companyId existing)
    (match UpdateUserInput.email d with
     | Some e => e
     | None => User.email existing
     end)
    (newRole_of d existing)
    (match newRole_of d existing with
     | ADMIN_RH => None
     | _ => newTeamId_of d existing
     end)
    (User.createdAt existing).

From Stdlib Require Import Sorted Permutation.

(** Rows ordered by creation time, the most recent first. *)
Definition newest_first (rows : list User.t) : Prop :=
  StronglySorted (fun a b => (User.createdAt b <= User.createdAt a)%Z) rows.

(** Further sample data: carol as a requester; the store after a sweep at
    time 3000; the store after bob has deleted alice. *)
Definition carol_ctx : UserSession.t := context_of carol.

Definition swept_store : Store :=
  mkStore [acme; globex] [alice; bob; carol]
          [alice_pending; carol_pending] [alice_session].

Definition store_without_alice : Store :=
  mkStore [acme; globex] [bob; carol] [carol_pending] [].

(** The sample scenario, continued: after the promotion of alice, carol
    redeems [tc] at time 3200 and receives the refresh secret [r2]; a sweep
    then runs at time 4500. *)
Definition env_carol : Env := env_at 3200 "r2" "sess-2".

Definition later_store : Store :=
  mkStore [acme; globex] [alice_promoted; bob; carol] []
          [session_row sample_sha256 env_redeem alice;
           session_row sample_sha256 env_carol carol].

Definition dave : User.t :=
  User.mk "u-dave" "c-acme" "dave@acme.com" COLLABORATEUR None 20.

Definition carol_admin : User.t :=
  User.mk "u-carol" "c-globex" "carol@globex.com" ADMIN_RH None 12.

(* ===================================================================== *)
(** ** Auxiliary facts on lists and filters *)
(* ===================================================================== *)

Lemma filter_neg_idem {A} (p : A -> bool) (l : list A) :
  filter (fun x => negb (p x)) (filter (fun x => negb (p x)) l)
  = filter (fun x => negb (p x)) l.
Proof.
  induction l as [|a l IH]; simpl; [reflexivity|].
  destruct (p a) eqn:E; simpl; [assumption|].
  rewrite E; simpl. now rewrite IH.
Qed.

Lemma filter_filter_neg {A} (p : A -> bool) (l : list A) :
  filter p (filter (fun x => negb (p x)) l) = [].
Proof.
  induction l as [|a l IH]; simpl; [reflexivity|].
  destruct (p a) eqn:E; simpl; [assumption|].
  now rewrite E.
Qed.

Lemma find_none_iff {A} (p : A -> bool) (l : list A) :
  find p l = None <-> forall x, In x l -> p x = false.
Proof.
  split.
  - intros H x Hx. exact (find_none p l H x Hx).
  - induction l as [|a l IH]; simpl; intros H; [reflexivity|].
    rewrite (H a (or_introl eq_refl)). apply IH. intros x Hx.
    apply H. now right.
Qed.

Lemma find_ext_eq {A} (p q : A -> bool) (l : list A) :
  (forall x, p x = q x) -> find p l = find q l.
Proof.
  intros H. induction l as [|a l IH]; simpl; [reflexivity|].
  now rewrite H, IH.
Qed.

Lemma find_app_none {A} (p : A -> bool) (l r : list A) :
  find p l = None -> find p (l ++ r) = find p r.
Proof.
  induction l as [|a l IH]; simpl; [reflexivity|].
  destruct (p a); [discriminate|exact IH].
Qed.

Lemma find_only {A} (p : A -> bool) (l : list A) (x : A) :
  In x l -> p x = true ->
  (forall y, In y l -> p y = true -> y = x) ->
  find p l = Some x.
Proof.
  induction l as [|a l IH]; simpl; intros Hin Hp Huniq; [contradiction|].
  destruct (p a) eqn:E.
  - f_equal. apply Huniq; auto.
  - destruct Hin as [->|Hin]; [congruence|].
    apply IH; auto.
Qed.

Lemma find_app_some {A} (p : A -> bool) (l r : list A) (x : A) :
  find p l = Some x -> find p (l ++ r) = Some x.
Proof.
  induction l as [|a l IH]; simpl; [discriminate|].
  destruct (p a); [trivial|exact IH].
Qed.

Lemma find_map_stable {A} (p : A -> bool) (f : A -> A) (l : list A) :
  (forall x, p (f x) = p x) ->
  find p (map f l) = option_map f (find p l).
Proof.
  intros Hp. induction l as [|a l IH]; simpl; [reflexivity|].
  rewrite Hp. destruct (p a); [reflexivity|exact IH].
Qed.

Lemma existsb_false_iff {A} (p : A -> bool) (l : list A) :
  existsb p l = false <-> forall x, In x l -> p x = false.
Proof.
  split.
  - intros H x Hx. destruct (p x) eqn:E; [|reflexivity].
    rewrite <- H. symmetry. apply existsb_exists. now exists x.
  - intros H. destruct (existsb p l) eqn:E; [|reflexivity].
    apply existsb_exists in E. destruct E as (x & Hx & Px).
    now rewrite (H x Hx) in Px.
Qed.

Lemma existsb_find_some {A} (p : A -> bool) (l : list A) (x : A) :
  find p l = Some x -> existsb p l = true.
Proof.
  intros H. apply find_some in H. apply existsb_exists. now exists x.
Qed.

(** Running a service body: unfold the monad and the Prisma primitives. *)
Ltac exec :=
  cbv beta iota zeta delta
    [tryCatch tryCatchAll tryCatchStatus bind ret throw gets modify deref
     magicLink_findUnique magicLink_deleteMany magicLink_create
     magicLink_update_usedAt authSession_findUnique authSession_deleteMany
     authSession_create authSession_delete company_findUnique
     user_findUnique user_findMany user_count user_create user_update
     user_delete].

(** The filter [{ email }] looks at the e-mail column only. *)
Lemma matches_email (e : string) (u : User.t) :
  matches (mkWhere None (Some e) None None None None) u = (User.email u =? e).
Proof.
  unfold matches; simpl. now rewrite !andb_true_r.
Qed.

Lemma isNone_true {A} (o : option A) : isNone o = true <-> o = None.
Proof. destruct o; simpl; split; congruence. Qed.

(* ===================================================================== *)
(** ** Magic links: issuing *)
(* ===================================================================== *)

Section IssueProperties.

Context (sha256 : string -> string).

(** Inversion of a successful [generateMagicLink]. *)
Lemma generateMagicLink_Ok_inv env email s s' r :
  generateMagicLink sha256 env email s = (s', Ok r) ->
  exists u,
    find (fun v => User.email v =? email) (users s) = Some u
    /\ (forall l,
          In l (filter (fun l => negb (pending_of (User.id u) l))
                       (magicLinks s)) ->
          MagicLink.id l <> cuid env
          /\ MagicLink.tokenHash l <> sha256 (randomHex env))
    /\ s' = set_magicLinks s
              (filter (fun l => negb (pending_of (User.id u) l))
                      (magicLinks s) ++ [issued_row sha256 env u])
    /\ r = mkIssued (cuid env) (randomHex env) (clock env 0 + DAY_MS)%Z.
Proof.
  unfold generateMagicLink, generateMagicLink_body. exec.
  rewrite (find_ext_eq _ _ (users s) (matches_email email)).
  destruct (find (fun v => User.email v =? email) (users s)) as [u|] eqn:Hu;
    [|discriminate].
  cbn [magicLinks set_magicLinks users companies authSessions].
  unfold pending_of.
  set (kept := filter _ (magicLinks s)).
  destruct (existsb _ kept) eqn:Hclash; [discriminate|].
  cbn [magicLinks set_magicLinks users companies authSessions MagicLink.id].
  intros H; inversion H; subst; clear H.
  rewrite existsb_false_iff in Hclash.
  exists u. repeat split; try reflexivity.
  - intros E. specialize (Hclash l H). apply orb_false_elim in Hclash.
    destruct Hclash as [Hc _]. apply String.eqb_neq in Hc. contradiction.
  - intros E. specialize (Hclash l H). apply orb_false_elim in Hclash.
    destruct Hclash as [_ Hc]. apply String.eqb_neq in Hc. contradiction.
Qed.

Lemma generateMagicLink_users env email s s' r :
  generateMagicLink sha256 env email s = (s', Ok r) -> users s' = users s.
Proof.
  intros H. apply generateMagicLink_Ok_inv in H.
  destruct H as (u & _ & _ & -> & _). reflexivity.
Qed.

(** C10.  When no user row carries the requested e-mail address,
    [generateMagicLink] fails with [USER_NOT_FOUND] (404) and returns the
    store exactly as it received it: no magic link is deleted or created, no
    session and no user is touched. *)
Theorem generateMagicLink_unknown_email env email s :
  (forall u, In u (users s) -> User.email u <> email) ->
  generateMagicLink sha256 env email s = (s, Err USER_NOT_FOUND).
Proof.
  intros Hnone.
  assert (Hf : find (fun v => User.email v =? email) (users s) = None).
  { apply find_none_iff. intros u Hu. apply String.eqb_neq. auto. }
  unfold generateMagicLink, generateMagicLink_body. exec.
  rewrite (find_ext_eq _ _ (users s) (matches_email email)), Hf.
  reflexivity.
Qed.

(** C9.  A successful [generateMagicLink] resolves the e-mail address to a
    user [u], removes exactly the magic links of [u] whose [usedAt] is
    null, keeps every other magic link (those already redeemed and those of
    other users) unchanged and in order, appends exactly one new row (owned
    by [u], unredeemed, with a fresh id and a fresh token hash), and leaves
    users, sessions and companies alone. *)
Theorem generateMagicLink_frame env email s s' r :
  generateMagicLink sha256 env email s = (s', Ok r) ->
  exists u,
    find (fun v => User.email v =? email) (users s) = Some u
    /\ magicLinks s'
       = (filter (fun l => negb (pending_of (User.id u) l)) (magicLinks s)
          ++ [issued_row sha256 env u])%list
    /\ (forall l, In l (magicLinks s) ->
          MagicLink.usedAt l <> None \/ MagicLink.userId l <> User.id u ->
          In l (magicLinks s'))
    /\ (forall l, In l (magicLinks s) -> ~ In l (magicLinks s') ->
          MagicLink.userId l = User.id u /\ MagicLink.usedAt l = None)
    /\ (forall l, In l (magicLinks s') ->
          l = issued_row sha256 env u
          \/ (In l (magicLinks s)
              /\ MagicLink.id l <> MagicLink.id (issued_row sha256 env u)))
    /\ List.length (magicLinks s')
       = S (List.length
              (filter (fun l => negb (pending_of (User.id u) l))
                      (magicLinks s)))
    /\ users s' = users s
    /\ authSessions s' = authSessions s
    /\ companies s' = companies s.
Proof.
  intros H. apply generateMagicLink_Ok_inv in H.
  destruct H as (u & Hu & Hfresh & -> & _).
  exists u. cbn [magicLinks set_magicLinks users authSessions companies].
  split; [exact Hu|]. split; [reflexivity|].
  repeat split.
  - intros l Hl Hkeep. apply in_or_app. left. apply filter_In.
    split; [exact Hl|]. unfold pending_of.
    destruct Hkeep as [Hused|Hother].
    + destruct (MagicLink.usedAt l); [|congruence].
      simpl. now rewrite andb_false_r.
    + apply String.eqb_neq in Hother. now rewrite Hother.
  - destruct (MagicLink.userId l =? User.id u) eqn:E.
    + now apply String.eqb_eq.
    + exfalso. apply H0. apply in_or_app. left. apply filter_In.
      split; [exact H|]. unfold pending_of. now rewrite E.
  - destruct (isNone (MagicLink.usedAt l)) eqn:E.
    + now apply isNone_true.
    + exfalso. apply H0. apply in_or_app. left. apply filter_In.
      split; [exact H|]. unfold pending_of. rewrite E.
      now rewrite andb_false_r.
  - intros l Hl. apply in_app_or in Hl. destruct Hl as [Hl|[<-|[]]].
    + right. split; [apply filter_In in Hl; tauto|].
      apply (Hfresh l Hl).
    + now left.
  - rewrite length_app. simpl. lia.
Qed.

End IssueProperties.

(* ===================================================================== *)
(** ** Magic links: redeeming *)
(* ===================================================================== *)

Section RedeemProperties.

Context (sha256 : string -> string) (jwt_sign : JwtPayload -> string).

Local Abbreviation redeem :=
  (validateMagicLinkAndCreateSession sha256 jwt_sign).
Local Abbreviation link_of token s :=
  (find (fun l => MagicLink.tokenHash l =? sha256 token) (magicLinks s)).

Lemma redeem_unknown env token s :
  link_of token s = None ->
  redeem env token s = (s, Err INVALID_TOKEN).
Proof.
  intros H. unfold validateMagicLinkAndCreateSession,
    validateMagicLinkAndCreateSession_body. exec. now rewrite H.
Qed.

Lemma redeem_expired env token s l :
  link_of token s = Some l ->
  (MagicLink.expiresAt l < clock env 0)%Z ->
  redeem env token s = (s, Err EXPIRED_TOKEN).
Proof.
  intros H Hexp. apply Z.ltb_lt in Hexp.
  unfold validateMagicLinkAndCreateSession,
    validateMagicLinkAndCreateSession_body. exec. now rewrite H, Hexp.
Qed.

Lemma redeem_used env token s l :
  link_of token s = Some l ->
  (clock env 0 <= MagicLink.expiresAt l)%Z ->
  MagicLink.usedAt l <> None ->
  redeem env token s = (s, Err TOKEN_ALREADY_USED).
Proof.
  intros H Hexp Hused.
  assert (E : (MagicLink.expiresAt l <? clock env 0)%Z = false)
    by (apply Z.ltb_ge; lia).
  unfold validateMagicLinkAndCreateSession,
    validateMagicLinkAndCreateSession_body. exec. rewrite H, E.
  destruct (MagicLink.usedAt l); [reflexivity|congruence].
Qed.

Lemma session_slot_free_existsb env s :
  session_slot_free sha256 env s ->
  existsb (fun x => (AuthSession.id x =? cuid env)
                    || (AuthSession.tokenHash x =? sha256 (randomHex env)))
          (authSessions s) = false.
Proof.
  intros H. apply existsb_false_iff. intros x Hx.
  destruct (H x Hx) as [Hi Hh].
  apply String.eqb_neq in Hi, Hh. now rewrite Hi, Hh.
Qed.

Lemma redeem_ok env token s l u :
  link_of token s = Some l ->
  (clock env 0 <= MagicLink.expiresAt l)%Z ->
  MagicLink.usedAt l = None ->
  included_user (MagicLink.userId l) s = Some u ->
  session_slot_free sha256 env s ->
  redeem env token s
  = (redeemed_store sha256 env l u s,
     Ok (mkCreated
           (mkSummary (User.id u) (User.email u) (User.role u))
           (jwt_sign (mkJwtPayload (User.id u) (User.role u)
                        (User.companyId u) (orUndefined (User.teamId u))))
           (randomHex env)
           (clock env 2 + 30 * DAY_MS)%Z)).
Proof.
  intros H Hexp Hused Hu Hfree.
  assert (E : (MagicLink.expiresAt l <? clock env 0)%Z = false)
    by (apply Z.ltb_ge; lia).
  apply session_slot_free_existsb in Hfree.
  unfold validateMagicLinkAndCreateSession,
    validateMagicLinkAndCreateSession_body. exec.
  rewrite H, E, Hused, Hu. cbn [isNone negb].
  assert (Hin : existsb (fun m => MagicLink.id m =? MagicLink.id l)
                        (magicLinks s) = true).
  { apply existsb_exists. exists l. split.
    - now apply find_some in H.
    - apply String.eqb_refl. }
  rewrite Hin.
  cbn [authSessions set_magicLinks set_authSessions magicLinks users
       companies AuthSession.id AuthSession.tokenHash].
  rewrite Hfree. reflexivity.
Qed.

(** Inversion of a successful redemption. *)
Lemma redeem_Ok_inv env token s s1 r :
  redeem env token s = (s1, Ok r) ->
  exists l u,
    link_of token s = Some l
    /\ (clock env 0 <= MagicLink.expiresAt l)%Z
    /\ MagicLink.usedAt l = None
    /\ included_user (MagicLink.userId l) s = Some u
    /\ session_slot_free sha256 env s
    /\ s1 = redeemed_store sha256 env l u s
    /\ r = mkCreated
             (mkSummary (User.id u) (User.email u) (User.role u))
             (jwt_sign (mkJwtPayload (User.id u) (User.role u)
                          (User.companyId u) (orUndefined (User.teamId u))))
             (randomHex env)
             (clock env 2 + 30 * DAY_MS)%Z.
Proof.
  unfold validateMagicLinkAndCreateSession,
    validateMagicLinkAndCreateSession_body. exec.
  destruct (link_of token s) as [l|] eqn:Hl; [|discriminate].
  destruct (MagicLink.expiresAt l <? clock env 0)%Z eqn:E; [discriminate|].
  destruct (MagicLink.usedAt l) eqn:Hused; [discriminate|].
  cbn [isNone negb].
  destruct (existsb _ (magicLinks s)); [|discriminate].
  destruct (included_user (MagicLink.userId l) s) as [u|] eqn:Hu;
    [|discriminate].
  cbn [authSessions set_magicLinks set_authSessions magicLinks users
       companies AuthSession.id AuthSession.tokenHash].
  destruct (existsb _ (authSessions s)) eqn:Hclash; [discriminate|].
  cbn [authSessions set_magicLinks set_authSessions magicLinks users
       companies].
  intros H; inversion H; subst; clear H.
  exists l, u. apply Z.ltb_ge in E.
  repeat split; try reflexivity; try assumption.
  - intros Hx. rewrite existsb_false_iff in Hclash.
    specialize (Hclash x H). apply orb_false_elim in Hclash.
    destruct Hclash as [Hc _]. apply String.eqb_neq in Hc. contradiction.
  - intros Hx. rewrite existsb_false_iff in Hclash.
    specialize (Hclash x H). apply orb_false_elim in Hclash.
    destruct Hclash as [_ Hc]. apply String.eqb_neq in Hc. contradiction.
Qed.

(** After a redemption the link is still found under its hash, now
    carrying its redemption time. *)
Lemma link_of_redeemed env token s l u :
  link_of token s = Some l ->
  link_of token (redeemed_store sha256 env l u s)
  = Some (mark_used (clock env 1) l).
Proof.
  intros H. cbn [redeemed_store magicLinks].
  rewrite find_map_stable.
  - rewrite H. simpl. now rewrite String.eqb_refl.
  - intros m. now destruct (MagicLink.id m =? MagicLink.id l).
Qed.

(** C2.  Let [token] be a magic-link secret whose stored link is unexpired
    and unredeemed (its owner exists, and the id and refresh hash drawn for
    the new session are free).  Then redeeming it succeeds, and redeeming it
    again in the resulting store, at any time at which the link has still
    not expired, fails with [TOKEN_ALREADY_USED] and changes nothing. *)
Theorem redeem_succeeds_once env token s l u :
  link_of token s = Some l ->
  (clock env 0 <= MagicLink.expiresAt l)%Z ->
  MagicLink.usedAt l = None ->
  included_user (MagicLink.userId l) s = Some u ->
  session_slot_free sha256 env s ->
  exists s1 r,
    redeem env token s = (s1, Ok r)
    /\ forall env',
         (clock env' 0 <= MagicLink.expiresAt l)%Z ->
         redeem env' token s1 = (s1, Err TOKEN_ALREADY_USED).
Proof.
  intros Hl Hexp Hused Hu Hfree.
  eexists. eexists. split.
  - apply (redeem_ok env token s l u); assumption.
  - intros env' Hexp'.
    apply (redeem_used env' token _ (mark_used (clock env 1) l)).
    + now apply link_of_redeemed.
    + exact Hexp'.
    + discriminate.
Qed.


(** C5.  After two successful requests for the same e-mail address, whose
    two secrets have different digests, the secret of the first request is
    no longer redeemable: its row was deleted by the second request, so
    redeeming it fails with [INVALID_TOKEN].  Moreover the only unredeemed
    magic link of that user is then the one issued by the second request. *)
Theorem second_request_invalidates_first env1 env2 email s s1 r1 s2 r2 :
  generateMagicLink sha256 env1 email s = (s1, Ok r1) ->
  generateMagicLink sha256 env2 email s1 = (s2, Ok r2) ->
  sha256 (token r2) <> sha256 (token r1) ->
  (forall env3, redeem env3 (token r1) s2 = (s2, Err INVALID_TOKEN))
  /\ exists u,
       find (fun v => User.email v =? email) (users s2) = Some u
       /\ filter (pending_of (User.id u)) (magicLinks s2)
          = [issued_row sha256 env2 u].
Proof.
  intros H1 H2 Hneq.
  apply generateMagicLink_Ok_inv in H1.
  destruct H1 as (u & Hu & Hfresh1 & -> & ->).
  apply generateMagicLink_Ok_inv in H2.
  cbn [users set_magicLinks magicLinks] in H2.
  destruct H2 as (u' & Hu' & _ & -> & ->).
  rewrite Hu in Hu'. injection Hu' as <-.
  cbn [token] in *.
  set (kept := filter (fun l => negb (pending_of (User.id u) l))
                      (magicLinks s)) in *.
  assert (Hnew : pending_of (User.id u) (issued_row sha256 env1 u) = true).
  { unfold pending_of, issued_row. simpl. now rewrite String.eqb_refl. }
  assert (Hkept : filter (fun l => negb (pending_of (User.id u) l))
                    (kept ++ [issued_row sha256 env1 u]) = kept).
  { rewrite filter_app. simpl. rewrite Hnew. simpl.
    rewrite app_nil_r. apply filter_neg_idem. }
  rewrite Hkept. split.
  - intros env3. apply redeem_unknown.
    cbn [magicLinks set_magicLinks]. apply find_none_iff.
    intros x Hx. apply String.eqb_neq.
    apply in_app_or in Hx. destruct Hx as [Hx|[<-|[]]].
    + apply (Hfresh1 x Hx).
    + exact Hneq.
  - exists u. cbn [users magicLinks set_magicLinks]. split; [exact Hu|].
    rewrite filter_app. unfold kept at 1. rewrite filter_filter_neg.
    simpl.
    assert (pending_of (User.id u) (issued_row sha256 env2 u) = true) as ->.
    { unfold pending_of, issued_row. simpl. now rewrite String.eqb_refl. }
    reflexivity.
Qed.

End RedeemProperties.

(* ===================================================================== *)
(** ** Sessions: validating, refreshing, revoking *)
(* ===================================================================== *)

Section SessionProperties.

Context (sha256 : string -> string) (jwt_sign : JwtPayload -> string).

Local Abbreviation session_of token s :=
  (find (fun x => AuthSession.tokenHash x =? sha256 token) (authSessions s)).

Lemma validateSession_unknown env token s :
  session_of token s = None ->
  validateSession sha256 env token s = (s, Err INVALID_SESSION).
Proof.
  intros H. unfold validateSession, validateSession_body. exec.
  now rewrite H.
Qed.

Lemma session_id_present token s x :
  session_of token s = Some x ->
  existsb (fun y => AuthSession.id y =? AuthSession.id x) (authSessions s)
  = true.
Proof.
  intros H. apply existsb_exists. exists x. split.
  - now apply find_some in H.
  - apply String.eqb_refl.
Qed.

Lemma validateSession_expired env token s x :
  session_of token s = Some x ->
  (AuthSession.expiresAt x < clock env 0)%Z ->
  validateSession sha256 env token s
  = (without_session x s, Err EXPIRED_SESSION).
Proof.
  intros H Hexp. apply Z.ltb_lt in Hexp.
  unfold validateSession, validateSession_body. exec.
  rewrite H, Hexp, (session_id_present token s x H). reflexivity.
Qed.

Lemma refreshAccessToken_expired env token s x :
  session_of token s = Some x ->
  (AuthSession.expiresAt x < clock env 0)%Z ->
  refreshAccessToken sha256 jwt_sign env token s
  = (without_session x s, Err EXPIRED_REFRESH_TOKEN).
Proof.
  intros H Hexp. apply Z.ltb_lt in Hexp.
  unfold refreshAccessToken, refreshAccessToken_body. exec.
  rewrite H, Hexp, (session_id_present token s x H). reflexivity.
Qed.

Lemma validateSession_ok env token s x u :
  session_of token s = Some x ->
  (clock env 0 <= AuthSession.expiresAt x)%Z ->
  included_user (AuthSession.userId x) s = Some u ->
  validateSession sha256 env token s = (s, Ok (context_of u)).
Proof.
  intros H Hexp Hu.
  assert (E : (AuthSession.expiresAt x <? clock env 0)%Z = false)
    by (apply Z.ltb_ge; lia).
  unfold validateSession, validateSession_body. exec.
  now rewrite H, E, Hu.
Qed.

Lemma without_session_gone x s :
  ~ In x (authSessions (without_session x s)).
Proof.
  cbn [without_session authSessions set_authSessions].
  intros H. apply filter_In in H. destruct H as [_ H].
  now rewrite String.eqb_refl in H.
Qed.

(** C3 (as the code has it).  A successful redemption appends one session
    row, owned by the user it returns, keyed by the digest of the refresh
    secret it returns and expiring when it says.  In every
    later store in which that row is still stored under its digest (whatever
    else has changed in between: users updated, other sessions created,
    revoked or swept), and while the session has not expired,
    [validateSession] on the refresh secret leaves the store as it is and
    returns the id, role, company and team of the owner's row as it is in
    the store at that moment: the row is read again at each validation. *)
Theorem validateSession_reads_current_user env token s s1 r :
  validateMagicLinkAndCreateSession sha256 jwt_sign env token s
  = (s1, Ok r) ->
  exists x,
    authSessions s1 = (authSessions s ++ [x])%list
    /\ AuthSession.userId x = sum_id (user r)
    /\ AuthSession.tokenHash x = sha256 (refreshToken r)
    /\ AuthSession.expiresAt x = refreshExpiresAt r
    /\ session_stored x s1
    /\ forall env' s2 u2,
         session_stored x s2 ->
         included_user (sum_id (user r)) s2 = Some u2 ->
         (clock env' 0 <= refreshExpiresAt r)%Z ->
         validateSession sha256 env' (refreshToken r) s2
         = (s2, Ok (context_of u2)).
Proof.
  intros H.
  apply redeem_Ok_inv in H.
  destruct H as (l & u & _ & _ & _ & _ & Hfree & -> & ->).
  exists (session_row sha256 env u).
  cbn [user sum_id refreshExpiresAt refreshToken redeemed_store
       authSessions session_row AuthSession.tokenHash AuthSession.userId
       AuthSession.expiresAt].
  do 4 (split; [reflexivity|]). split.
  - split.
    + apply in_or_app. right. now left.
    + intros y Hy Hh. apply in_app_or in Hy. destruct Hy as [Hy|[<-|[]]].
      * destruct (Hfree y Hy) as [_ Hd]. contradiction.
      * reflexivity.
  - intros env' s2 u2 [Hin Honly] Hu2 Hexp.
    apply (validateSession_ok env' _ s2 (session_row sha256 env u)).
    + apply find_only.
      * exact Hin.
      * apply String.eqb_refl.
      * intros y Hy Hd. apply String.eqb_eq in Hd. now apply Honly.
    + exact Hexp.
    + exact Hu2.
Qed.

(** C6 (as the code has it).  An expired session is deleted by the very
    call that detects it: [validateSession] and [refreshAccessToken] return
    their expired-class error together with a store from which the row is
    gone (all other tables unchanged).  An expired magic link is not: the
    redemption fails with [EXPIRED_TOKEN] and returns the store unchanged,
    the link row still in it. *)
Theorem expiry_side_effects env s :
  (forall token x,
      session_of token s = Some x ->
      (AuthSession.expiresAt x < clock env 0)%Z ->
      validateSession sha256 env token s
      = (without_session x s, Err EXPIRED_SESSION)
      /\ refreshAccessToken sha256 jwt_sign env token s
         = (without_session x s, Err EXPIRED_REFRESH_TOKEN)
      /\ ~ In x (authSessions (without_session x s)))
  /\ (forall token l,
        find (fun m => MagicLink.tokenHash m =? sha256 token) (magicLinks s)
        = Some l ->
        (MagicLink.expiresAt l < clock env 0)%Z ->
        validateMagicLinkAndCreateSession sha256 jwt_sign env token s
        = (s, Err EXPIRED_TOKEN)
        /\ In l (magicLinks s)).
Proof.
  split.
  - intros token x Hx Hexp. split; [|split].
    + now apply validateSession_expired.
    + now apply refreshAccessToken_expired.
    + apply without_session_gone.
  - intros token l Hl Hexp. split.
    + now apply (redeem_expired sha256 jwt_sign env token s l).
    + now apply find_some in Hl.
Qed.

Lemma set_authSessions_same s : set_authSessions s (authSessions s) = s.
Proof. now destruct s. Qed.

Lemma filter_all {A} (p : A -> bool) (l : list A) :
  (forall x, In x l -> p x = true) -> filter p l = l.
Proof.
  induction l as [|a l IH]; simpl; intros H; [reflexivity|].
  rewrite (H a (or_introl eq_refl)). f_equal. apply IH.
  intros x Hx. apply H. now right.
Qed.

(** C8.  [revokeSession] never fails: it returns [Ok] and the store in
    which the session rows with the digest of the secret are deleted, which
    is the store itself when there is none.  Revoking again changes
    nothing, and in the store after a revocation every [validateSession] of
    that secret, at any time, fails with [INVALID_SESSION] and leaves the
    store as it is. *)
Theorem revokeSession_then_invalid token s :
  revokeSession sha256 token s = (without_digest (sha256 token) s, Ok tt)
  /\ ((forall x, In x (authSessions s) ->
         AuthSession.tokenHash x <> sha256 token) ->
      without_digest (sha256 token) s = s)
  /\ revokeSession sha256 token (without_digest (sha256 token) s)
     = (without_digest (sha256 token) s, Ok tt)
  /\ forall env,
       validateSession sha256 env token (without_digest (sha256 token) s)
       = (without_digest (sha256 token) s, Err INVALID_SESSION).
Proof.
  split; [reflexivity|]. split; [|split].
  - intros Habs. unfold without_digest. rewrite filter_all.
    + apply set_authSessions_same.
    + intros x Hx. apply negb_true_iff, String.eqb_neq. now apply Habs.
  - unfold revokeSession, revokeSession_body. exec.
    unfold without_digest.
    cbn [authSessions set_authSessions companies users magicLinks].
    rewrite (filter_neg_idem
               (fun y => AuthSession.tokenHash y =? sha256 token)).
    reflexivity.
  - intros env. apply validateSession_unknown.
    apply find_none_iff. intros x Hx.
    cbn [without_digest authSessions set_authSessions] in Hx.
    apply filter_In in Hx. destruct Hx as [_ Hx].
    now apply negb_true_iff in Hx.
Qed.

End SessionProperties.

(* ===================================================================== *)
(** ** User records: scoping by company *)
(* ===================================================================== *)

Lemma matches_companyId (w : UserWhere) (c : string) (u : User.t) :
  w_companyId w = Some c -> matches w u = true -> User.companyId u = c.
Proof.
  unfold matches. intros Hw H. rewrite Hw in H. cbn [on_field] in H.
  do 3 (apply andb_prop in H; destruct H as [H _]).
  apply andb_prop in H. destruct H as [_ H]. now apply String.eqb_eq.
Qed.

Lemma scoped_companyId (base : UserWhere) (r : UserSession.t) :
  w_companyId (scoped base r) = Some (UserSession.companyId r).
Proof. unfold scoped. now destruct (UserSession.role r). Qed.

Lemma in_firstn {A} (n : nat) (l : list A) (x : A) :
  In x (firstn n l) -> In x l.
Proof.
  intros H. rewrite <- (firstn_skipn n l). apply in_or_app. now left.
Qed.

Lemma in_skipn {A} (n : nat) (l : list A) (x : A) :
  In x (skipn n l) -> In x l.
Proof.
  intros H. rewrite <- (firstn_skipn n l). apply in_or_app. now right.
Qed.

Lemma in_insert_desc (u x : User.t) (l : list User.t) :
  In x (insert_desc u l) -> x = u \/ In x l.
Proof.
  induction l as [|v l IH]; simpl.
  - intros [<-|[]]. now left.
  - destruct (User.createdAt v <? User.createdAt u)%Z; simpl.
    + intros [<-|[<-|H]]; auto.
    + intros [<-|H]; auto. destruct (IH H); auto.
Qed.

Lemma in_sort_desc (x : User.t) (l : list User.t) :
  In x (sort_desc l) -> In x l.
Proof.
  induction l as [|v l IH]; simpl; [trivial|].
  intros H. apply in_insert_desc in H. destruct H as [<-|H]; auto.
Qed.

(** Every row [findMany] returns satisfies the filter. *)
Lemma user_findMany_matches w skip take s s' rows :
  user_findMany w skip take s = (s', inr rows) ->
  s' = s /\ forall u, In u rows -> In u (users s) /\ matches w u = true.
Proof.
  unfold user_findMany. exec.
  destruct ((skip <? 0)%Z || negb (fits_int64 skip)
            || negb (fits_int64 take)); [discriminate|].
  intros H; inversion H; subst; clear H. split; [reflexivity|].
  intros u Hu. apply filter_In. apply in_sort_desc.
  destruct (take <? 0)%Z.
  - apply in_rev in Hu. apply in_firstn, in_skipn in Hu.
    now apply in_rev in Hu.
  - now apply in_firstn, in_skipn in Hu.
Qed.

(** [getUserById] and [getUserByEmail] never change the store, and the row
    they return belongs to the company of the requesting user. *)
Lemma getUserById_scoped userId requestingUser s s' u :
  getUserById userId requestingUser s = (s', Ok (Some u)) ->
  s' = s /\ User.companyId u = UserSession.companyId requestingUser.
Proof.
  unfold getUserById. exec. intros H; inversion H as [[Hs Hf]].
  split; [reflexivity|]. apply find_some in Hf. destruct Hf as [_ Hm].
  exact (matches_companyId _ _ _ (scoped_companyId _ _) Hm).
Qed.

Lemma getUserByEmail_scoped email requestingUser s s' u :
  getUserByEmail email requestingUser s = (s', Ok (Some u)) ->
  s' = s /\ User.companyId u = UserSession.companyId requestingUser.
Proof.
  unfold getUserByEmail. exec. intros H; inversion H as [[Hs Hf]].
  split; [reflexivity|]. apply find_some in Hf. destruct Hf as [_ Hm].
  exact (matches_companyId _ _ _ (scoped_companyId _ _) Hm).
Qed.

(** A successful [updateUser] rewrites only rows of the requester's company
    (and never moves a row to another company). *)
Lemma updateUser_scoped userId d requestingUser s s' u' :
  updateUser userId d requestingUser s = (s', Ok u') ->
  Forall2 (fun v v' =>
             v' = v
             \/ (User.companyId v = UserSession.companyId requestingUser
                 /\ User.companyId v' = User.companyId v))
          (users s) (users s')
  /\ magicLinks s' = magicLinks s
  /\ authSessions s' = authSessions s
  /\ companies s' = companies s.
Proof.
  unfold updateUser, updateUser_body. exec.
  set (w := scoped (with_id emptyWhere userId) requestingUser).
  destruct (find (matches w) (users s)) as [ex|] eqn:Hex.
  2:{ cbn. intros H; discriminate. }
  match goal with
  | |- context [if ?b then _ else _] => destruct b
  end; [cbn; intros H; discriminate|].
  match goal with
  | |- context [if ?b then _ else _] => destruct b
  end; [cbn; intros H; discriminate|].
  rewrite Hex.
  match goal with
  | |- context [if ?b then _ else _] => destruct b
  end; [cbn; intros H; discriminate|].
  intros H; inversion H; subst; clear H.
  cbn [users magicLinks authSessions companies set_users].
  repeat split.
  clear Hex. induction (users s) as [|v l IH]; simpl; [constructor|].
  constructor; [|exact IH].
  destruct (matches w v) eqn:Hm; [right|now left].
  split; [|reflexivity].
  exact (matches_companyId _ _ _ (scoped_companyId _ _) Hm).
Qed.

(** A successful [deleteUser] removes only rows of the requester's company. *)
Lemma deleteUser_scoped userId requestingUser s s' :
  deleteUser userId requestingUser s = (s', Ok tt) ->
  forall v, In v (users s) -> ~ In v (users s') ->
            User.companyId v = UserSession.companyId requestingUser.
Proof.
  unfold deleteUser, deleteUser_body.
  destruct (UserSession.role requestingUser) eqn:Hr; exec;
    try (cbn; intros H; discriminate).
  - set (w := with_companyId (with_id emptyWhere userId)
                (UserSession.companyId requestingUser)).
    destruct (find (matches w) (users s)) eqn:Hex;
      [|cbn; intros H; discriminate].
    rewrite Hex. intros H; inversion H; subst; clear H.
    cbn [users]. intros v Hv Hgone.
    destruct (matches w v) eqn:Hm.
    + exact (matches_companyId w _ v eq_refl Hm).
    + exfalso. apply Hgone. apply filter_In. now rewrite Hm.
  - set (w := with_teamId
                (with_companyId (with_id emptyWhere userId)
                   (UserSession.companyId requestingUser))
                (UserSession.teamId requestingUser)).
    destruct (find (matches w) (users s)) eqn:Hex;
      [|cbn; intros H; discriminate].
    rewrite Hex. intros H; inversion H; subst; clear H.
    cbn [users]. intros v Hv Hgone.
    destruct (matches w v) eqn:Hm.
    + exact (matches_companyId w _ v eq_refl Hm).
    + exfalso. apply Hgone. apply filter_In. now rewrite Hm.
Qed.

Lemma listWhere_companyId_default q r :
  truthy (ListUsersQuery.companyId q) = false ->
  w_companyId (listWhere q (Some r)) = Some (UserSession.companyId r).
Proof.
  intros Hq. unfold listWhere. rewrite Hq.
  destruct (UserSession.role r), (ListUsersQuery.role q),
    (truthy (ListUsersQuery.search q)), (ListUsersQuery.search q);
    reflexivity.
Qed.

(** The [companyId] of the query, when given, replaces the requester's. *)
Lemma listWhere_companyId_query q r c :
  ListUsersQuery.companyId q = Some c -> c <> "" ->
  w_companyId (listWhere q r) = Some c.
Proof.
  intros Hq Hc. unfold listWhere. rewrite Hq. cbn [truthy].
  apply String.eqb_neq in Hc. rewrite Hc. cbn [negb].
  destruct r as [r|]; [destruct (UserSession.role r)|];
    destruct (ListUsersQuery.role q),
      (truthy (ListUsersQuery.search q)), (ListUsersQuery.search q);
    reflexivity.
Qed.

(** [listUsers] called without a [companyId] in the query returns rows of
    the requester's company only. *)
Lemma listUsers_scoped_without_companyId q requestingUser s s' resp :
  truthy (ListUsersQuery.companyId q) = false ->
  listUsers q (Some requestingUser) s = (s', Ok resp) ->
  forall u, In u (data resp) ->
            User.companyId u = UserSession.companyId requestingUser.
Proof.
  intros Hq. unfold listUsers, listUsers_body.
  unfold tryCatchAll, bind.
  destruct (user_findMany _ _ _ s) as [s1 [e|rows]] eqn:Hfm;
    [intros H; discriminate|].
  apply user_findMany_matches in Hfm. destruct Hfm as [-> Hrows].
  unfold user_count, gets, ret. intros H; inversion H; subst; clear H.
  cbn [data]. intros u Hu. destruct (Hrows u Hu) as [_ Hm].
  exact (matches_companyId _ _ _ (listWhere_companyId_default _ _ Hq) Hm).
Qed.

(** With a (non-empty) [companyId] in the query, [listUsers] returns rows of
    that company, whatever the company of the requester. *)
Lemma listUsers_follows_query_companyId q requestingUser c s s' resp :
  ListUsersQuery.companyId q = Some c -> c <> "" ->
  listUsers q requestingUser s = (s', Ok resp) ->
  forall u, In u (data resp) -> User.companyId u = c.
Proof.
  intros Hq Hc. unfold listUsers, listUsers_body.
  unfold tryCatchAll, bind.
  destruct (user_findMany _ _ _ s) as [s1 [e|rows]] eqn:Hfm;
    [intros H; discriminate|].
  apply user_findMany_matches in Hfm. destruct Hfm as [-> Hrows].
  unfold user_count, gets, ret. intros H; inversion H; subst; clear H.
  cbn [data]. intros u Hu. destruct (Hrows u Hu) as [_ Hm].
  exact (matches_companyId _ _ _ (listWhere_companyId_query _ _ _ Hq Hc) Hm).
Qed.

(** C1 (where the code departs from it).  [listUsers] takes the company
    filter from the query when the query has one: an [ADMIN_RH] of company
    [c-acme] who asks for [companyId = c-globex] is served the users of
    [c-globex], rows whose company is not the requester's. *)
Theorem listUsers_crosses_companies :
  listUsers (ListUsersQuery.mk 1 10 None (Some "c-globex") None)
            (Some bob_ctx) sample_store
  = (sample_store,
     Ok (mkPaginated [carol] (mkPagination 1 10 1 (Some 1%Z))))
  /\ UserSession.companyId bob_ctx = "c-acme"
  /\ User.companyId carol = "c-globex"
  /\ User.companyId carol <> UserSession.companyId bob_ctx.
Proof.
  repeat split; try (vm_compute; reflexivity). discriminate.
Qed.

(* ===================================================================== *)
(** ** User records: role and team *)
(* ===================================================================== *)

Lemma createUser_company_missing env d s :
  find (fun c => Company.id c =? CreateUserInput.companyId d) (companies s)
  = None ->
  createUser env d s = (s, Err (mkApiError "COMPANY_NOT_FOUND" 404)).
Proof.
  intros H. unfold createUser, createUser_body. exec. now rewrite H.
Qed.

Lemma createUser_manager_without_team env d s c :
  find (fun c => Company.id c =? CreateUserInput.companyId d) (companies s)
  = Some c ->
  CreateUserInput.role d = MANAGER ->
  truthy (CreateUserInput.teamId d) = false ->
  createUser env d s = (s, Err (mkApiError "TEAM_ID_REQUIRED" 400)).
Proof.
  intros H Hr Ht. unfold createUser, createUser_body. exec.
  now rewrite H, Hr, Ht.
Qed.

Lemma createUser_admin_with_team env d s c :
  find (fun c => Company.id c =? CreateUserInput.companyId d) (companies s)
  = Some c ->
  CreateUserInput.role d = ADMIN_RH ->
  truthy (CreateUserInput.teamId d) = true ->
  createUser env d s = (s, Err (mkApiError "TEAM_ID_NOT_ALLOWED" 400)).
Proof.
  intros H Hr Ht. unfold createUser, createUser_body. exec.
  now rewrite H, Hr, Ht.
Qed.

Lemma updateUser_manager_without_team userId d requestingUser s existing :
  find (matches (scoped (with_id emptyWhere userId) requestingUser)) (users s)
  = Some existing ->
  newRole_of d existing = MANAGER ->
  truthy (newTeamId_of d existing) = false ->
  updateUser userId d requestingUser s
  = (s, Err (mkApiError "TEAM_ID_REQUIRED" 400)).
Proof.
  intros H Hr Ht. unfold updateUser, updateUser_body. exec.
  now rewrite H, Hr, Ht.
Qed.

Lemma updateUser_admin_with_team userId d requestingUser s existing :
  find (matches (scoped (with_id emptyWhere userId) requestingUser)) (users s)
  = Some existing ->
  newRole_of d existing = ADMIN_RH ->
  truthy (newTeamId_of d existing) = true ->
  updateUser userId d requestingUser s
  = (s, Err (mkApiError "TEAM_ID_NOT_ALLOWED" 400)).
Proof.
  intros H Hr Ht. unfold updateUser, updateUser_body. exec.
  now rewrite H, Hr, Ht.
Qed.

Lemma updateUser_not_visible userId d requestingUser s :
  find (matches (scoped (with_id emptyWhere userId) requestingUser)) (users s)
  = None ->
  updateUser userId d requestingUser s
  = (s, Err (mkApiError "USER_NOT_FOUND" 404)).
Proof.
  intros H. unfold updateUser, updateUser_body. exec. now rewrite H.
Qed.

(** C7.  The role and team rule is checked before anything is written.
    - [createUser] for an existing company, with role [MANAGER] and no team
      id, fails with [TEAM_ID_REQUIRED] (400); with role [ADMIN_RH] and a
      team id, it fails with [TEAM_ID_NOT_ALLOWED] (400).
    - [updateUser] of a row the requester may reach, whose resulting role is
      [ADMIN_RH] with a team id, fails with [TEAM_ID_NOT_ALLOWED] (400);
      whose resulting role is [MANAGER] without team id, with
      [TEAM_ID_REQUIRED] (400).
    - In each case, and also when the company or the row is not found, the
      store comes back exactly as it was.
    A team id is a non-empty string here; the two codes are the service's
    invalid-role-assignment errors. *)
Theorem role_assignment_rejected_before_write :
  (forall env d s c,
      find (fun c => Company.id c =? CreateUserInput.companyId d)
           (companies s) = Some c ->
      (CreateUserInput.role d = MANAGER ->
       truthy (CreateUserInput.teamId d) = false ->
       createUser env d s = (s, Err (mkApiError "TEAM_ID_REQUIRED" 400)))
      /\ (CreateUserInput.role d = ADMIN_RH ->
          truthy (CreateUserInput.teamId d) = true ->
          createUser env d s
          = (s, Err (mkApiError "TEAM_ID_NOT_ALLOWED" 400))))
  /\ (forall userId d requestingUser s existing,
        find (matches (scoped (with_id emptyWhere userId) requestingUser))
             (users s) = Some existing ->
        (newRole_of d existing = ADMIN_RH ->
         truthy (newTeamId_of d existing) = true ->
         updateUser userId d requestingUser s
         = (s, Err (mkApiError "TEAM_ID_NOT_ALLOWED" 400)))
        /\ (newRole_of d existing = MANAGER ->
            truthy (newTeamId_of d existing) = false ->
            updateUser userId d requestingUser s
            = (s, Err (mkApiError "TEAM_ID_REQUIRED" 400))))
  /\ (forall env d s,
        (CreateUserInput.role d = MANAGER
         /\ truthy (CreateUserInput.teamId d) = false)
        \/ (CreateUserInput.role d = ADMIN_RH
            /\ truthy (CreateUserInput.teamId d) = true) ->
        exists e, createUser env d s = (s, Err e))
  /\ (forall userId d requestingUser s,
        (forall existing,
            find (matches (scoped (with_id emptyWhere userId) requestingUser))
                 (users s) = Some existing ->
            (newRole_of d existing = MANAGER
             /\ truthy (newTeamId_of d existing) = false)
            \/ (newRole_of d existing = ADMIN_RH
                /\ truthy (newTeamId_of d existing) = true)) ->
        exists e, updateUser userId d requestingUser s = (s, Err e)).
Proof.
  split; [|split; [|split]].
  - intros env d s c Hc. split; intros Hr Ht.
    + exact (createUser_manager_without_team env d s c Hc Hr Ht).
    + exact (createUser_admin_with_team env d s c Hc Hr Ht).
  - intros userId d r s ex Hex. split; intros Hr Ht.
    + exact (updateUser_admin_with_team userId d r s ex Hex Hr Ht).
    + exact (updateUser_manager_without_team userId d r s ex Hex Hr Ht).
  - intros env d s Hbad.
    destruct (find (fun c => Company.id c =? CreateUserInput.companyId d)
                   (companies s)) as [c|] eqn:Hc.
    + destruct Hbad as [[Hr Ht]|[Hr Ht]]; eexists.
      * exact (createUser_manager_without_team env d s c Hc Hr Ht).
      * exact (createUser_admin_with_team env d s c Hc Hr Ht).
    + eexists. exact (createUser_company_missing env d s Hc).
  - intros userId d r s Hbad.
    destruct (find (matches (scoped (with_id emptyWhere userId) r))
                   (users s)) as [ex|] eqn:Hex.
    + destruct (Hbad ex eq_refl) as [[Hr Ht]|[Hr Ht]]; eexists.
      * exact (updateUser_manager_without_team userId d r s ex Hex Hr Ht).
      * exact (updateUser_admin_with_team userId d r s ex Hex Hr Ht).
    + eexists. exact (updateUser_not_visible userId d r s Hex).
Qed.

(* ===================================================================== *)
(** ** The properties on the sample data *)
(* ===================================================================== *)

(** An instance of [redeem_succeeds_once]: alice redeems [t0] at time 3000. *)
Lemma redeem_succeeds_once_witness :
  find (fun l => MagicLink.tokenHash l =? sample_sha256 "t0")
       (magicLinks linked_store) = Some alice_pending
  /\ (clock env_redeem 0 <= MagicLink.expiresAt alice_pending)%Z
  /\ MagicLink.usedAt alice_pending = None
  /\ included_user (MagicLink.userId alice_pending) linked_store = Some alice
  /\ session_slot_free sample_sha256 env_redeem linked_store
  /\ exists s1 r,
       validateMagicLinkAndCreateSession sample_sha256 sample_jwt env_redeem
         "t0" linked_store = (s1, Ok r)
       /\ forall env',
            (clock env' 0 <= MagicLink.expiresAt alice_pending)%Z ->
            validateMagicLinkAndCreateSession sample_sha256 sample_jwt env'
              "t0" s1 = (s1, Err TOKEN_ALREADY_USED).
Proof.
  assert (H1 : find (fun l => MagicLink.tokenHash l =? sample_sha256 "t0")
                    (magicLinks linked_store) = Some alice_pending)
    by reflexivity.
  assert (H2 : (clock env_redeem 0 <= MagicLink.expiresAt alice_pending)%Z)
    by (cbn; lia).
  assert (H3 : MagicLink.usedAt alice_pending = None) by reflexivity.
  assert (H4 : included_user (MagicLink.userId alice_pending) linked_store
               = Some alice) by reflexivity.
  assert (H5 : session_slot_free sample_sha256 env_redeem linked_store).
  { intros x [<-|[]]. split; discriminate. }
  repeat (split; [assumption|]).
  exact (redeem_succeeds_once sample_sha256 sample_jwt env_redeem "t0"
           linked_store alice_pending alice H1 H2 H3 H4 H5).
Defined.

(** C3, refuted as stated.  Alice redeems [t0] while she is a
    [COLLABORATEUR] without team; bob then makes her [MANAGER] of [team-9];
    validating her refresh secret afterwards yields the new role and the new
    team, not those she had when the session was created. *)
Lemma validateSession_after_role_change :
  validateMagicLinkAndCreateSession sample_sha256 sample_jwt env_redeem "t0"
    linked_store = (redeemed, Ok session_r1)
  /\ included_user (sum_id (user session_r1)) redeemed = Some alice
  /\ updateUser "u-alice" promote bob_ctx redeemed
     = (promoted, Ok alice_promoted)
  /\ validateSession sample_sha256 (env_at 3500 "" "")
       (refreshToken session_r1) promoted
     = (promoted, Ok (context_of alice_promoted))
  /\ UserSession.role (context_of alice_promoted) <> User.role alice
  /\ UserSession.teamId (context_of alice_promoted) <> User.teamId alice.
Proof.
  repeat split; try (vm_compute; reflexivity); discriminate.
Qed.

(** An instance of [validateSession_reads_current_user], on the same
    scenario continued: after the promotion carol logs in and a sweep
    removes the older session of alice and every link; the session of alice
    created by the redemption is still stored, and validating its secret at
    time 4600 yields her row as promoted. *)
Lemma validateSession_reads_current_user_witness :
  validateMagicLinkAndCreateSession sample_sha256 sample_jwt env_redeem "t0"
    linked_store = (redeemed, Ok session_r1)
  /\ fst (cleanupExpiredTokens (env_at 4500 "" "")
            (fst (validateMagicLinkAndCreateSession sample_sha256 sample_jwt
                    env_carol "tc" promoted)))
     = later_store
  /\ session_stored (session_row sample_sha256 env_redeem alice) later_store
  /\ included_user (sum_id (user session_r1)) later_store
     = Some alice_promoted
  /\ (clock (env_at 4600 "" "") 0 <= refreshExpiresAt session_r1)%Z
  /\ validateSession sample_sha256 (env_at 4600 "" "")
       (refreshToken session_r1) later_store
     = (later_store, Ok (context_of alice_promoted)).
Proof.
  assert (H1 : validateMagicLinkAndCreateSession sample_sha256 sample_jwt
                 env_redeem "t0" linked_store = (redeemed, Ok session_r1))
    by (vm_compute; reflexivity).
  assert (H2 : fst (cleanupExpiredTokens (env_at 4500 "" "")
                      (fst (validateMagicLinkAndCreateSession sample_sha256
                              sample_jwt env_carol "tc" promoted)))
               = later_store)
    by (vm_compute; reflexivity).
  assert (H3 : session_stored (session_row sample_sha256 env_redeem alice)
                              later_store).
  { split.
    - left. reflexivity.
    - intros y [<-|[<-|[]]] Hd; [reflexivity|discriminate Hd]. }
  assert (H4 : included_user (sum_id (user session_r1)) later_store
               = Some alice_promoted) by reflexivity.
  assert (H5 : (clock (env_at 4600 "" "") 0 <= refreshExpiresAt session_r1)%Z)
    by (vm_compute; discriminate).
  repeat (split; [assumption|]).
  destruct (validateSession_reads_current_user sample_sha256 sample_jwt
              env_redeem "t0" linked_store redeemed session_r1 H1)
    as (x & Hx & _ & _ & _ & _ & Hlater).
  assert (E : x = session_row sample_sha256 env_redeem alice).
  { change (authSessions redeemed)
      with ([alice_session] ++ [session_row sample_sha256 env_redeem alice])%list
      in Hx.
    apply app_inj_tail in Hx. symmetry. exact (proj2 Hx). }
  rewrite E in Hlater.
  exact (Hlater (env_at 4600 "" "") later_store alice_promoted H3 H4 H5).
Defined.



(** An instance of [second_request_invalidates_first]: alice asks for a link
    twice, and receives [t1] then [t2]. *)
Lemma second_request_invalidates_first_witness :
  generateMagicLink sample_sha256 (env_at 1000 "t1" "ml-1") "alice@acme.com"
    sample_store
  = (set_magicLinks sample_store
       [issued_row sample_sha256 (env_at 1000 "t1" "ml-1") alice],
     Ok (mkIssued "ml-1" "t1" (1000 + DAY_MS)%Z))
  /\ generateMagicLink sample_sha256 (env_at 2000 "t2" "ml-2")
       "alice@acme.com"
       (set_magicLinks sample_store
          [issued_row sample_sha256 (env_at 1000 "t1" "ml-1") alice])
     = (set_magicLinks sample_store
          [issued_row sample_sha256 (env_at 2000 "t2" "ml-2") alice],
        Ok (mkIssued "ml-2" "t2" (2000 + DAY_MS)%Z))
  /\ sample_sha256 "t2" <> sample_sha256 "t1"
  /\ forall env3,
       validateMagicLinkAndCreateSession sample_sha256 sample_jwt env3 "t1"
         (set_magicLinks sample_store
            [issued_row sample_sha256 (env_at 2000 "t2" "ml-2") alice])
       = (set_magicLinks sample_store
            [issued_row sample_sha256 (env_at 2000 "t2" "ml-2") alice],
          Err INVALID_TOKEN).
Proof.
  assert (H1 : generateMagicLink sample_sha256 (env_at 1000 "t1" "ml-1")
                 "alice@acme.com" sample_store
               = (set_magicLinks sample_store
                    [issued_row sample_sha256 (env_at 1000 "t1" "ml-1") alice],
                  Ok (mkIssued "ml-1" "t1" (1000 + DAY_MS)%Z)))
    by (vm_compute; reflexivity).
  assert (H2 : generateMagicLink sample_sha256 (env_at 2000 "t2" "ml-2")
                 "alice@acme.com"
                 (set_magicLinks sample_store
                    [issued_row sample_sha256 (env_at 1000 "t1" "ml-1") alice])
               = (set_magicLinks sample_store
                    [issued_row sample_sha256 (env_at 2000 "t2" "ml-2") alice],
                  Ok (mkIssued "ml-2" "t2" (2000 + DAY_MS)%Z)))
    by (vm_compute; reflexivity).
  assert (H3 : sample_sha256 "t2" <> sample_sha256 "t1") by discriminate.
  repeat (split; [assumption|]).
  exact (proj1 (second_request_invalidates_first sample_sha256 sample_jwt
                  (env_at 1000 "t1" "ml-1") (env_at 2000 "t2" "ml-2")
                  "alice@acme.com" sample_store _ _ _ _ H1 H2 H3)).
Defined.

(** C6, refuted as stated.  At time 6000 the link of alice (expiry 5000) is
    refused as expired, and the store that comes back still holds it. *)
Lemma expired_magic_link_is_kept :
  (MagicLink.expiresAt alice_pending < clock (env_at 6000 "r1" "sess-1") 0)%Z
  /\ snd (validateMagicLinkAndCreateSession sample_sha256 sample_jwt
            (env_at 6000 "r1" "sess-1") "t0" linked_store)
     = Err EXPIRED_TOKEN
  /\ In alice_pending
        (magicLinks
           (fst (validateMagicLinkAndCreateSession sample_sha256 sample_jwt
                   (env_at 6000 "r1" "sess-1") "t0" linked_store))).
Proof.
  split; [cbn; lia|]. split; [vm_compute; reflexivity|].
  vm_compute. left. reflexivity.
Qed.

(** An instance of [expiry_side_effects], at time 6000: the session of alice
    (expiry 4000) is deleted by the failing call, her link (expiry 5000) is
    not. *)
Lemma expiry_side_effects_witness :
  find (fun x => AuthSession.tokenHash x =? sample_sha256 "r0")
       (authSessions linked_store) = Some alice_session
  /\ (AuthSession.expiresAt alice_session < clock (env_at 6000 "" "") 0)%Z
  /\ find (fun m => MagicLink.tokenHash m =? sample_sha256 "t0")
          (magicLinks linked_store) = Some alice_pending
  /\ (MagicLink.expiresAt alice_pending < clock (env_at 6000 "" "") 0)%Z
  /\ validateSession sample_sha256 (env_at 6000 "" "") "r0" linked_store
     = (without_session alice_session linked_store, Err EXPIRED_SESSION)
  /\ authSessions (without_session alice_session linked_store) = []
  /\ validateMagicLinkAndCreateSession sample_sha256 sample_jwt
       (env_at 6000 "" "") "t0" linked_store
     = (linked_store, Err EXPIRED_TOKEN).
Proof.
  assert (H1 : find (fun x => AuthSession.tokenHash x =? sample_sha256 "r0")
                    (authSessions linked_store) = Some alice_session)
    by reflexivity.
  assert (H2 : (AuthSession.expiresAt alice_session
                < clock (env_at 6000 "" "") 0)%Z) by (cbn; lia).
  assert (H3 : find (fun m => MagicLink.tokenHash m =? sample_sha256 "t0")
                    (magicLinks linked_store) = Some alice_pending)
    by reflexivity.
  assert (H4 : (MagicLink.expiresAt alice_pending
                < clock (env_at 6000 "" "") 0)%Z) by (cbn; lia).
  repeat (split; [assumption|]).
  destruct (expiry_side_effects sample_sha256 sample_jwt (env_at 6000 "" "")
              linked_store) as [Hsession Hlink].
  split; [exact (proj1 (Hsession "r0" alice_session H1 H2))|].
  split; [reflexivity|].
  exact (proj1 (Hlink "t0" alice_pending H3 H4)).
Defined.

(** An instance of [role_assignment_rejected_before_write] in company
    [c-acme]: a manager without team, an administrator with a team, and bob,
    administrator, given a team. *)
Lemma role_assignment_rejected_before_write_witness :
  createUser (env_at 20 "" "u-new")
    (CreateUserInput.mk "m@acme.com" MANAGER "c-acme" None) sample_store
  = (sample_store, Err (mkApiError "TEAM_ID_REQUIRED" 400))
  /\ createUser (env_at 20 "" "u-new")
       (CreateUserInput.mk "a@acme.com" ADMIN_RH "c-acme" (Some "team-1"))
       sample_store
     = (sample_store, Err (mkApiError "TEAM_ID_NOT_ALLOWED" 400))
  /\ updateUser "u-bob" (UpdateUserInput.mk None None (Value "team-1"))
       bob_ctx sample_store
     = (sample_store, Err (mkApiError "TEAM_ID_NOT_ALLOWED" 400)).
Proof.
  destruct role_assignment_rejected_before_write as (Hcreate & Hupdate & _).
  split; [|split].
  - apply (proj1 (Hcreate (env_at 20 "" "u-new")
                    (CreateUserInput.mk "m@acme.com" MANAGER "c-acme" None)
                    sample_store acme eq_refl)); reflexivity.
  - apply (proj2 (Hcreate (env_at 20 "" "u-new")
                    (CreateUserInput.mk "a@acme.com" ADMIN_RH "c-acme"
                       (Some "team-1"))
                    sample_store acme eq_refl)); reflexivity.
  - apply (proj1 (Hupdate "u-bob"
                    (UpdateUserInput.mk None None (Value "team-1"))
                    bob_ctx sample_store bob eq_refl)); reflexivity.
Defined.

(** An instance of [revokeSession_then_invalid]: revoking [r0], which has a
    session, and [zz], which has none. *)
Lemma revokeSession_then_invalid_witness :
  revokeSession sample_sha256 "r0" linked_store
  = (without_digest (sample_sha256 "r0") linked_store, Ok tt)
  /\ authSessions (without_digest (sample_sha256 "r0") linked_store) = []
  /\ validateSession sample_sha256 (env_at 3000 "" "") "r0"
       (without_digest (sample_sha256 "r0") linked_store)
     = (without_digest (sample_sha256 "r0") linked_store, Err INVALID_SESSION)
  /\ revokeSession sample_sha256 "zz" linked_store = (linked_store, Ok tt).
Proof.
  destruct (revokeSession_then_invalid sample_sha256 "r0" linked_store)
    as (Hrevoke & _ & _ & Hvalidate).
  destruct (revokeSession_then_invalid sample_sha256 "zz" linked_store)
    as (Hrevoke' & Habsent & _).
  split; [exact Hrevoke|]. split; [reflexivity|].
  split; [exact (Hvalidate (env_at 3000 "" ""))|].
  rewrite Hrevoke'. rewrite Habsent; [reflexivity|].
  intros x [<-|[]]. discriminate.
Defined.

(** An instance of [generateMagicLink_frame]: alice asks for a link while
    she has a pending one and a redeemed one, and carol a pending one. *)
Lemma generateMagicLink_frame_witness :
  generateMagicLink sample_sha256 (env_at 1000 "t1" "ml-1") "alice@acme.com"
    linked_store
  = (set_magicLinks linked_store
       [alice_redeemed; carol_pending;
        issued_row sample_sha256 (env_at 1000 "t1" "ml-1") alice],
     Ok (mkIssued "ml-1" "t1" (1000 + DAY_MS)%Z))
  /\ exists u,
       find (fun v => User.email v =? "alice@acme.com") (users linked_store)
       = Some u
       /\ magicLinks
            (set_magicLinks linked_store
               [alice_redeemed; carol_pending;
                issued_row sample_sha256 (env_at 1000 "t1" "ml-1") alice])
          = (filter (fun l => negb (pending_of (User.id u) l))
                    (magicLinks linked_store)
             ++ [issued_row sample_sha256 (env_at 1000 "t1" "ml-1") u])%list.
Proof.
  assert (H : generateMagicLink sample_sha256 (env_at 1000 "t1" "ml-1")
                "alice@acme.com" linked_store
              = (set_magicLinks linked_store
                   [alice_redeemed; carol_pending;
                    issued_row sample_sha256 (env_at 1000 "t1" "ml-1") alice],
                 Ok (mkIssued "ml-1" "t1" (1000 + DAY_MS)%Z)))
    by (vm_compute; reflexivity).
  split; [exact H|].
  destruct (generateMagicLink_frame sample_sha256 _ _ _ _ _ H)
    as (u & Hu & Hlinks & _).
  exists u. split; assumption.
Defined.

(** An instance of [generateMagicLink_unknown_email]. *)
Lemma generateMagicLink_unknown_email_witness :
  (forall u, In u (users linked_store) -> User.email u <> "nobody@acme.com")
  /\ generateMagicLink sample_sha256 (env_at 1000 "t1" "ml-1")
       "nobody@acme.com" linked_store
     = (linked_store, Err USER_NOT_FOUND).
Proof.
  assert (H : forall u, In u (users linked_store) ->
                        User.email u <> "nobody@acme.com").
  { intros u [<-|[<-|[<-|[]]]]; discriminate. }
  split; [exact H|].
  exact (generateMagicLink_unknown_email sample_sha256
           (env_at 1000 "t1" "ml-1") "nobody@acme.com" linked_store H).
Defined.

(* ===================================================================== *)
(** ** Further facts on lists *)
(* ===================================================================== *)

Lemma filter_length_split {A} (p : A -> bool) (l : list A) :
  (List.length (filter p l) + List.length (filter (fun x => negb (p x)) l)
   = List.length l)%nat.
Proof.
  induction l as [|a l IH]; simpl; [reflexivity|].
  destruct (p a); simpl; lia.
Qed.

Lemma filter_length_filter {A} (p q : A -> bool) (l : list A) :
  (List.length (filter p (filter q l)) <= List.length (filter p l))%nat.
Proof.
  induction l as [|a l IH]; simpl; [lia|].
  destruct (q a), (p a) eqn:E; simpl; rewrite ?E; simpl; lia.
Qed.

Lemma filter_length_map {A} (p : A -> bool) (f : A -> A) (l : list A) :
  (forall x, p (f x) = true -> p x = true) ->
  (List.length (filter p (map f l)) <= List.length (filter p l))%nat.
Proof.
  intros H. induction l as [|a l IH]; simpl; [lia|].
  destruct (p (f a)) eqn:E.
  - rewrite (H a E). simpl. lia.
  - destruct (p a); simpl; lia.
Qed.

Lemma find_filter_some {A} (p q : A -> bool) (l : list A) (x : A) :
  find p l = Some x -> q x = true -> find p (filter q l) = Some x.
Proof.
  induction l as [|a l IH]; simpl; [discriminate|].
  destruct (p a) eqn:E.
  - intros [= ->] Hq. rewrite Hq. simpl. now rewrite E.
  - intros H Hq. destruct (q a); simpl; [rewrite E|]; auto.
Qed.

Lemma find_filter_none {A} (p q : A -> bool) (l : list A) :
  find p l = None -> find p (filter q l) = None.
Proof.
  intros H. apply find_none_iff. intros x Hx. apply filter_In in Hx.
  exact (find_none _ _ H x (proj1 Hx)).
Qed.

Lemma NoDup_map_eq {A B} (f : A -> B) (l : list A) (x y : A) :
  NoDup (map f l) -> In x l -> In y l -> f x = f y -> x = y.
Proof.
  induction l as [|a l IH]; simpl; [contradiction|].
  intros Hnd Hx Hy E. inversion Hnd as [|? ? Hna Hnd']; subst.
  destruct Hx as [<-|Hx], Hy as [<-|Hy]; try reflexivity.
  - exfalso. apply Hna. rewrite E. now apply in_map.
  - exfalso. apply Hna. rewrite <- E. now apply in_map.
  - now apply IH.
Qed.

(* ===================================================================== *)
(** ** Authentication service: life cycle of the credentials *)
(* ===================================================================== *)

Section CredentialLifeCycle.

Context (sha256 : string -> string) (jwt_sign : JwtPayload -> string).

Lemma link_slot_free_existsb env u s :
  link_slot_free sha256 env u s ->
  existsb (fun l => (MagicLink.id l =? cuid env)
                    || (MagicLink.tokenHash l =? sha256 (randomHex env)))
          (filter (fun l => negb (pending_of (User.id u) l)) (magicLinks s))
  = false.
Proof.
  intros H. apply existsb_false_iff. intros l Hl.
  apply filter_In in Hl. destruct Hl as [Hl Hp].
  apply negb_true_iff in Hp. destruct (H l Hl Hp) as [Hi Hh].
  apply String.eqb_neq in Hi, Hh. now rewrite Hi, Hh.
Qed.

(** A request for the e-mail of user [u] whose id and digest are free. *)
Lemma generateMagicLink_ok env email s u :
  find (fun v => User.email v =? email) (users s) = Some u ->
  link_slot_free sha256 env u s ->
  generateMagicLink sha256 env email s
  = (set_magicLinks s
       (filter (fun l => negb (pending_of (User.id u) l)) (magicLinks s)
        ++ [issued_row sha256 env u]),
     Ok (mkIssued (cuid env) (randomHex env) (clock env 0 + DAY_MS)%Z)).
Proof.
  intros Hu Hfree. apply link_slot_free_existsb in Hfree.
  unfold generateMagicLink, generateMagicLink_body. exec.
  rewrite (find_ext_eq _ _ (users s) (matches_email email)), Hu.
  cbn [magicLinks set_magicLinks users companies authSessions
       MagicLink.id MagicLink.tokenHash].
  unfold pending_of in Hfree. rewrite Hfree. reflexivity.
Qed.

(** X1.  Every outcome of [generateMagicLink] other than success: either
    the e-mail is unknown, and the store is untouched ([USER_NOT_FOUND],
    404), or the insert was refused (the id or the digest drawn is already
    taken by a link that is kept) and the call fails with
    [MAGIC_LINK_GENERATION_FAILED] (500) after the user's unredeemed links
    have been deleted: the deletion is not undone. *)
Theorem generateMagicLink_failure_effects env email s s' e :
  generateMagicLink sha256 env email s = (s', Err e) ->
  (e = USER_NOT_FOUND /\ s' = s
   /\ find (fun v => User.email v =? email) (users s) = None)
  \/ (e = mkApiError "MAGIC_LINK_GENERATION_FAILED" 500
      /\ exists u,
           find (fun v => User.email v =? email) (users s) = Some u
           /\ s' = set_magicLinks s
                     (filter (fun l => negb (pending_of (User.id u) l))
                             (magicLinks s))
           /\ filter (pending_of (User.id u)) (magicLinks s') = []).
Proof.
  unfold generateMagicLink, generateMagicLink_body. exec.
  rewrite (find_ext_eq _ _ (users s) (matches_email email)).
  destruct (find (fun v => User.email v =? email) (users s)) as [u|] eqn:Hu.
  - cbn [magicLinks set_magicLinks users companies authSessions
         MagicLink.id MagicLink.tokenHash].
    destruct (existsb _ _); [|discriminate].
    intros H; inversion H; subst; clear H. right. split; [reflexivity|].
    exists u. split; [reflexivity|]. split; [reflexivity|].
    cbn [magicLinks set_magicLinks]. apply filter_filter_neg.
  - intros H; inversion H; subst; clear H. left. auto.
Qed.

(** X2.  A redemption that fails never creates a session and never touches
    the users.  When it fails with a 401 ([INVALID_TOKEN], [EXPIRED_TOKEN],
    [TOKEN_ALREADY_USED]) the store is unchanged.  Any other failure is
    [MAGIC_LINK_VALIDATION_FAILED] (500), raised after the link was marked
    as used: the link is consumed although no session exists. *)
Theorem redeem_failure_effects env token s s1 e :
  validateMagicLinkAndCreateSession sha256 jwt_sign env token s
  = (s1, Err e) ->
  authSessions s1 = authSessions s
  /\ users s1 = users s
  /\ ((s1 = s
       /\ (e = INVALID_TOKEN \/ e = EXPIRED_TOKEN \/ e = TOKEN_ALREADY_USED))
      \/ (e = mkApiError "MAGIC_LINK_VALIDATION_FAILED" 500
          /\ exists l,
               find (fun m => MagicLink.tokenHash m =? sha256 token)
                    (magicLinks s) = Some l
               /\ MagicLink.usedAt l = None
               /\ magicLinks s1 = consumed (clock env 1) l (magicLinks s))).
Proof.
  unfold validateMagicLinkAndCreateSession,
    validateMagicLinkAndCreateSession_body. exec.
  destruct (find _ (magicLinks s)) as [l|] eqn:Hl.
  2:{ intros H; inversion H; subst.
      split; [reflexivity|]. split; [reflexivity|]. left. auto. }
  destruct (MagicLink.expiresAt l <? clock env 0)%Z.
  { intros H; inversion H; subst.
    split; [reflexivity|]. split; [reflexivity|]. left. auto. }
  destruct (MagicLink.usedAt l) eqn:Hused; cbn [isNone negb].
  { intros H; inversion H; subst.
    split; [reflexivity|]. split; [reflexivity|]. left. auto. }
  assert (Hin : existsb (fun m => MagicLink.id m =? MagicLink.id l)
                        (magicLinks s) = true).
  { apply existsb_exists. exists l. split.
    - now apply find_some in Hl.
    - apply String.eqb_refl. }
  rewrite Hin.
  destruct (included_user (MagicLink.userId l) s) as [u|].
  - cbn [authSessions set_magicLinks set_authSessions magicLinks users
         companies AuthSession.id AuthSession.tokenHash].
    destruct (existsb _ (authSessions s)); [|discriminate].
    intros H; inversion H; subst; clear H.
    cbn [authSessions users magicLinks]. split; [reflexivity|].
    split; [reflexivity|]. right. split; [reflexivity|].
    exists l. auto.
  - intros H; inversion H; subst; clear H.
    cbn [authSessions users magicLinks set_magicLinks].
    split; [reflexivity|]. split; [reflexivity|]. right.
    split; [reflexivity|]. exists l. auto.
Qed.

(** X3.  What a successful redemption changes.  Exactly one session row is
    appended: it has the generated id, belongs to the user returned, is
    keyed by the digest of the refresh secret returned, expires 30 days
    after the third clock reading and is dated by the fourth.  The magic
    links are the same rows in the same order, except that every row with
    the id of the link found under the digest of the secret (that link
    itself and no other row, when ids are unique) has [usedAt] set to the
    second clock reading, its other columns being kept; the link is still
    found under its digest.  Users and companies are untouched. *)
Theorem redeem_success_effects env token s s1 r :
  validateMagicLinkAndCreateSession sha256 jwt_sign env token s
  = (s1, Ok r) ->
  authSessions s1
  = (authSessions s
     ++ [AuthSession.mk (cuid env) (sum_id (user r))
           (sha256 (refreshToken r)) (refreshExpiresAt r) (clock env 3)])%list
  /\ refreshExpiresAt r = (clock env 2 + 30 * 86400000)%Z
  /\ (exists l,
        find (fun m => MagicLink.tokenHash m =? sha256 token) (magicLinks s)
        = Some l
        /\ MagicLink.usedAt l = None
        /\ Forall2
             (fun m m' =>
                (MagicLink.id m = MagicLink.id l
                 /\ m' = mark_used (clock env 1) m)
                \/ (MagicLink.id m <> MagicLink.id l /\ m' = m))
             (magicLinks s) (magicLinks s1)
        /\ (NoDup (map MagicLink.id (magicLinks s)) ->
            Forall2
              (fun m m' =>
                 (m = l /\ m' = mark_used (clock env 1) l)
                 \/ (m <> l /\ m' = m))
              (magicLinks s) (magicLinks s1))
        /\ find (fun m => MagicLink.tokenHash m =? sha256 token)
                (magicLinks s1)
           = Some (mark_used (clock env 1) l))
  /\ users s1 = users s
  /\ companies s1 = companies s.
Proof.
  intros H. apply redeem_Ok_inv in H.
  destruct H as (l & u & Hl & _ & Hused & _ & _ & -> & ->).
  split; [reflexivity|]. split; [reflexivity|]. split; [|split; reflexivity].
  exists l. split; [exact Hl|]. split; [exact Hused|].
  assert (Hrows : Forall2
            (fun m m' =>
               (MagicLink.id m = MagicLink.id l
                /\ m' = mark_used (clock env 1) m)
               \/ (MagicLink.id m <> MagicLink.id l /\ m' = m))
            (magicLinks s) (magicLinks (redeemed_store sha256 env l u s))).
  { cbn [redeemed_store magicLinks].
    induction (magicLinks s) as [|m ms IH] in |- *; simpl; [constructor|].
    constructor; [|exact IH].
    destruct (String.eqb_spec (MagicLink.id m) (MagicLink.id l)); auto. }
  split; [exact Hrows|]. split.
  - intros Hnd. apply find_some in Hl. destruct Hl as [Hin _].
    assert (Hall : forall m, In m (magicLinks s) ->
                     MagicLink.id m = MagicLink.id l -> m = l).
    { intros m Hm E.
      exact (NoDup_map_eq MagicLink.id _ m l Hnd Hm Hin E). }
    clear Hnd Hin. revert Hall Hrows.
    generalize (magicLinks (redeemed_store sha256 env l u s)).
    induction (magicLinks s) as [|m ms IH]; intros ls' Hall Hrows;
      inversion Hrows as [|? m' ? ms' Hm Hms]; subst; constructor.
    + destruct Hm as [[E ->]|[E ->]].
      * left. rewrite (Hall m (or_introl eq_refl) E). auto.
      * right. split; [|reflexivity]. intros ->. now apply E.
    + apply IH; [|exact Hms]. intros x Hx. apply Hall. now right.
  - now apply (link_of_redeemed sha256 env token s l u).
Qed.

Lemma cleanupExpiredTokens_run env s :
  cleanupExpiredTokens env s
  = (mkStore (companies s) (users s)
       (filter (fun l => negb ((MagicLink.expiresAt l <? clock env 0)%Z
                               || negb (isNone (MagicLink.usedAt l))))
               (magicLinks s))
       (filter (fun x => negb (AuthSession.expiresAt x <? clock env 0)%Z)
               (authSessions s)),
     Ok (mkCleanup
           (Z.of_nat
              (List.length
                 (filter (fun l => (MagicLink.expiresAt l <? clock env 0)%Z
                                   || negb (isNone (MagicLink.usedAt l)))
                         (magicLinks s))))
           (Z.of_nat
              (List.length
                 (filter (fun x => (AuthSession.expiresAt x <? clock env 0)%Z)
                         (authSessions s)))))).
Proof. reflexivity. Qed.

Lemma kept_link_iff (t : Z) (l : MagicLink.t) :
  negb ((MagicLink.expiresAt l <? t)%Z || negb (isNone (MagicLink.usedAt l)))
  = true
  <-> (t <= MagicLink.expiresAt l)%Z /\ MagicLink.usedAt l = None.
Proof.
  rewrite negb_true_iff, orb_false_iff, Z.ltb_ge, negb_false_iff.
  now rewrite isNone_true.
Qed.

Lemma kept_session_iff (t : Z) (x : AuthSession.t) :
  negb (AuthSession.expiresAt x <? t)%Z = true
  <-> (t <= AuthSession.expiresAt x)%Z.
Proof. now rewrite negb_true_iff, Z.ltb_ge. Qed.

(** X4.  [cleanupExpiredTokens] never fails.  It keeps exactly the magic
    links that are neither expired at the time of the sweep nor redeemed,
    and exactly the sessions that are not expired; the two counts it
    returns are the numbers of rows removed; users and companies are
    untouched; and a second sweep at the same time removes nothing. *)
Theorem cleanupExpiredTokens_post env s :
  exists s' n m,
    cleanupExpiredTokens env s = (s', Ok (mkCleanup n m))
    /\ (forall l, In l (magicLinks s') <->
                  In l (magicLinks s)
                  /\ (clock env 0 <= MagicLink.expiresAt l)%Z
                  /\ MagicLink.usedAt l = None)
    /\ (forall x, In x (authSessions s') <->
                  In x (authSessions s)
                  /\ (clock env 0 <= AuthSession.expiresAt x)%Z)
    /\ Z.of_nat (List.length (magicLinks s))
       = (n + Z.of_nat (List.length (magicLinks s')))%Z
    /\ Z.of_nat (List.length (authSessions s))
       = (m + Z.of_nat (List.length (authSessions s')))%Z
    /\ users s' = users s
    /\ companies s' = companies s
    /\ cleanupExpiredTokens env s' = (s', Ok (mkCleanup 0 0)).
Proof.
  rewrite cleanupExpiredTokens_run.
  eexists. eexists. eexists. split; [reflexivity|].
  cbn [magicLinks authSessions users companies].
  split; [|split; [|split; [|split; [|split; [|split]]]]];
    try reflexivity.
  - intros l. rewrite filter_In. now rewrite kept_link_iff.
  - intros x. rewrite filter_In. now rewrite kept_session_iff.
  - rewrite <- (filter_length_split
                  (fun l => (MagicLink.expiresAt l <? clock env 0)%Z
                            || negb (isNone (MagicLink.usedAt l)))
                  (magicLinks s)) at 1.
    lia.
  - rewrite <- (filter_length_split
                  (fun x => (AuthSession.expiresAt x <? clock env 0)%Z)
                  (authSessions s)) at 1.
    lia.
  - rewrite cleanupExpiredTokens_run.
    cbn [magicLinks authSessions users companies].
    rewrite (filter_neg_idem
               (fun l => (MagicLink.expiresAt l <? clock env 0)%Z
                         || negb (isNone (MagicLink.usedAt l)))).
    rewrite (filter_neg_idem
               (fun x => (AuthSession.expiresAt x <? clock env 0)%Z)).
    rewrite (filter_filter_neg
               (fun l => (MagicLink.expiresAt l <? clock env 0)%Z
                         || negb (isNone (MagicLink.usedAt l)))).
    rewrite (filter_filter_neg
               (fun x => (AuthSession.expiresAt x <? clock env 0)%Z)).
    reflexivity.
Qed.

Lemma validateSession_Ok_inv env token s s1 ctx :
  validateSession sha256 env token s = (s1, Ok ctx) ->
  s1 = s
  /\ exists x u,
       find (fun y => AuthSession.tokenHash y =? sha256 token)
            (authSessions s) = Some x
       /\ (clock env 0 <= AuthSession.expiresAt x)%Z
       /\ included_user (AuthSession.userId x) s = Some u
       /\ ctx = context_of u.
Proof.
  unfold validateSession, validateSession_body. exec.
  destruct (find _ (authSessions s)) as [x|] eqn:Hx; [|discriminate].
  destruct (AuthSession.expiresAt x <? clock env 0)%Z eqn:E.
  { destruct (existsb _ (authSessions s)); discriminate. }
  destruct (included_user (AuthSession.userId x) s) as [u|] eqn:Hu;
    [|discriminate].
  intros H; inversion H; subst; clear H. split; [reflexivity|].
  exists x, u. apply Z.ltb_ge in E. auto.
Qed.

(** X5.  A sweep never invalidates a credential that is still good.  If
    the sweep runs at a time not later than an attempt, then a redemption
    that would have succeeded without the sweep succeeds after it with the
    same result, and a session validation that would have succeeded without
    the sweep succeeds after it with the same context. *)
Theorem cleanup_keeps_valid_credentials env0 s s' c env token :
  cleanupExpiredTokens env0 s = (s', Ok c) ->
  (clock env0 0 <= clock env 0)%Z ->
  (forall s1 r,
      validateMagicLinkAndCreateSession sha256 jwt_sign env token s
      = (s1, Ok r) ->
      exists s1',
        validateMagicLinkAndCreateSession sha256 jwt_sign env token s'
        = (s1', Ok r))
  /\ (forall s1 ctx,
        validateSession sha256 env token s = (s1, Ok ctx) ->
        validateSession sha256 env token s' = (s', Ok ctx)).
Proof.
  rewrite cleanupExpiredTokens_run. intros H Ht.
  inversion H; subst; clear H. split.
  - intros s1 r Hr. apply redeem_Ok_inv in Hr.
    destruct Hr as (l & u & Hl & Hexp & Hused & Hu & Hfree & _ & ->).
    eexists. apply (redeem_ok sha256 jwt_sign env token _ l u).
    + cbn [magicLinks]. apply find_filter_some; [exact Hl|].
      apply kept_link_iff. split; [lia|exact Hused].
    + exact Hexp.
    + exact Hused.
    + exact Hu.
    + intros x Hx. cbn [authSessions] in Hx. apply filter_In in Hx.
      apply Hfree. tauto.
  - intros s1 ctx Hv. apply validateSession_Ok_inv in Hv.
    destruct Hv as (_ & x & u & Hx & Hexp & Hu & ->).
    apply (validateSession_ok sha256 env token _ x u).
    + cbn [authSessions]. apply find_filter_some; [exact Hx|].
      apply kept_session_iff. lia.
    + exact Hexp.
    + exact Hu.
Qed.

(** X6.  [revokeAllUserSessions] never fails; it removes exactly the
    sessions owned by the user id it is given, whatever the company of that
    user, and touches nothing else.  Afterwards a secret whose sessions all
    belonged to that user is refused with [INVALID_SESSION]. *)
Theorem revokeAllUserSessions_post userId s :
  exists s',
    revokeAllUserSessions userId s = (s', Ok tt)
    /\ (forall x, In x (authSessions s') <->
                  In x (authSessions s) /\ AuthSession.userId x <> userId)
    /\ magicLinks s' = magicLinks s
    /\ users s' = users s
    /\ companies s' = companies s
    /\ forall env token,
         (forall x, In x (authSessions s) ->
                    AuthSession.tokenHash x = sha256 token ->
                    AuthSession.userId x = userId) ->
         validateSession sha256 env token s' = (s', Err INVALID_SESSION).
Proof.
  eexists. split; [reflexivity|].
  cbn [authSessions magicLinks users companies set_authSessions].
  split; [|split; [|split; [|split]]]; try reflexivity.
  - intros x. rewrite filter_In, negb_true_iff, String.eqb_neq. tauto.
  - intros env token Hown. apply validateSession_unknown.
    cbn [authSessions]. apply find_none_iff. intros x Hx.
    apply filter_In in Hx. destruct Hx as [Hx Hother].
    apply String.eqb_neq. intros Hh.
    apply negb_true_iff, String.eqb_neq in Hother.
    apply Hother. now apply Hown.
Qed.

(** X7.  [refreshAccessToken] and [validateSession] accept exactly the same
    secrets and have the same effect on the store.  When they succeed the
    store is unchanged (the refresh secret is not rotated and stays valid),
    and both describe the same user row: the context of [validateSession]
    and the summary and signed payload of [refreshAccessToken].  They fail
    together, unknown with unknown and expired with expired. *)
Theorem refreshAccessToken_agrees_with_validateSession env token s :
  fst (refreshAccessToken sha256 jwt_sign env token s)
  = fst (validateSession sha256 env token s)
  /\ ((exists u,
          validateSession sha256 env token s = (s, Ok (context_of u))
          /\ refreshAccessToken sha256 jwt_sign env token s
             = (s, Ok (mkRefreshed
                         (mkSummary (User.id u) (User.email u) (User.role u))
                         (jwt_sign
                            (mkJwtPayload (User.id u) (User.role u)
                               (User.companyId u)
                               (orUndefined (User.teamId u)))))))
      \/ (snd (validateSession sha256 env token s) = Err INVALID_SESSION
          /\ snd (refreshAccessToken sha256 jwt_sign env token s)
             = Err INVALID_REFRESH_TOKEN)
      \/ (snd (validateSession sha256 env token s) = Err EXPIRED_SESSION
          /\ snd (refreshAccessToken sha256 jwt_sign env token s)
             = Err EXPIRED_REFRESH_TOKEN)
      \/ (snd (validateSession sha256 env token s)
          = Err (mkApiError "SESSION_VALIDATION_FAILED" 500)
          /\ snd (refreshAccessToken sha256 jwt_sign env token s)
             = Err (mkApiError "TOKEN_REFRESH_FAILED" 500))).
Proof.
  unfold refreshAccessToken, refreshAccessToken_body, validateSession,
    validateSession_body. exec.
  destruct (find _ (authSessions s)) as [x|] eqn:Hx.
  2:{ cbn. split; [reflexivity|]. right. left. split; reflexivity. }
  destruct (AuthSession.expiresAt x <? clock env 0)%Z.
  { rewrite (session_id_present sha256 token s x Hx). cbn.
    split; [reflexivity|]. right. right. left. split; reflexivity. }
  destruct (included_user (AuthSession.userId x) s) as [u|].
  - cbn. split; [reflexivity|]. left. exists u. split; reflexivity.
  - cbn. split; [reflexivity|]. right. right. right. split; reflexivity.
Qed.

(** X8.  The whole login.  For a user whose row is the one found both by
    e-mail and by id, when the ids and digests drawn are free, a link
    requested at time [t] and redeemed not later than [t] + 24 h yields a
    session for that very user, and validating the refresh secret within the
    next 30 days returns the context of that user. *)
Theorem login_round_trip env1 env2 env3 email s u :
  find (fun v => User.email v =? email) (users s) = Some u ->
  included_user (User.id u) s = Some u ->
  link_slot_free sha256 env1 u s ->
  session_slot_free sha256 env2 s ->
  (clock env2 0 <= clock env1 0 + 86400000)%Z ->
  (clock env3 0 <= clock env2 2 + 30 * 86400000)%Z ->
  exists s1 r1 s2 r2,
    generateMagicLink sha256 env1 email s = (s1, Ok r1)
    /\ validateMagicLinkAndCreateSession sha256 jwt_sign env2 (token r1) s1
       = (s2, Ok r2)
    /\ user r2 = mkSummary (User.id u) (User.email u) (User.role u)
    /\ validateSession sha256 env3 (refreshToken r2) s2
       = (s2, Ok (context_of u)).
Proof.
  intros Hu Hid Hlink Hsess Ht2 Ht3.
  pose proof (generateMagicLink_ok env1 email s u Hu Hlink) as Hgen.
  set (s1 := set_magicLinks s
               (filter (fun l => negb (pending_of (User.id u) l))
                       (magicLinks s) ++ [issued_row sha256 env1 u])) in *.
  assert (Hfound : find (fun m => MagicLink.tokenHash m
                                   =? sha256 (randomHex env1))
                        (magicLinks s1) = Some (issued_row sha256 env1 u)).
  { cbn [s1 magicLinks set_magicLinks]. rewrite find_app_none.
    - simpl. now rewrite String.eqb_refl.
    - apply find_none_iff. intros l Hl. apply filter_In in Hl.
      destruct Hl as [Hl Hp]. apply negb_true_iff in Hp.
      apply String.eqb_neq. apply (Hlink l Hl Hp). }
  pose proof (redeem_ok sha256 jwt_sign env2 (randomHex env1) s1
                (issued_row sha256 env1 u) u Hfound Ht2 eq_refl Hid Hsess)
    as Hred.
  do 4 eexists. split; [exact Hgen|]. split; [exact Hred|].
  split; [reflexivity|].
  apply (validateSession_ok sha256 env3 _ _ (session_row sha256 env2 u) u).
  - cbn [redeemed_store authSessions refreshToken s1 set_magicLinks].
    rewrite find_app_none.
    + simpl. now rewrite String.eqb_refl.
    + apply find_none_iff. intros x Hx. apply String.eqb_neq.
      apply (Hsess x Hx).
  - exact Ht3.
  - exact Hid.
Qed.

Lemma generateMagicLink_links env email s s' out :
  generateMagicLink sha256 env email s = (s', out) ->
  magicLinks s' = magicLinks s
  \/ exists u,
       magicLinks s'
       = filter (fun l => negb (pending_of (User.id u) l)) (magicLinks s)
       \/ magicLinks s'
          = (filter (fun l => negb (pending_of (User.id u) l)) (magicLinks s)
             ++ [issued_row sha256 env u])%list.
Proof.
  unfold generateMagicLink, generateMagicLink_body. exec.
  destruct (find _ (users s)) as [u|].
  - cbn [magicLinks set_magicLinks users companies authSessions
         MagicLink.id MagicLink.tokenHash].
    destruct (existsb _ _); intros H; inversion H; subst; clear H;
      right; exists u; cbn [magicLinks set_magicLinks]; auto.
  - intros H; inversion H; subst. now left.
Qed.

Lemma redeem_links env token s s1 out :
  validateMagicLinkAndCreateSession sha256 jwt_sign env token s = (s1, out) ->
  magicLinks s1 = magicLinks s
  \/ exists l, magicLinks s1 = consumed (clock env 1) l (magicLinks s).
Proof.
  destruct out as [r|e]; intros H.
  - apply redeem_Ok_inv in H.
    destruct H as (l & u & _ & _ & _ & _ & _ & -> & _).
    right. exists l. reflexivity.
  - unfold validateMagicLinkAndCreateSession,
      validateMagicLinkAndCreateSession_body in H. revert H. exec.
    destruct (find _ (magicLinks s)) as [l|];
      [|intros H; inversion H; subst; now left].
    destruct (MagicLink.expiresAt l <? clock env 0)%Z;
      [intros H; inversion H; subst; now left|].
    destruct (MagicLink.usedAt l); cbn [isNone negb];
      [intros H; inversion H; subst; now left|].
    destruct (existsb _ (magicLinks s));
      [|intros H; inversion H; subst; now left].
    destruct (included_user (MagicLink.userId l) s).
    + cbn [authSessions set_magicLinks set_authSessions magicLinks users
           companies AuthSession.id AuthSession.tokenHash].
      destruct (existsb _ (authSessions s)); intros H; inversion H; subst;
        right; exists l; reflexivity.
    + intros H; inversion H; subst. right. exists l. reflexivity.
Qed.

(** X9.  "At most one unredeemed magic link per user" is an invariant of
    the service: if it holds of a store, it holds of the store returned by
    [generateMagicLink], by [validateMagicLinkAndCreateSession] and by
    [cleanupExpiredTokens], whatever their outcome. *)
Theorem one_pending_per_user_preserved s :
  one_pending_per_user s ->
  (forall env email s' out,
      generateMagicLink sha256 env email s = (s', out) ->
      one_pending_per_user s')
  /\ (forall env token s' out,
        validateMagicLinkAndCreateSession sha256 jwt_sign env token s
        = (s', out) ->
        one_pending_per_user s')
  /\ (forall env s' out,
        cleanupExpiredTokens env s = (s', out) ->
        one_pending_per_user s').
Proof.
  intros Inv. split; [|split].
  - intros env email s' out H uid.
    apply generateMagicLink_links in H.
    destruct H as [->|(u & [->| ->])]; [apply Inv| |].
    + etransitivity; [apply filter_length_filter|apply Inv].
    + rewrite filter_app, length_app.
      destruct (User.id u =? uid) eqn:E.
      * apply String.eqb_eq in E. subst uid.
        rewrite filter_filter_neg. simpl.
        destruct (pending_of _ _); simpl; lia.
      * assert (Hn : pending_of uid (issued_row sha256 env u) = false)
          by (unfold pending_of, issued_row; simpl; now rewrite E).
        simpl. rewrite Hn. simpl. rewrite Nat.add_0_r.
        etransitivity; [apply filter_length_filter|apply Inv].
  - intros env token s' out H uid.
    apply redeem_links in H. destruct H as [->|(l & ->)]; [apply Inv|].
    etransitivity; [|apply (Inv uid)].
    apply filter_length_map. intros m.
    destruct (MagicLink.id m =? MagicLink.id l); [|trivial].
    unfold pending_of, mark_used. simpl. now rewrite andb_false_r.
  - intros env s' out H uid. rewrite cleanupExpiredTokens_run in H.
    inversion H; subst; clear H. cbn [magicLinks].
    etransitivity; [apply filter_length_filter|apply Inv].
Qed.

End CredentialLifeCycle.

(* ===================================================================== *)
(** ** Users service: reach of a requester *)
(* ===================================================================== *)

Lemma option_eqb_eq (a b : option string) : option_eqb a b = true <-> a = b.
Proof.
  destruct a, b; simpl; try (split; congruence).
  rewrite String.eqb_eq. split; congruence.
Qed.

(** The filter of [getUserById], [updateUser] (and of [deleteUser] for a
    requester who may delete) selects the rows in scope with the target
    id. *)
Lemma matches_scoped_id userId requestingUser v :
  matches (scoped (with_id emptyWhere userId) requestingUser) v = true
  <-> User.id v = target_id userId requestingUser
      /\ in_scope requestingUser v.
Proof.
  unfold scoped, target_id, in_scope, matches.
  destruct (UserSession.role requestingUser) eqn:R; cbn;
    rewrite ?andb_true_r, ?andb_true_iff, ?String.eqb_eq, ?option_eqb_eq;
    intuition (try congruence; try discriminate).
Qed.

Lemma matches_scoped_email email requestingUser v :
  matches (scoped (mkWhere None (Some email) None None None None)
                  requestingUser) v = true
  <-> User.email v = email /\ in_scope requestingUser v.
Proof.
  unfold scoped, in_scope, matches.
  destruct (UserSession.role requestingUser) eqn:R; cbn;
    rewrite ?andb_true_r, ?andb_true_iff, ?String.eqb_eq, ?option_eqb_eq;
    intuition (try congruence; try discriminate).
Qed.

(** X10.  [getUserById] and [getUserByEmail] never fail and never change
    the store.  A row they return is a stored row within the reach of the
    requester: same company; for a manager, same team; for a collaborator,
    the requester's own row, whatever id was asked for.  They return [null]
    exactly when no stored row with the id (respectively the e-mail) looked
    up is within reach. *)
Theorem getUser_reach requestingUser s :
  (forall userId,
      exists res,
        getUserById userId requestingUser s = (s, Ok res)
        /\ (forall u, res = Some u ->
              In u (users s)
              /\ User.id u = target_id userId requestingUser
              /\ in_scope requestingUser u)
        /\ (res = None <->
            forall v, In v (users s) ->
                      User.id v = target_id userId requestingUser ->
                      ~ in_scope requestingUser v))
  /\ (forall email,
        exists res,
          getUserByEmail email requestingUser s = (s, Ok res)
          /\ (forall u, res = Some u ->
                In u (users s)
                /\ User.email u = email
                /\ in_scope requestingUser u)
          /\ (res = None <->
              forall v, In v (users s) ->
                        User.email v = email ->
                        ~ in_scope requestingUser v)).
Proof.
  split.
  - intros userId. eexists. split; [reflexivity|]. split.
    + intros u Hu. apply find_some in Hu. destruct Hu as [Hin Hm].
      apply matches_scoped_id in Hm. tauto.
    + rewrite find_none_iff. split.
      * intros H v Hv Hid Hsc. specialize (H v Hv).
        assert (Hm : matches (scoped (with_id emptyWhere userId)
                                     requestingUser) v = true)
          by (apply matches_scoped_id; auto).
        congruence.
      * intros H v Hv. apply not_true_is_false. intros Hm.
        apply matches_scoped_id in Hm. apply (H v Hv); tauto.
  - intros email. eexists. split; [reflexivity|]. split.
    + intros u Hu. apply find_some in Hu. destruct Hu as [Hin Hm].
      apply matches_scoped_email in Hm. tauto.
    + rewrite find_none_iff. split.
      * intros H v Hv Hid Hsc. specialize (H v Hv).
        assert (Hm : matches (scoped (mkWhere None (Some email) None None
                                              None None)
                                     requestingUser) v = true)
          by (apply matches_scoped_email; auto).
        congruence.
      * intros H v Hv. apply not_true_is_false. intros Hm.
        apply matches_scoped_email in Hm. apply (H v Hv); tauto.
Qed.

(* ===================================================================== *)
(** ** Users service: writes *)
(* ===================================================================== *)

(** The [data] that [updateUser] hands to [prisma.user.update]. *)
Lemma apply_update_data d existing :
  apply_data
    (mkData (UpdateUserInput.email d) (UpdateUserInput.role d)
       (if Role_eqb (newRole_of d existing) ADMIN_RH then None
        else newTeamId_of d existing))
    existing
  = updated_row d existing.
Proof.
  unfold apply_data, updated_row, newRole_of. cbn.
  destruct (UpdateUserInput.role d) as [[]|]; try reflexivity.
  destruct (User.role existing); reflexivity.
Qed.

Lemma rule_checks_pass (r : Role) (t : option string) :
  Role_eqb r MANAGER && negb (truthy t) = false ->
  Role_eqb r ADMIN_RH && truthy t = false ->
  (r = MANAGER -> truthy t = true) /\ (r = ADMIN_RH -> truthy t = false).
Proof.
  destruct r, (truthy t); cbn; intros; split; intros; congruence.
Qed.

(** Inversion of a successful [updateUser]. *)
Lemma updateUser_Ok_inv userId d requestingUser s s' u' :
  updateUser userId d requestingUser s = (s', Ok u') ->
  exists existing,
    find (matches (scoped (with_id emptyWhere userId) requestingUser))
         (users s) = Some existing
    /\ (newRole_of d existing = MANAGER ->
        truthy (newTeamId_of d existing) = true)
    /\ (newRole_of d existing = ADMIN_RH ->
        truthy (newTeamId_of d existing) = false)
    /\ (forall e v, UpdateUserInput.email d = Some e -> In v (users s) ->
          matches (scoped (with_id emptyWhere userId) requestingUser) v
          = false ->
          User.email v <> e)
    /\ s' = set_users s
              (map (fun v =>
                      if matches (scoped (with_id emptyWhere userId)
                                         requestingUser) v
                      then apply_data
                             (mkData (UpdateUserInput.email d)
                                (UpdateUserInput.role d)
                                (if Role_eqb (newRole_of d existing) ADMIN_RH
                                 then None else newTeamId_of d existing))
                             v
                      else v)
                   (users s))
    /\ u' = updated_row d existing.
Proof.
  unfold updateUser, updateUser_body. exec.
  set (w := scoped (with_id emptyWhere userId) requestingUser).
  destruct (find (matches w) (users s)) as [ex|] eqn:Hex;
    [|cbn; intros H; discriminate].
  destruct (Role_eqb (newRole_of d ex) MANAGER
            && negb (truthy (newTeamId_of d ex))) eqn:C1;
    [cbn; intros H; discriminate|].
  destruct (Role_eqb (newRole_of d ex) ADMIN_RH
            && truthy (newTeamId_of d ex)) eqn:C2;
    [cbn; intros H; discriminate|].
  rewrite Hex. cbn [d_email].
  match goal with
  | |- context [if ?b then _ else _] => destruct b eqn:Hclash
  end; [cbn; intros H; discriminate|].
  intros H; inversion H; subst; clear H.
  exists ex. destruct (rule_checks_pass _ _ C1 C2) as [R1 R2].
  split; [reflexivity|]. split; [exact R1|]. split; [exact R2|].
  split; [|split; [reflexivity|apply apply_update_data]].
  intros e v He Hv Hm. rewrite He in Hclash.
  rewrite existsb_false_iff in Hclash. specialize (Hclash v Hv).
  fold w in Hm. rewrite Hm in Hclash. cbn in Hclash.
  now apply String.eqb_neq.
Qed.

Lemma updated_row_rule d existing :
  (newRole_of d existing = MANAGER ->
   truthy (newTeamId_of d existing) = true) ->
  role_team_ok (updated_row d existing).
Proof.
  intros R1. unfold role_team_ok, updated_row. cbn.
  destruct (newRole_of d existing); split; intros; try discriminate; auto.
Qed.

(** X11.  What a successful [updateUser] changes.  The row returned is the
    update of a stored row within the reach of the requester; it satisfies
    the role and team rule.  In the users table only rows within that reach
    and with the target id differ from before, and their id, company and
    creation time are kept; magic links, sessions and companies are
    untouched. *)
Theorem updateUser_effects userId d requestingUser s s' u' :
  updateUser userId d requestingUser s = (s', Ok u') ->
  (exists existing,
      In existing (users s)
      /\ User.id existing = target_id userId requestingUser
      /\ in_scope requestingUser existing
      /\ u' = updated_row d existing)
  /\ role_team_ok u'
  /\ Forall2 (fun v v' =>
                v' = v
                \/ (User.id v = target_id userId requestingUser
                    /\ in_scope requestingUser v
                    /\ User.id v' = User.id v
                    /\ User.companyId v' = User.companyId v
                    /\ User.createdAt v' = User.createdAt v))
             (users s) (users s')
  /\ magicLinks s' = magicLinks s
  /\ authSessions s' = authSessions s
  /\ companies s' = companies s.
Proof.
  intros H. apply updateUser_Ok_inv in H.
  destruct H as (ex & Hex & R1 & _ & _ & -> & ->).
  split; [|split; [|split]].
  - exists ex. pose proof (find_some _ _ Hex) as [Hin Hm].
    apply matches_scoped_id in Hm. tauto.
  - now apply updated_row_rule.
  - cbn [users set_users]. clear Hex.
    induction (users s) as [|v l IH]; simpl; constructor; [|exact IH].
    destruct (matches _ v) eqn:Hm; [right|now left].
    apply matches_scoped_id in Hm. cbn. tauto.
  - repeat split.
Qed.

(** X12.  [updateUser] does not compare the role it assigns with the role
    of the requester.  Whoever the requester is (a manager acting on a
    member of the team, the manager included; a collaborator acting on the
    collaborator's own row), if a row is within reach, sending
    [role = ADMIN_RH] with [teamId = null] is accepted and the row becomes
    an administrator without team. *)
Theorem updateUser_role_unrestricted userId requestingUser s existing :
  find (matches (scoped (with_id emptyWhere userId) requestingUser))
       (users s) = Some existing ->
  exists s',
    updateUser userId (UpdateUserInput.mk None (Some ADMIN_RH) Null)
      requestingUser s
    = (s',
       Ok (User.mk (User.id existing) (User.companyId existing)
             (User.email existing) ADMIN_RH None (User.createdAt existing)))
    /\ In (User.mk (User.id existing) (User.companyId existing)
             (User.email existing) ADMIN_RH None (User.createdAt existing))
          (users s').
Proof.
  intros Hex. unfold updateUser, updateUser_body. exec.
  rewrite Hex. cbn. rewrite Hex. cbn. eexists. split; [reflexivity|].
  cbn [users set_users]. apply find_some in Hex. destruct Hex as [Hin Hm].
  apply in_map_iff. exists existing. split; [|exact Hin].
  now rewrite Hm.
Qed.

Lemma matches_delete_admin userId requestingUser v :
  UserSession.role requestingUser = ADMIN_RH ->
  (matches (with_companyId (with_id emptyWhere userId)
              (UserSession.companyId requestingUser)) v = true
   <-> User.id v = userId /\ in_scope requestingUser v).
Proof.
  intros R. unfold in_scope, matches. rewrite R. cbn.
  rewrite ?andb_true_r, ?andb_true_iff, ?String.eqb_eq.
  intuition (try congruence; try discriminate).
Qed.

Lemma matches_delete_manager userId requestingUser v :
  UserSession.role requestingUser = MANAGER ->
  (matches (with_teamId
              (with_companyId (with_id emptyWhere userId)
                 (UserSession.companyId requestingUser))
              (UserSession.teamId requestingUser)) v = true
   <-> User.id v = userId /\ in_scope requestingUser v).
Proof.
  intros R. unfold in_scope, matches. rewrite R. cbn.
  rewrite ?andb_true_r, ?andb_true_iff, ?String.eqb_eq, ?option_eqb_eq.
  intuition (try congruence; try discriminate).
Qed.

(** The store after the rows selected by [sel], all with id [userId], have
    been deleted with their magic links and sessions. *)
Lemma cascade_owned (sel : User.t -> bool) (userId : string)
  (us : list User.t) (i : string) :
  (forall v, In v us -> sel v = true -> User.id v = userId) ->
  (exists v, In v us /\ sel v = true) ->
  existsb (String.eqb i) (map User.id (filter sel us)) = true <-> i = userId.
Proof.
  intros Hid (v & Hv & Hs). rewrite existsb_exists. split.
  - intros (j & Hj & E). apply String.eqb_eq in E. subst j.
    apply in_map_iff in Hj. destruct Hj as (y & <- & Hy).
    apply filter_In in Hy. now apply Hid.
  - intros ->. exists (User.id v). split.
    + apply in_map. apply filter_In. auto.
    + apply String.eqb_eq. symmetry. now apply Hid.
Qed.

(** X13.  [deleteUser] is refused to a collaborator.  When it succeeds, a
    stored row with the given id was within the reach of the requester; the
    users removed are exactly the rows with that id within reach; every
    magic link and every session owned by that id is removed with them, and
    no other; companies are untouched. *)
Theorem deleteUser_effects userId requestingUser s s' :
  deleteUser userId requestingUser s = (s', Ok tt) ->
  UserSession.role requestingUser <> COLLABORATEUR
  /\ (exists v, In v (users s) /\ User.id v = userId
                /\ in_scope requestingUser v)
  /\ (forall v, In v (users s') <->
                In v (users s)
                /\ ~ (User.id v = userId /\ in_scope requestingUser v))
  /\ (forall l, In l (magicLinks s') <->
                In l (magicLinks s) /\ MagicLink.userId l <> userId)
  /\ (forall x, In x (authSessions s') <->
                In x (authSessions s) /\ AuthSession.userId x <> userId)
  /\ companies s' = companies s.
Proof.
  unfold deleteUser, deleteUser_body.
  destruct (UserSession.role requestingUser) eqn:R; exec;
    try (cbn; intros H; discriminate).
  - set (w := with_companyId (with_id emptyWhere userId)
                (UserSession.companyId requestingUser)).
    assert (Hw : forall v, matches w v = true
                           <-> User.id v = userId /\ in_scope requestingUser v)
      by (intros v; now apply matches_delete_admin).
    destruct (find (matches w) (users s)) as [ex|] eqn:Hex;
      [|cbn; intros H; discriminate].
    rewrite Hex. intros H; inversion H; subst; clear H.
    cbn [users magicLinks authSessions companies].
    pose proof (find_some _ _ Hex) as [Hin Hm].
    assert (Hown : forall i,
               existsb (String.eqb i)
                       (map User.id (filter (matches w) (users s))) = true
               <-> i = userId).
    { intros i. apply cascade_owned.
      - intros v _ Hv. now apply Hw in Hv.
      - now exists ex. }
    split; [discriminate|]. split; [exists ex; apply Hw in Hm; tauto|].
    split; [|split; [|split]]; try reflexivity.
    + intros v. rewrite filter_In, negb_true_iff, <- Hw.
      split; intros [? ?]; split; auto; [congruence|].
      now apply not_true_is_false.
    + intros l. rewrite filter_In, negb_true_iff, <- Hown.
      split; intros [? ?]; split; auto; [congruence|].
      now apply not_true_is_false.
    + intros x. rewrite filter_In, negb_true_iff, <- Hown.
      split; intros [? ?]; split; auto; [congruence|].
      now apply not_true_is_false.
  - set (w := with_teamId
                (with_companyId (with_id emptyWhere userId)
                   (UserSession.companyId requestingUser))
                (UserSession.teamId requestingUser)).
    assert (Hw : forall v, matches w v = true
                           <-> User.id v = userId /\ in_scope requestingUser v)
      by (intros v; now apply matches_delete_manager).
    destruct (find (matches w) (users s)) as [ex|] eqn:Hex;
      [|cbn; intros H; discriminate].
    rewrite Hex. intros H; inversion H; subst; clear H.
    cbn [users magicLinks authSessions companies].
    pose proof (find_some _ _ Hex) as [Hin Hm].
    assert (Hown : forall i,
               existsb (String.eqb i)
                       (map User.id (filter (matches w) (users s))) = true
               <-> i = userId).
    { intros i. apply cascade_owned.
      - intros v _ Hv. now apply Hw in Hv.
      - now exists ex. }
    split; [discriminate|]. split; [exists ex; apply Hw in Hm; tauto|].
    split; [|split; [|split]]; try reflexivity.
    + intros v. rewrite filter_In, negb_true_iff, <- Hw.
      split; intros [? ?]; split; auto; [congruence|].
      now apply not_true_is_false.
    + intros l. rewrite filter_In, negb_true_iff, <- Hown.
      split; intros [? ?]; split; auto; [congruence|].
      now apply not_true_is_false.
    + intros x. rewrite filter_In, negb_true_iff, <- Hown.
      split; intros [? ?]; split; auto; [congruence|].
      now apply not_true_is_false.
Qed.

Lemma NoDup_snoc {A} (l : list A) (a : A) :
  NoDup l -> ~ In a l -> NoDup (l ++ [a]).
Proof.
  induction l as [|b l IH]; simpl; intros Hnd Hna.
  - constructor; [tauto|constructor].
  - inversion Hnd as [|? ? Hnb Hnd']; subst. constructor.
    + intros Hin. apply in_app_or in Hin. destruct Hin as [Hin|[->|[]]];
        tauto.
    + apply IH; tauto.
Qed.

Lemma NoDup_map_filter {A B} (key : A -> B) (keep : A -> bool) :
  forall rows : list A,
    NoDup (map key rows) -> NoDup (map key (filter keep rows)).
Proof.
  intros rows. induction rows as [|a l IH]; simpl; intros Hnd;
    [constructor|].
  inversion Hnd as [|? ? Hna Hnd']; subst.
  destruct (keep a); simpl; [constructor|]; auto.
  intros Hin. apply in_map_iff in Hin. destruct Hin as (y & E & Hy).
  apply filter_In in Hy. apply Hna. rewrite <- E. apply in_map. tauto.
Qed.

Lemma NoDup_map_update {A B} (key : A -> B) (g : A -> A) (p : A -> bool)
  (l : list A) :
  NoDup (map key l) ->
  (forall x y, In x l -> In y l -> p x = true -> p y = true -> x = y) ->
  (forall x y, In x l -> In y l -> p x = true -> p y = false ->
               key (g x) <> key y) ->
  NoDup (map key (map (fun v => if p v then g v else v) l)).
Proof.
  induction l as [|a l IH]; simpl; intros Hnd Huniq Hfresh; [constructor|].
  inversion Hnd as [|? ? Hna Hnd']; subst. constructor.
  - intros Hin. apply in_map_iff in Hin. destruct Hin as (y' & E & Hy').
    apply in_map_iff in Hy'. destruct Hy' as (y & <- & Hy).
    destruct (p a) eqn:Pa, (p y) eqn:Py.
    + assert (a = y) by (apply Huniq; simpl; auto). subst.
      apply Hna. now apply in_map.
    + apply (Hfresh a y); simpl; auto.
    + apply (Hfresh y a); simpl; auto.
    + apply Hna. rewrite <- E. now apply in_map.
  - apply IH.
    + exact Hnd'.
    + intros x y Hx Hy. apply Huniq; simpl; auto.
    + intros x y Hx Hy. apply Hfresh; simpl; auto.
Qed.

(** Inversion of a successful [createUser]. *)
Lemma createUser_Ok_inv env d s s' u :
  createUser env d s = (s', Ok u) ->
  u = User.mk (cuid env) (CreateUserInput.companyId d)
        (CreateUserInput.email d) (CreateUserInput.role d)
        (CreateUserInput.teamId d) (clock env 0)
  /\ s' = set_users s (users s ++ [u])
  /\ role_team_ok u
  /\ (exists c, In c (companies s) /\ Company.id c = User.companyId u)
  /\ (forall v, In v (users s) ->
                User.id v <> User.id u /\ User.email v <> User.email u).
Proof.
  unfold createUser, createUser_body. exec.
  destruct (find _ (companies s)) as [c|] eqn:Hc;
    [|cbn; intros H; discriminate].
  destruct (Role_eqb (CreateUserInput.role d) MANAGER
            && negb (truthy (CreateUserInput.teamId d))) eqn:C1;
    [cbn; intros H; discriminate|].
  destruct (Role_eqb (CreateUserInput.role d) ADMIN_RH
            && truthy (CreateUserInput.teamId d)) eqn:C2;
    [cbn; intros H; discriminate|].
  cbn [User.id User.email User.companyId].
  destruct (existsb _ (users s)) eqn:Hclash; [intros H; discriminate|].
  destruct (existsb _ (companies s)) eqn:Hfk; cbn [negb];
    [|intros H; discriminate].
  intros H; inversion H; subst; clear H.
  split; [reflexivity|]. split; [reflexivity|]. split; [|split].
  - exact (rule_checks_pass _ _ C1 C2).
  - apply find_some in Hc. destruct Hc as [Hin Hid].
    exists c. split; [exact Hin|]. now apply String.eqb_eq.
  - intros v Hv. rewrite existsb_false_iff in Hclash.
    specialize (Hclash v Hv). apply orb_false_elim in Hclash.
    destruct Hclash as [Hi He]. cbn.
    now apply String.eqb_neq in Hi, He.
Qed.

Lemma createUser_Err_same env d s s' e :
  createUser env d s = (s', Err e) -> s' = s.
Proof.
  unfold createUser, createUser_body. exec.
  destruct (find _ (companies s)); [|cbn; intros H; now inversion H].
  destruct (_ && _); [cbn; intros H; now inversion H|].
  destruct (_ && _); [cbn; intros H; now inversion H|].
  destruct (existsb _ (users s)); [intros H; now inversion H|].
  destruct (existsb _ (companies s)); cbn [negb];
    [intros H; discriminate|intros H; now inversion H].
Qed.

Lemma updateUser_Err_same userId d requestingUser s s' e :
  updateUser userId d requestingUser s = (s', Err e) -> s' = s.
Proof.
  unfold updateUser, updateUser_body. exec.
  destruct (find _ (users s)) as [ex|] eqn:Hex;
    [|cbn; intros H; now inversion H].
  destruct (_ && _); [cbn; intros H; now inversion H|].
  destruct (_ && _); [cbn; intros H; now inversion H|].
  rewrite Hex.
  match goal with
  | |- context [if ?b then _ else _] => destruct b
  end; [intros H; now inversion H|intros H; discriminate].
Qed.

Lemma deleteUser_Err_same userId requestingUser s s' e :
  deleteUser userId requestingUser s = (s', Err e) -> s' = s.
Proof.
  unfold deleteUser, deleteUser_body.
  destruct (UserSession.role requestingUser); exec;
    try (cbn; intros H; now inversion H).
  - destruct (find _ (users s)) eqn:Hex;
      [rewrite Hex; intros H; discriminate|cbn; intros H; now inversion H].
  - destruct (find _ (users s)) eqn:Hex;
      [rewrite Hex; intros H; discriminate|cbn; intros H; now inversion H].
Qed.

(** X14.  What a successful [createUser] changes.  Exactly one row is
    appended to the users, carrying the data received, the id drawn and the
    time of the insert; it satisfies the role and team rule, belongs to a
    stored company, and its id and e-mail address were carried by no stored
    user.  Nothing else changes. *)
Theorem createUser_effects env d s s' u :
  createUser env d s = (s', Ok u) ->
  u = User.mk (cuid env) (CreateUserInput.companyId d)
        (CreateUserInput.email d) (CreateUserInput.role d)
        (CreateUserInput.teamId d) (clock env 0)
  /\ users s' = (users s ++ [u])%list
  /\ magicLinks s' = magicLinks s
  /\ authSessions s' = authSessions s
  /\ companies s' = companies s
  /\ role_team_ok u
  /\ (exists c, In c (companies s) /\ Company.id c = User.companyId u)
  /\ (forall v, In v (users s) ->
                User.id v <> User.id u /\ User.email v <> User.email u).
Proof.
  intros H. apply createUser_Ok_inv in H.
  destruct H as (Hu & -> & Hrule & Hc & Hfresh).
  cbn [users magicLinks authSessions companies set_users]. auto 10.
Qed.

(** X15.  The users service writes nothing when it fails: whenever
    [createUser], [updateUser] or [deleteUser] returns an error, the store
    returned is the store received; and [getUserById], [getUserByEmail] and
    [listUsers] return the store received whatever their outcome. *)
Theorem users_service_failure_atomic s :
  (forall env d s' e, createUser env d s = (s', Err e) -> s' = s)
  /\ (forall userId d r s' e,
        updateUser userId d r s = (s', Err e) -> s' = s)
  /\ (forall userId r s' e, deleteUser userId r s = (s', Err e) -> s' = s)
  /\ (forall userId r, fst (getUserById userId r s) = s)
  /\ (forall email r, fst (getUserByEmail email r s) = s)
  /\ (forall q r, fst (listUsers q r s) = s).
Proof.
  split; [|split; [|split; [|split; [|split]]]].
  - intros env d s' e. apply createUser_Err_same.
  - intros userId d r s' e. apply updateUser_Err_same.
  - intros userId r s' e. apply deleteUser_Err_same.
  - reflexivity.
  - reflexivity.
  - intros q r. unfold listUsers, listUsers_body. exec.
    destruct (_ || _); reflexivity.
Qed.

Lemma deleteUser_users userId requestingUser s s' out :
  deleteUser userId requestingUser s = (s', out) ->
  companies s' = companies s
  /\ exists sel, users s' = filter sel (users s).
Proof.
  assert (Hsame : companies s = companies s
                  /\ exists sel, users s = filter sel (users s)).
  { split; [reflexivity|]. exists (fun _ => true).
    symmetry. now apply filter_all. }
  unfold deleteUser, deleteUser_body.
  destruct (UserSession.role requestingUser); exec;
    try (cbn; intros H; inversion H; subst; exact Hsame).
  - destruct (find _ (users s)) eqn:Hex;
      [rewrite Hex|cbn]; intros H; inversion H; subst; try exact Hsame.
    cbn [users companies]. split; [reflexivity|]. eexists. reflexivity.
  - destruct (find _ (users s)) eqn:Hex;
      [rewrite Hex|cbn]; intros H; inversion H; subst; try exact Hsame.
    cbn [users companies]. split; [reflexivity|]. eexists. reflexivity.
Qed.

(** X16.  The constraints on users are an invariant of the users service:
    if ids and e-mail addresses are unique, every user satisfies the role
    and team rule and belongs to a stored company, then the same holds of
    the store returned by [createUser], [updateUser] and [deleteUser],
    whatever their outcome. *)
Theorem users_wf_preserved s :
  users_wf s ->
  (forall env d s' out, createUser env d s = (s', out) -> users_wf s')
  /\ (forall userId d r s' out,
        updateUser userId d r s = (s', out) -> users_wf s')
  /\ (forall userId r s' out,
        deleteUser userId r s = (s', out) -> users_wf s').
Proof.
  intros Hwf. pose proof Hwf as (Hid & Hemail & Hrule & Hfk).
  split; [|split].
  - intros env d s' [u|e] H.
    2:{ apply createUser_Err_same in H. now subst. }
    apply createUser_Ok_inv in H.
    destruct H as (_ & -> & Hr & Hc & Hfresh).
    unfold users_wf. cbn [users companies set_users].
    rewrite !map_app. cbn [map]. split; [|split; [|split]].
    + apply NoDup_snoc; [exact Hid|]. intros Hin.
      apply in_map_iff in Hin. destruct Hin as (v & E & Hv).
      destruct (Hfresh v Hv) as [Hi He]. congruence.
    + apply NoDup_snoc; [exact Hemail|]. intros Hin.
      apply in_map_iff in Hin. destruct Hin as (v & E & Hv).
      destruct (Hfresh v Hv) as [Hi He]. congruence.
    + intros v Hv. apply in_app_or in Hv.
      destruct Hv as [Hv|[<-|[]]]; [now apply Hrule|exact Hr].
    + intros v Hv. apply in_app_or in Hv.
      destruct Hv as [Hv|[<-|[]]]; [now apply Hfk|exact Hc].
  - intros userId d r s' [u|e] H.
    2:{ apply updateUser_Err_same in H. now subst. }
    apply updateUser_Ok_inv in H.
    destruct H as (ex & Hex & R1 & _ & Hclash & -> & _).
    set (w := scoped (with_id emptyWhere userId) r) in *.
    pose proof (find_some _ _ Hex) as [Hexin Hexm].
    assert (Hone : forall x, In x (users s) -> matches w x = true -> x = ex).
    { intros x Hx Hm. apply (NoDup_map_eq User.id (users s)); auto.
      apply matches_scoped_id in Hm, Hexm. destruct Hm, Hexm. congruence. }
    unfold users_wf. cbn [users companies set_users].
    split; [|split; [|split]].
    + rewrite map_map.
      rewrite (map_ext _ User.id); [exact Hid|].
      intros v. now destruct (matches w v).
    + apply NoDup_map_update; [exact Hemail| |].
      * intros x y Hx Hy Px Py. rewrite (Hone x Hx Px). symmetry.
        now apply Hone.
      * intros x y Hx Hy Px Py. cbn [apply_data d_email User.email].
        destruct (UpdateUserInput.email d) as [e|] eqn:He.
        -- intros E. now apply (Hclash e y eq_refl Hy Py).
        -- intros E.
           assert (x = y)
             by (apply (NoDup_map_eq User.email (users s)); auto).
           subst. congruence.
    + intros v' Hv'. apply in_map_iff in Hv'. destruct Hv' as (v & <- & Hv).
      destruct (matches w v) eqn:Hm; [|now apply Hrule].
      rewrite (Hone v Hv Hm), apply_update_data.
      now apply updated_row_rule.
    + intros v' Hv'. apply in_map_iff in Hv'. destruct Hv' as (v & <- & Hv).
      destruct (Hfk v Hv) as (c & Hc & E). exists c. split; [exact Hc|].
      now destruct (matches w v).
  - intros userId r s' out H. apply deleteUser_users in H.
    destruct H as (Hc & sel & Hu). unfold users_wf. rewrite Hc, Hu.
    split; [|split; [|split]].
    + now apply NoDup_map_filter.
    + now apply NoDup_map_filter.
    + intros v Hv. apply filter_In in Hv. now apply Hrule.
    + intros v Hv. apply filter_In in Hv. now apply Hfk.
Qed.

(** X17.  A duplicate e-mail address is refused by the unique index and
    reaches the caller as a generic failure of the service, with status 500:
    [USER_CREATION_FAILED] from [createUser] when a stored user has the
    address, [USER_UPDATE_FAILED] from [updateUser] when a stored user
    outside the rows being updated has it.  The store is unchanged. *)
Theorem duplicate_email_rejected s :
  (forall env d c v,
      find (fun c => Company.id c =? CreateUserInput.companyId d)
           (companies s) = Some c ->
      (CreateUserInput.role d = MANAGER ->
       truthy (CreateUserInput.teamId d) = true) ->
      (CreateUserInput.role d = ADMIN_RH ->
       truthy (CreateUserInput.teamId d) = false) ->
      In v (users s) ->
      User.email v = CreateUserInput.email d ->
      createUser env d s = (s, Err (mkApiError "USER_CREATION_FAILED" 500)))
  /\ (forall userId d r existing e v,
        find (matches (scoped (with_id emptyWhere userId) r)) (users s)
        = Some existing ->
        (newRole_of d existing = MANAGER ->
         truthy (newTeamId_of d existing) = true) ->
        (newRole_of d existing = ADMIN_RH ->
         truthy (newTeamId_of d existing) = false) ->
        UpdateUserInput.email d = Some e ->
        In v (users s) ->
        matches (scoped (with_id emptyWhere userId) r) v = false ->
        User.email v = e ->
        updateUser userId d r s
        = (s, Err (mkApiError "USER_UPDATE_FAILED" 500))).
Proof.
  split.
  - intros env d c v Hc R1 R2 Hv He.
    unfold createUser, createUser_body. exec. rewrite Hc.
    assert (C1 : Role_eqb (CreateUserInput.role d) MANAGER
                 && negb (truthy (CreateUserInput.teamId d)) = false).
    { destruct (CreateUserInput.role d); cbn; try reflexivity.
      now rewrite R1. }
    assert (C2 : Role_eqb (CreateUserInput.role d) ADMIN_RH
                 && truthy (CreateUserInput.teamId d) = false).
    { destruct (CreateUserInput.role d); cbn; try reflexivity.
      now rewrite R2. }
    rewrite C1, C2. cbn [User.id User.email User.companyId].
    assert (Hclash : existsb
                       (fun u => (User.id u =? cuid env)
                                 || (User.email u =? CreateUserInput.email d))
                       (users s) = true).
    { apply existsb_exists. exists v. split; [exact Hv|].
      apply orb_true_iff. right. now apply String.eqb_eq. }
    rewrite Hclash. reflexivity.
  - intros userId d r ex e v Hex R1 R2 He Hv Hm Hve.
    unfold updateUser, updateUser_body. exec. rewrite Hex.
    assert (C1 : Role_eqb (newRole_of d ex) MANAGER
                 && negb (truthy (newTeamId_of d ex)) = false).
    { destruct (newRole_of d ex); cbn; try reflexivity. now rewrite R1. }
    assert (C2 : Role_eqb (newRole_of d ex) ADMIN_RH
                 && truthy (newTeamId_of d ex) = false).
    { destruct (newRole_of d ex); cbn; try reflexivity. now rewrite R2. }
    rewrite C1, C2, Hex. cbn [d_email]. rewrite He.
    assert (Hclash : existsb
                       (fun x => negb (matches (scoped (with_id emptyWhere
                                                          userId) r) x)
                                 && (User.email x =? e))
                       (users s) = true).
    { apply existsb_exists. exists v. split; [exact Hv|].
      rewrite Hm. cbn. now apply String.eqb_eq. }
    rewrite Hclash. reflexivity.
Qed.

(* ===================================================================== *)
(** ** Users service: listing *)
(* ===================================================================== *)

Lemma insert_desc_sorted (u : User.t) (l : list User.t) :
  newest_first l -> newest_first (insert_desc u l).
Proof.
  unfold newest_first. induction l as [|v r IH]; simpl; intros Hs.
  - constructor; constructor.
  - apply StronglySorted_inv in Hs. destruct Hs as [Hr Hv].
    destruct (User.createdAt v <? User.createdAt u)%Z eqn:E.
    + apply Z.ltb_lt in E. constructor; [constructor; assumption|].
      constructor; [lia|]. rewrite Forall_forall in *.
      intros x Hx. specialize (Hv x Hx). lia.
    + apply Z.ltb_ge in E. constructor; [now apply IH|].
      rewrite Forall_forall in *. intros x Hx.
      apply in_insert_desc in Hx. destruct Hx as [->|Hx]; auto.
Qed.

Lemma sort_desc_sorted (l : list User.t) : newest_first (sort_desc l).
Proof.
  induction l as [|v l IH]; simpl; [constructor|].
  now apply insert_desc_sorted.
Qed.

Lemma insert_desc_length (u : User.t) (l : list User.t) :
  List.length (insert_desc u l) = S (List.length l).
Proof.
  induction l as [|v r IH]; simpl; [reflexivity|].
  destruct (User.createdAt v <? User.createdAt u)%Z; simpl; auto.
Qed.

Lemma sort_desc_length (l : list User.t) :
  List.length (sort_desc l) = List.length l.
Proof.
  induction l as [|v l IH]; simpl; [reflexivity|].
  now rewrite insert_desc_length, IH.
Qed.

Lemma newest_first_skipn (n : nat) (l : list User.t) :
  newest_first l -> newest_first (skipn n l).
Proof.
  unfold newest_first. revert l.
  induction n as [|n IH]; intros [|a l] Hs; simpl; auto.
  apply IH. now apply StronglySorted_inv in Hs.
Qed.

Lemma newest_first_firstn (n : nat) (l : list User.t) :
  newest_first l -> newest_first (firstn n l).
Proof.
  unfold newest_first. revert l.
  induction n as [|n IH]; intros [|a l] Hs; simpl; try constructor.
  - apply IH. now apply StronglySorted_inv in Hs.
  - apply StronglySorted_inv in Hs. destruct Hs as [_ Ha].
    rewrite Forall_forall in *. intros x Hx. apply Ha.
    now apply in_firstn in Hx.
Qed.

Lemma matches_teamId (w : UserWhere) (t : option string) (u : User.t) :
  w_teamId w = Some t -> matches w u = true -> User.teamId u = t.
Proof.
  unfold matches. intros Hw H. rewrite Hw in H. cbn [on_field] in H.
  do 2 (apply andb_prop in H; destruct H as [H _]).
  apply andb_prop in H. destruct H as [_ H]. now apply option_eqb_eq.
Qed.

Lemma listWhere_teamId q r :
  UserSession.role r = MANAGER ->
  w_teamId (listWhere q (Some r)) = Some (UserSession.teamId r).
Proof.
  intros R. unfold listWhere. rewrite R.
  destruct (truthy (ListUsersQuery.companyId q)),
    (ListUsersQuery.companyId q), (ListUsersQuery.role q),
    (truthy (ListUsersQuery.search q)), (ListUsersQuery.search q);
    reflexivity.
Qed.

Lemma insert_desc_perm (u : User.t) (l : list User.t) :
  Permutation (u :: l) (insert_desc u l).
Proof.
  induction l as [|v r IH]; simpl; [reflexivity|].
  destruct (User.createdAt v <? User.createdAt u)%Z; [reflexivity|].
  rewrite perm_swap. now constructor.
Qed.

Lemma sort_desc_perm (l : list User.t) : Permutation l (sort_desc l).
Proof.
  induction l as [|v l IH]; simpl; [constructor|].
  rewrite <- insert_desc_perm. now constructor.
Qed.

Lemma window_split {A} (n k : nat) (l : list A) :
  l = (firstn n l ++ firstn k (skipn n l) ++ skipn k (skipn n l))%list.
Proof. now rewrite !firstn_skipn. Qed.

(** X18.  A page of [listUsers], for a query without search text whose page
    number is at least 1 and whose limit is between 1 and 100, as the query
    schema guarantees.  As long as the offset [(page - 1) * limit] does not
    exceed [MAX_SAFE_INTEGER], the call succeeds and leaves the store
    unchanged; the matching rows can be arranged most recent first as the
    rows of the preceding pages, then the rows returned, then the rows of
    the following pages: the page holds the rows ranked [offset + 1] to
    [offset + limit] by creation time.  Their number is the limit, or what
    is left of the matching rows after the offset; [total] counts all
    matching rows and [totalPages] is the least number of pages of that
    limit that hold them.  For a manager every row is of the manager's
    team.  An offset beyond [INT64_MAX] is refused by the client and the
    call fails with [USERS_LIST_FAILED] (500). *)
Theorem listUsers_page q requestingUser s :
  (1 <= ListUsersQuery.page q)%Z ->
  (1 <= ListUsersQuery.limit q <= 100)%Z ->
  truthy (ListUsersQuery.search q) = false ->
  (((ListUsersQuery.page q - 1) * ListUsersQuery.limit q
    <= MAX_SAFE_INTEGER)%Z ->
   exists rows total pages before after,
     listUsers q requestingUser s
     = (s, Ok (mkPaginated rows
                 (mkPagination (ListUsersQuery.page q)
                               (ListUsersQuery.limit q)
                               total (Some pages))))
     /\ total = Z.of_nat
                  (List.length
                     (filter (matches (listWhere q requestingUser))
                             (users s)))
     /\ Permutation (before ++ rows ++ after)%list
          (filter (matches (listWhere q requestingUser)) (users s))
     /\ newest_first (before ++ rows ++ after)%list
     /\ Z.of_nat (List.length before)
        = Z.min total
            ((ListUsersQuery.page q - 1) * ListUsersQuery.limit q)
     /\ Z.of_nat (List.length rows)
        = Z.min (ListUsersQuery.limit q)
            (Z.max 0 (total - (ListUsersQuery.page q - 1)
                              * ListUsersQuery.limit q))
     /\ (ListUsersQuery.limit q * (pages - 1) < total
         <= ListUsersQuery.limit q * pages)%Z
     /\ (forall u, In u rows ->
           In u (users s)
           /\ matches (listWhere q requestingUser) u = true)
     /\ (forall r, requestingUser = Some r ->
           UserSession.role r = MANAGER ->
           forall u, In u rows -> User.teamId u = UserSession.teamId r))
  /\ ((INT64_MAX < (ListUsersQuery.page q - 1) * ListUsersQuery.limit q)%Z ->
      listUsers q requestingUser s
      = (s, Err (mkApiError "USERS_LIST_FAILED" 500))).
Proof.
  intros Hp Hl _.
  set (w := listWhere q requestingUser).
  set (skip := ((ListUsersQuery.page q - 1) * ListUsersQuery.limit q)%Z).
  assert (Hskip : (skip <? 0)%Z = false) by (apply Z.ltb_ge; subst skip; nia).
  assert (Hlimit : fits_int64 (ListUsersQuery.limit q) = true).
  { unfold fits_int64, INT64_MAX. apply andb_true_iff.
    split; apply Z.leb_le; lia. }
  split.
  - intros Hsafe.
    assert (Hfit : fits_int64 skip = true).
    { unfold fits_int64, INT64_MAX. unfold MAX_SAFE_INTEGER in Hsafe.
      apply Z.ltb_ge in Hskip.
      apply andb_true_iff. split; apply Z.leb_le; lia. }
    assert (Htake : (ListUsersQuery.limit q <? 0)%Z = false)
      by (apply Z.ltb_ge; lia).
    assert (Hzero : (ListUsersQuery.limit q =? 0)%Z = false)
      by (apply Z.eqb_neq; lia).
    unfold listUsers, listUsers_body. exec. fold w. fold skip.
    rewrite Hskip, Hfit, Hlimit, Htake. cbn [negb orb].
    unfold totalPages. rewrite Hzero.
    set (found := filter (matches w) (users s)).
    set (n := Z.to_nat skip). set (k := Z.to_nat (ListUsersQuery.limit q)).
    exists (firstn k (skipn n (sort_desc found))),
      (Z.of_nat (List.length found)),
      (- (- Z.of_nat (List.length found) / ListUsersQuery.limit q))%Z,
      (firstn n (sort_desc found)), (skipn k (skipn n (sort_desc found))).
    assert (Hin : forall u, In u (firstn k (skipn n (sort_desc found))) ->
                    In u (users s) /\ matches w u = true).
    { intros u Hu. apply in_firstn, in_skipn, in_sort_desc in Hu.
      now apply filter_In in Hu. }
    split; [reflexivity|]. split; [reflexivity|].
    rewrite <- (window_split n k (sort_desc found)).
    split; [symmetry; apply sort_desc_perm|].
    split; [apply sort_desc_sorted|].
    apply Z.ltb_ge in Hskip.
    split; [|split; [|split; [|split]]].
    + rewrite length_firstn, sort_desc_length. subst n. lia.
    + rewrite length_firstn, length_skipn, sort_desc_length. subst n k. lia.
    + pose proof (Z.div_mod (- Z.of_nat (List.length found))
                    (ListUsersQuery.limit q) ltac:(lia)) as Hdm.
      pose proof (Z.mod_pos_bound (- Z.of_nat (List.length found))
                    (ListUsersQuery.limit q) ltac:(lia)) as Hmb.
      nia.
    + exact Hin.
    + intros r -> R u Hu. destruct (Hin u Hu) as [_ Hm].
      exact (matches_teamId _ _ _ (listWhere_teamId q r R) Hm).
  - intros Hbig.
    assert (Hfit : fits_int64 skip = false).
    { unfold fits_int64. apply andb_false_iff. right.
      apply Z.leb_gt. exact Hbig. }
    unfold listUsers, listUsers_body. exec. fold skip.
    rewrite Hskip, Hfit. reflexivity.
Qed.

(* ===================================================================== *)
(** ** Next.js middleware: who is served what *)
(* ===================================================================== *)

Lemma prefix_split (a p : string) :
  String.prefix a p = true -> exists rest, p = (a ++ rest)%string.
Proof.
  revert p. induction a as [|c a IH]; intros p.
  - intros _. now exists p.
  - destruct p as [|d p]; simpl; [intros H; discriminate|].
    destruct (ascii_dec c d) as [->|]; [|intros H; discriminate].
    intros H. destruct (IH p H) as (rest & ->). now exists rest.
Qed.

(** X19.  The middleware never redirects twice in a row: when it answers
    a request with a redirect, the same visitor (same cookie, same answer of
    the API) asking for the target of the redirect is served, not
    redirected again. *)
Theorem middleware_redirect_is_served validateRefreshToken pathname
  refreshToken target searchParams :
  middleware validateRefreshToken pathname refreshToken
  = redirect target searchParams ->
  exists headers,
    middleware validateRefreshToken target refreshToken = next headers.
Proof.
  unfold middleware.
  destruct (pathname =? ""); [discriminate|].
  destruct (startsWith pathname "/_next" || startsWith pathname "/api"
            || containsb "." pathname); [discriminate|].
  destruct (userRoleOf validateRefreshToken refreshToken) as [r|];
    destruct (pathname =? "/");
    try (destruct (negb _); [|discriminate]);
    intros H; inversion H; subst; clear H;
    try destruct r; cbn; eexists; reflexivity.
Qed.

Lemma prefix_nil (s : string) : String.prefix "" s = true.
Proof. now destruct s. Qed.

Ltac under_area H :=
  apply prefix_split in H; destruct H as (rest & ->).

(** X20.  A visitor without a valid session who asks for a path under
    [/user], [/manager], [/admin], [/profile] or [/settings] is redirected
    to [/connexion], with the path asked for in the parameter [redirect],
    provided the path contains no dot.  A path that contains a dot is let
    through before any check, whatever it starts with. *)
Theorem protected_area_requires_login validateRefreshToken pathname
  refreshToken :
  (forall area,
      In area ["/user"; "/manager"; "/admin"; "/profile"; "/settings"] ->
      startsWith pathname area = true ->
      containsb "." pathname = false ->
      userRoleOf validateRefreshToken refreshToken = None ->
      middleware validateRefreshToken pathname refreshToken
      = redirect "/connexion" [("redirect", pathname)])
  /\ (containsb "." pathname = true ->
      middleware validateRefreshToken pathname refreshToken = next []).
Proof.
  split.
  - intros area Harea Hp Hdot Hrole. unfold middleware.
    rewrite Hdot, Hrole. unfold startsWith in *.
    destruct Harea as [<-|[<-|[<-|[<-|[<-|[]]]]]];
      under_area Hp; reflexivity.
  - intros Hdot. unfold middleware. rewrite Hdot, orb_true_r.
    now destruct (pathname =? "").
Qed.

(** X21.  Each role has its own area and no other.  For a logged-in
    visitor and a path without dot: under the area of a role ([/user],
    [/manager], [/admin]) the visitor is served, with the security headers
    and the header [X-User-Role], exactly when the visitor has that role,
    and is otherwise redirected to the area of the visitor's own role, an
    administrator included; under [/profile] and [/settings] every role is
    served. *)
Theorem role_areas_are_exclusive validateRefreshToken pathname refreshToken
  role :
  userRoleOf validateRefreshToken refreshToken = Some role ->
  containsb "." pathname = false ->
  (forall owner,
      startsWith pathname (ROLE_REDIRECTS owner) = true ->
      middleware validateRefreshToken pathname refreshToken
      = if Role_eqb role owner
        then next [("X-Frame-Options", "DENY");
                   ("X-Content-Type-Options", "nosniff");
                   ("Referrer-Policy", "strict-origin-when-cross-origin");
                   ("X-User-Role", role_name role)]
        else redirect (ROLE_REDIRECTS role) [])
  /\ (forall area,
        In area ["/profile"; "/settings"] ->
        startsWith pathname area = true ->
        middleware validateRefreshToken pathname refreshToken
        = next [("X-Frame-Options", "DENY");
                ("X-Content-Type-Options", "nosniff");
                ("Referrer-Policy", "strict-origin-when-cross-origin");
                ("X-User-Role", role_name role)]).
Proof.
  intros Hrole Hdot. split.
  - intros owner Hp. unfold middleware. rewrite Hdot, Hrole.
    unfold startsWith in *.
    destruct owner; cbn [ROLE_REDIRECTS] in Hp; under_area Hp;
      destruct role; cbn; rewrite ?prefix_nil; reflexivity.
  - intros area Harea Hp. unfold middleware. rewrite Hdot, Hrole.
    unfold startsWith in *.
    destruct Harea as [<-|[<-|[]]]; under_area Hp; cbn;
      rewrite ?prefix_nil; reflexivity.
Qed.

(* ===================================================================== *)
(** ** Route guards of the users API *)
(* ===================================================================== *)

Section RouteGuards.

Context (sha256 : string -> string).

Lemma role_allowed (u : UserSession.t) (allowed : list Role) :
  existsb (Role_eqb (UserSession.role u)) allowed = true
  <-> In (UserSession.role u) allowed.
Proof.
  rewrite existsb_exists. split.
  - intros (r & Hr & E). destruct (UserSession.role u), r;
      try discriminate; exact Hr.
  - intros H. exists (UserSession.role u). split; [exact H|].
    now destruct (UserSession.role u).
Qed.

(** X22.  Who reaches the controller of a users route.  When the guard of
    a route lets a request through, the store is unchanged, the cookie
    holds the secret of a stored, unexpired session, and the user handed to
    the controller is the context of the owner of that session.  That user
    is an administrator on [POST /api/users] and [DELETE /api/users/:userId],
    an administrator or a manager on [GET /api/users],
    [GET /api/users/email/:email] and [PUT /api/users/:userId]; any role
    reaches [GET /api/users/:userId]. *)
Theorem usersRouteGuard_admits env route session_token s s' user :
  usersRouteGuard sha256 env route session_token s = (s', inr user) ->
  s' = s
  /\ (exists sessionToken x u,
         session_token = Some sessionToken
         /\ sessionToken <> ""
         /\ find (fun y => AuthSession.tokenHash y =? sha256 sessionToken)
                 (authSessions s) = Some x
         /\ (clock env 0 <= AuthSession.expiresAt x)%Z
         /\ included_user (AuthSession.userId x) s = Some u
         /\ user = context_of u)
  /\ match route with
     | POST_users | DELETE_users_userId =>
         UserSession.role user = ADMIN_RH
     | GET_users | GET_users_email | PUT_users_userId =>
         UserSession.role user = ADMIN_RH
         \/ UserSession.role user = MANAGER
     | GET_users_userId => True
     end.
Proof.
  unfold usersRouteGuard, authenticateToken.
  destruct session_token as [tok|]; [|discriminate].
  destruct (truthy (Some tok)) eqn:Htok; [|discriminate].
  destruct (validateSession sha256 env tok s) as [s1 [u0|e]] eqn:Hv;
    [|discriminate].
  apply validateSession_Ok_inv in Hv.
  destruct Hv as (-> & x & u & Hx & Hexp & Hu & ->).
  cbn [requireCompanyAccess].
  assert (Hauth : exists sessionToken x0 u0,
             Some tok = Some sessionToken
             /\ sessionToken <> ""
             /\ find (fun y => AuthSession.tokenHash y
                               =? sha256 sessionToken)
                     (authSessions s) = Some x0
             /\ (clock env 0 <= AuthSession.expiresAt x0)%Z
             /\ included_user (AuthSession.userId x0) s = Some u0
             /\ context_of u = context_of u0).
  { exists tok, x, u. cbn in Htok. apply negb_true_iff in Htok.
    apply String.eqb_neq in Htok. auto 6. }
  destruct route; cbn [routeRoles requireRole];
    try (destruct (existsb _ _) eqn:Hr; [|discriminate];
         apply role_allowed in Hr);
    intros H; inversion H; subst; clear H;
    (split; [reflexivity|]); (split; [exact Hauth|]);
    cbn in *; intuition congruence.
Qed.

(** X23.  How the guard of a users route refuses.  Without cookie, or with
    an empty one: [NO_TOKEN] (401), store unchanged.  With a secret that is
    not known, or whose session is expired: [INVALID_SESSION] or
    [EXPIRED_SESSION] (401); only in the second case does the store change,
    by the deletion of the expired session.  With a good session whose
    user does not have a role the route admits: [INSUFFICIENT_PERMISSIONS]
    (403), store unchanged.  The only other refusal is
    [SESSION_VALIDATION_FAILED] (500). *)
Theorem usersRouteGuard_refuses env route session_token s s' e :
  usersRouteGuard sha256 env route session_token s = (s', inl e) ->
  (e = mkHttpError 401 "NO_TOKEN" /\ s' = s
   /\ truthy session_token = false)
  \/ (e = mkHttpError 401 "INVALID_SESSION" /\ s' = s)
  \/ (e = mkHttpError 401 "EXPIRED_SESSION"
      /\ exists x, In x (authSessions s)
                   /\ (AuthSession.expiresAt x < clock env 0)%Z
                   /\ s' = without_session x s)
  \/ (e = mkHttpError 500 "SESSION_VALIDATION_FAILED" /\ s' = s)
  \/ (e = mkHttpError 403 "INSUFFICIENT_PERMISSIONS" /\ s' = s
      /\ exists sessionToken user allowedRoles,
           session_token = Some sessionToken
           /\ validateSession sha256 env sessionToken s = (s, Ok user)
           /\ routeRoles route = Some allowedRoles
           /\ ~ In (UserSession.role user) allowedRoles).
Proof.
  unfold usersRouteGuard, authenticateToken.
  destruct session_token as [tok|].
  2:{ intros H; inversion H; subst. left. auto. }
  destruct (truthy (Some tok)) eqn:Htok.
  2:{ intros H; inversion H; subst. left. auto. }
  destruct (validateSession sha256 env tok s) as [s1 [u0|e0]] eqn:Hv.
  - pose proof Hv as Hv'. apply validateSession_Ok_inv in Hv'.
    destruct Hv' as (-> & _). cbn [requireCompanyAccess].
    destruct (routeRoles route) as [allowed|] eqn:Hroute; [|discriminate].
    cbn [requireRole].
    destruct (existsb _ allowed) eqn:Hr; [discriminate|].
    intros H; inversion H; subst; clear H.
    right. right. right. right. split; [reflexivity|].
    split; [reflexivity|]. exists tok, u0, allowed.
    repeat split; auto. intros Hin. apply role_allowed in Hin. congruence.
  - intros H; inversion H; subst; clear H. revert Hv.
    unfold validateSession, validateSession_body. exec.
    destruct (find _ (authSessions s)) as [x|] eqn:Hx.
    2:{ intros H; inversion H; subst. right. left. auto. }
    destruct (AuthSession.expiresAt x <? clock env 0)%Z eqn:E.
    + rewrite (session_id_present sha256 tok s x Hx).
      intros H; inversion H; subst. right. right. left.
      split; [reflexivity|]. exists x. apply Z.ltb_lt in E.
      apply find_some in Hx. repeat split; tauto.
    + destruct (included_user (AuthSession.userId x) s);
        intros H; inversion H; subst.
      right. right. right. left. auto.
Qed.



End RouteGuards.

(* ===================================================================== *)
(** ** Express middleware: agreement between the components *)
(* ===================================================================== *)

(** X25.  [optionalAuth] and [authenticateToken] agree.  On the same
    request they leave the same store, and [optionalAuth] attaches a user
    exactly when [authenticateToken] lets the request through, the same
    user; where [authenticateToken] answers with an error, [optionalAuth]
    attaches nobody and goes on. *)
Theorem optionalAuth_agrees_with_authenticateToken sha256 env session_token
  s :
  fst (optionalAuth sha256 env session_token s)
  = fst (authenticateToken sha256 env session_token s)
  /\ (forall user,
        snd (optionalAuth sha256 env session_token s) = Some user
        <-> snd (authenticateToken sha256 env session_token s) = inr user)
  /\ (snd (optionalAuth sha256 env session_token s) = None
      <-> exists e,
            snd (authenticateToken sha256 env session_token s) = inl e).
Proof.
  unfold optionalAuth, authenticateToken.
  destruct session_token as [tok|]; cbn [fst snd].
  2:{ split; [reflexivity|]. split.
      - intros user. split; intros H; discriminate H.
      - split; [eexists; reflexivity|reflexivity]. }
  destruct (truthy (Some tok)); cbn [fst snd].
  2:{ split; [reflexivity|]. split.
      - intros user. split; intros H; discriminate H.
      - split; [eexists; reflexivity|reflexivity]. }
  destruct (validateSession sha256 env tok s) as [s1 [u|e]]; cbn [fst snd].
  - split; [reflexivity|]. split.
    + intros user. split; intros H; inversion H; reflexivity.
    + split; [intros H; discriminate H|intros (e & H); discriminate H].
  - split; [reflexivity|]. split.
    + intros user. split; intros H; discriminate H.
    + split; [eexists; reflexivity|reflexivity].
Qed.

(** X26.  The filter that [requireCompanyAccess] attaches to a request
    describes the same reach as the filter the users service builds from
    the requester: a user row satisfies the one exactly when it is within
    the reach of the requester. *)
Theorem requireCompanyAccess_filter_is_reach (u : UserSession.t)
  (v : User.t) :
  exists f,
    requireCompanyAccess (Some u) = inr f
    /\ (in_scope u v
        <-> User.companyId v = cf_companyId f
            /\ (forall t, cf_teamId f = Some t -> User.teamId v = t)
            /\ (forall i, cf_userId f = Some i -> User.id v = i)).
Proof.
  eexists. split; [reflexivity|]. unfold in_scope.
  cbn [cf_companyId cf_teamId cf_userId].
  destruct (UserSession.role u); split.
  - intros (Hc & _ & _). split; [exact Hc|].
    split; intros x E; discriminate E.
  - intros (Hc & _ & _). split; [exact Hc|].
    split; intros E; discriminate E.
  - intros (Hc & Ht & _). split; [exact Hc|]. split.
    + intros t [= <-]. now apply Ht.
    + intros x E; discriminate E.
  - intros (Hc & Ht & _). split; [exact Hc|]. split.
    + intros _. now apply Ht.
    + intros E; discriminate E.
  - intros (Hc & _ & Hi). split; [exact Hc|]. split.
    + intros x E; discriminate E.
    + intros i [= <-]. now apply Hi.
  - intros (Hc & _ & Hi). split; [exact Hc|]. split.
    + intros E; discriminate E.
    + intros _. now apply Hi.
Qed.

(* ===================================================================== *)
(** ** The further properties on the sample data *)
(* ===================================================================== *)

(** An instance of [generateMagicLink_failure_effects]: the digest drawn
    for alice is that of carol's link; the request fails after alice's
    pending link was deleted. *)
Lemma generateMagicLink_failure_effects_witness :
  generateMagicLink sample_sha256 (env_at 1000 "tc" "ml-1") "alice@acme.com"
    linked_store
  = (set_magicLinks linked_store [alice_redeemed; carol_pending],
     Err (mkApiError "MAGIC_LINK_GENERATION_FAILED" 500))
  /\ ~ In alice_pending
         (magicLinks (set_magicLinks linked_store
                        [alice_redeemed; carol_pending])).
Proof.
  assert (H : generateMagicLink sample_sha256 (env_at 1000 "tc" "ml-1")
                "alice@acme.com" linked_store
              = (set_magicLinks linked_store [alice_redeemed; carol_pending],
                 Err (mkApiError "MAGIC_LINK_GENERATION_FAILED" 500)))
    by (vm_compute; reflexivity).
  split; [exact H|].
  destruct (generateMagicLink_failure_effects sample_sha256 _ _ _ _ _ H)
    as [(E & _)|(_ & u & _ & _ & _)].
  - discriminate E.
  - cbn. intros [E|[E|[]]]; discriminate E.
Defined.

(** An instance of [redeem_failure_effects]: the link [tu] of alice was
    already redeemed. *)
Lemma redeem_failure_effects_witness :
  validateMagicLinkAndCreateSession sample_sha256 sample_jwt env_redeem "tu"
    linked_store = (linked_store, Err TOKEN_ALREADY_USED)
  /\ authSessions linked_store = authSessions linked_store
  /\ users linked_store = users linked_store.
Proof.
  assert (H : validateMagicLinkAndCreateSession sample_sha256 sample_jwt
                env_redeem "tu" linked_store
              = (linked_store, Err TOKEN_ALREADY_USED))
    by (vm_compute; reflexivity).
  split; [exact H|].
  destruct (redeem_failure_effects sample_sha256 sample_jwt _ _ _ _ _ H)
    as (Hs & Hu & _).
  split; assumption.
Defined.

(** An instance of [redeem_success_effects]: alice redeems [t0]; of the
    three stored links only hers with that secret is marked. *)
Lemma redeem_success_effects_witness :
  validateMagicLinkAndCreateSession sample_sha256 sample_jwt env_redeem "t0"
    linked_store = (redeemed, Ok session_r1)
  /\ authSessions redeemed
     = [alice_session;
        AuthSession.mk "sess-1" "u-alice" "sha256:r1"
          (3000 + 30 * 86400000)%Z 3000]
  /\ magicLinks redeemed
     = [mark_used 3000 alice_pending; alice_redeemed; carol_pending]
  /\ users redeemed = users linked_store
  /\ companies redeemed = companies linked_store.
Proof.
  assert (H : validateMagicLinkAndCreateSession sample_sha256 sample_jwt
                env_redeem "t0" linked_store = (redeemed, Ok session_r1))
    by (vm_compute; reflexivity).
  split; [exact H|].
  destruct (redeem_success_effects sample_sha256 sample_jwt _ _ _ _ _ H)
    as (Hsess & _ & _ & Hu & Hc).
  split; [exact Hsess|]. split; [reflexivity|]. split; assumption.
Defined.

(** An instance of [cleanup_keeps_valid_credentials]: after a sweep at time
    3000, alice can still redeem [t0] and her session [r0] is still valid. *)
Lemma cleanup_keeps_valid_credentials_witness :
  cleanupExpiredTokens (env_at 3000 "" "") linked_store
  = (swept_store, Ok (mkCleanup 1 0))
  /\ (clock (env_at 3000 "" "") 0 <= clock env_redeem 0)%Z
  /\ (exists s1',
         validateMagicLinkAndCreateSession sample_sha256 sample_jwt
           env_redeem "t0" swept_store = (s1', Ok session_r1))
  /\ validateSession sample_sha256 env_redeem "r0" swept_store
     = (swept_store, Ok (context_of alice)).
Proof.
  assert (H1 : cleanupExpiredTokens (env_at 3000 "" "") linked_store
               = (swept_store, Ok (mkCleanup 1 0)))
    by (vm_compute; reflexivity).
  assert (H2 : (clock (env_at 3000 "" "") 0 <= clock env_redeem 0)%Z)
    by (cbn; lia).
  split; [exact H1|]. split; [exact H2|].
  destruct (cleanup_keeps_valid_credentials sample_sha256 sample_jwt
              _ _ _ _ env_redeem "t0" H1 H2) as [Hredeem _].
  destruct (cleanup_keeps_valid_credentials sample_sha256 sample_jwt
              _ _ _ _ env_redeem "r0" H1 H2) as [_ Hvalid].
  split.
  - apply (Hredeem redeemed session_r1). vm_compute; reflexivity.
  - apply (Hvalid linked_store (context_of alice)). vm_compute; reflexivity.
Defined.

(** An instance of [revokeAllUserSessions_post]: the sessions of alice. *)
Lemma revokeAllUserSessions_post_witness :
  (forall x, In x (authSessions linked_store) ->
             AuthSession.tokenHash x = sample_sha256 "r0" ->
             AuthSession.userId x = "u-alice")
  /\ exists s',
       revokeAllUserSessions "u-alice" linked_store = (s', Ok tt)
       /\ validateSession sample_sha256 env_redeem "r0" s'
          = (s', Err INVALID_SESSION).
Proof.
  assert (H : forall x, In x (authSessions linked_store) ->
                        AuthSession.tokenHash x = sample_sha256 "r0" ->
                        AuthSession.userId x = "u-alice").
  { intros x [<-|[]] _. reflexivity. }
  split; [exact H|].
  destruct (revokeAllUserSessions_post sample_sha256 "u-alice" linked_store)
    as (s' & Hr & _ & _ & _ & _ & Hv).
  exists s'. split; [exact Hr|]. exact (Hv env_redeem "r0" H).
Defined.

(** An instance of [login_round_trip]: alice logs in on the sample store. *)
Lemma login_round_trip_witness :
  find (fun v => User.email v =? "alice@acme.com") (users sample_store)
  = Some alice
  /\ included_user (User.id alice) sample_store = Some alice
  /\ link_slot_free sample_sha256 (env_at 1000 "t1" "ml-1") alice
       sample_store
  /\ session_slot_free sample_sha256 (env_at 2000 "r1" "sess-1")
       sample_store
  /\ (clock (env_at 2000 "r1" "sess-1") 0
      <= clock (env_at 1000 "t1" "ml-1") 0 + 86400000)%Z
  /\ (clock (env_at 3000 "" "") 0
      <= clock (env_at 2000 "r1" "sess-1") 2 + 30 * 86400000)%Z
  /\ exists s1 r1 s2 r2,
       generateMagicLink sample_sha256 (env_at 1000 "t1" "ml-1")
         "alice@acme.com" sample_store = (s1, Ok r1)
       /\ validateMagicLinkAndCreateSession sample_sha256 sample_jwt
            (env_at 2000 "r1" "sess-1") (token r1) s1 = (s2, Ok r2)
       /\ user r2
          = mkSummary (User.id alice) (User.email alice) (User.role alice)
       /\ validateSession sample_sha256 (env_at 3000 "" "")
            (refreshToken r2) s2
          = (s2, Ok (context_of alice)).
Proof.
  assert (H1 : find (fun v => User.email v =? "alice@acme.com")
                    (users sample_store) = Some alice) by reflexivity.
  assert (H2 : included_user (User.id alice) sample_store = Some alice)
    by reflexivity.
  assert (H3 : link_slot_free sample_sha256 (env_at 1000 "t1" "ml-1") alice
                 sample_store) by (intros l []).
  assert (H4 : session_slot_free sample_sha256 (env_at 2000 "r1" "sess-1")
                 sample_store) by (intros x []).
  assert (H5 : (clock (env_at 2000 "r1" "sess-1") 0
                <= clock (env_at 1000 "t1" "ml-1") 0 + 86400000)%Z)
    by (cbn; lia).
  assert (H6 : (clock (env_at 3000 "" "") 0
                <= clock (env_at 2000 "r1" "sess-1") 2 + 30 * 86400000)%Z)
    by (cbn; lia).
  repeat (split; [assumption|]).
  exact (login_round_trip sample_sha256 sample_jwt _ _ _ _ _ _
           H1 H2 H3 H4 H5 H6).
Defined.

(** An instance of [one_pending_per_user_preserved], on the store with the
    three links. *)
Lemma one_pending_per_user_preserved_witness :
  one_pending_per_user linked_store
  /\ one_pending_per_user
       (fst (generateMagicLink sample_sha256 (env_at 1000 "t1" "ml-1")
               "alice@acme.com" linked_store))
  /\ one_pending_per_user redeemed.
Proof.
  assert (H : one_pending_per_user linked_store).
  { intros uid.
    change (magicLinks linked_store)
      with [alice_pending; alice_redeemed; carol_pending].
    unfold pending_of, alice_pending, alice_redeemed, carol_pending.
    cbn [filter MagicLink.userId MagicLink.usedAt isNone].
    rewrite ?andb_true_r, ?andb_false_r.
    destruct (String.eqb_spec "u-alice" uid) as [Ea|Ea],
      (String.eqb_spec "u-carol" uid) as [Ec|Ec]; cbn [List.length];
      try lia.
    congruence. }
  split; [exact H|].
  destruct (one_pending_per_user_preserved sample_sha256 sample_jwt
              linked_store H) as (Hgen & Hred & _).
  split.
  - apply (Hgen (env_at 1000 "t1" "ml-1") "alice@acme.com" _
             (snd (generateMagicLink sample_sha256 (env_at 1000 "t1" "ml-1")
                     "alice@acme.com" linked_store))).
    apply surjective_pairing.
  - apply (Hred env_redeem "t0" redeemed (Ok session_r1)).
    vm_compute; reflexivity.
Defined.

(** An instance of [getUser_reach]: alice, a collaborator, asks for bob
    and for bob's e-mail address. *)
Lemma getUser_reach_witness :
  getUserById "u-bob" (context_of alice) sample_store
  = (sample_store, Ok (Some alice))
  /\ getUserByEmail "bob@acme.com" (context_of alice) sample_store
     = (sample_store, Ok None)
  /\ (forall v, In v (users sample_store) ->
                User.email v = "bob@acme.com" ->
                ~ in_scope (context_of alice) v).
Proof.
  destruct (getUser_reach (context_of alice) sample_store) as [Hid Hemail].
  destruct (Hid "u-bob") as (res & Hres & _).
  destruct (Hemail "bob@acme.com") as (res' & Hres' & _ & Hnone).
  assert (E : res' = None).
  { assert (E' : getUserByEmail "bob@acme.com" (context_of alice)
                   sample_store = (sample_store, Ok None))
      by (vm_compute; reflexivity).
    rewrite E' in Hres'. now inversion Hres'. }
  split; [vm_compute; reflexivity|]. split; [vm_compute; reflexivity|].
  now apply Hnone.
Defined.

(** An instance of [updateUser_effects]: bob makes alice the manager of
    [team-9]. *)
Lemma updateUser_effects_witness :
  updateUser "u-alice" promote bob_ctx sample_store
  = (set_users sample_store [alice_promoted; bob; carol], Ok alice_promoted)
  /\ role_team_ok alice_promoted
  /\ magicLinks (set_users sample_store [alice_promoted; bob; carol])
     = magicLinks sample_store.
Proof.
  assert (H : updateUser "u-alice" promote bob_ctx sample_store
              = (set_users sample_store [alice_promoted; bob; carol],
                 Ok alice_promoted)) by (vm_compute; reflexivity).
  split; [exact H|].
  destruct (updateUser_effects _ _ _ _ _ _ H) as (_ & Hrule & _ & Hl & _).
  split; assumption.
Defined.

(** An instance of [updateUser_role_unrestricted]: carol, a manager,
    makes herself an administrator. *)
Lemma updateUser_role_unrestricted_witness :
  find (matches (scoped (with_id emptyWhere "u-carol") carol_ctx))
       (users sample_store) = Some carol
  /\ UserSession.role carol_ctx = MANAGER
  /\ exists s',
       updateUser "u-carol" (UpdateUserInput.mk None (Some ADMIN_RH) Null)
         carol_ctx sample_store = (s', Ok carol_admin)
       /\ In carol_admin (users s').
Proof.
  assert (H : find (matches (scoped (with_id emptyWhere "u-carol") carol_ctx))
                   (users sample_store) = Some carol) by reflexivity.
  split; [exact H|]. split; [reflexivity|].
  exact (updateUser_role_unrestricted "u-carol" carol_ctx sample_store
           carol H).
Defined.

(** An instance of [deleteUser_effects]: bob deletes alice, her links and
    her session. *)
Lemma deleteUser_effects_witness :
  deleteUser "u-alice" bob_ctx linked_store = (store_without_alice, Ok tt)
  /\ (forall l, In l (magicLinks store_without_alice) <->
                In l (magicLinks linked_store)
                /\ MagicLink.userId l <> "u-alice")
  /\ (forall x, In x (authSessions store_without_alice) <->
                In x (authSessions linked_store)
                /\ AuthSession.userId x <> "u-alice").
Proof.
  assert (H : deleteUser "u-alice" bob_ctx linked_store
              = (store_without_alice, Ok tt)) by (vm_compute; reflexivity).
  split; [exact H|].
  destruct (deleteUser_effects _ _ _ _ H) as (_ & _ & _ & Hl & Hx & _).
  split; assumption.
Defined.

(** An instance of [createUser_effects]: dave joins company [c-acme]. *)
Lemma createUser_effects_witness :
  createUser (env_at 20 "" "u-dave")
    (CreateUserInput.mk "dave@acme.com" COLLABORATEUR "c-acme" None)
    sample_store
  = (set_users sample_store [alice; bob; carol; dave], Ok dave)
  /\ role_team_ok dave.
Proof.
  assert (H : createUser (env_at 20 "" "u-dave")
                (CreateUserInput.mk "dave@acme.com" COLLABORATEUR "c-acme"
                   None) sample_store
              = (set_users sample_store [alice; bob; carol; dave], Ok dave))
    by (vm_compute; reflexivity).
  split; [exact H|].
  destruct (createUser_effects _ _ _ _ _ H) as (_ & _ & _ & _ & _ & Hr & _).
  exact Hr.
Defined.

(** An instance of [users_service_failure_atomic]: a collaborator may not
    delete. *)
Lemma users_service_failure_atomic_witness :
  deleteUser "u-bob" (context_of alice) linked_store
  = (linked_store, Err (mkApiError "UNAUTHORIZED" 403))
  /\ fst (deleteUser "u-bob" (context_of alice) linked_store) = linked_store.
Proof.
  assert (H : deleteUser "u-bob" (context_of alice) linked_store
              = (linked_store, Err (mkApiError "UNAUTHORIZED" 403)))
    by (vm_compute; reflexivity).
  split; [exact H|].
  destruct (users_service_failure_atomic linked_store) as (_ & _ & Hd & _).
  rewrite H. cbn [fst]. symmetry.
  exact (Hd "u-bob" (context_of alice) _ _ H).
Defined.

(** An instance of [users_wf_preserved]: the sample store satisfies the
    constraints, and still does once dave is created. *)
Lemma users_wf_preserved_witness :
  users_wf sample_store
  /\ users_wf (set_users sample_store [alice; bob; carol; dave]).
Proof.
  assert (H : users_wf sample_store).
  { unfold users_wf. cbn. split; [|split; [|split]].
    - repeat constructor; cbn; intuition discriminate.
    - repeat constructor; cbn; intuition discriminate.
    - intros u [<-|[<-|[<-|[]]]]; split; cbn; intros E;
        try discriminate E; reflexivity.
    - intros u [<-|[<-|[<-|[]]]];
        [exists acme|exists acme|exists globex]; cbn; auto. }
  split; [exact H|].
  destruct (users_wf_preserved sample_store H) as (Hcreate & _).
  apply (Hcreate (env_at 20 "" "u-dave")
           (CreateUserInput.mk "dave@acme.com" COLLABORATEUR "c-acme" None)
           _ (Ok dave)).
  vm_compute; reflexivity.
Defined.

(** An instance of [duplicate_email_rejected]: a second user with the
    address of alice. *)
Lemma duplicate_email_rejected_witness :
  In alice (users sample_store)
  /\ createUser (env_at 20 "" "u-new")
       (CreateUserInput.mk "alice@acme.com" COLLABORATEUR "c-acme" None)
       sample_store
     = (sample_store, Err (mkApiError "USER_CREATION_FAILED" 500)).
Proof.
  assert (H : In alice (users sample_store)) by (left; reflexivity).
  split; [exact H|].
  destruct (duplicate_email_rejected sample_store) as [Hcreate _].
  apply (Hcreate (env_at 20 "" "u-new")
           (CreateUserInput.mk "alice@acme.com" COLLABORATEUR "c-acme" None)
           acme alice); try reflexivity; try exact H;
    intros E; discriminate E.
Defined.

(** An instance of [listUsers_page]: bob lists the users of his company,
    one per page, and asks for the second page. *)
Lemma listUsers_page_witness :
  (1 <= ListUsersQuery.page (ListUsersQuery.mk 2 1 None None None))%Z
  /\ (1 <= ListUsersQuery.limit (ListUsersQuery.mk 2 1 None None None)
      <= 100)%Z
  /\ truthy (ListUsersQuery.search (ListUsersQuery.mk 2 1 None None None))
     = false
  /\ listUsers (ListUsersQuery.mk 2 1 None None None) (Some bob_ctx)
       sample_store
     = (sample_store,
        Ok (mkPaginated [alice] (mkPagination 2 1 2 (Some 2%Z))))
  /\ exists rows total pages before after,
       listUsers (ListUsersQuery.mk 2 1 None None None) (Some bob_ctx)
         sample_store
       = (sample_store,
          Ok (mkPaginated rows (mkPagination 2 1 total (Some pages))))
       /\ Permutation (before ++ rows ++ after)%list [alice; bob]
       /\ newest_first (before ++ rows ++ after)%list
       /\ Z.of_nat (List.length before) = 1%Z.
Proof.
  assert (H1 : (1 <= ListUsersQuery.page
                       (ListUsersQuery.mk 2 1 None None None))%Z)
    by (cbn; lia).
  assert (H2 : (1 <= ListUsersQuery.limit
                       (ListUsersQuery.mk 2 1 None None None) <= 100)%Z)
    by (cbn; lia).
  assert (H3 : truthy (ListUsersQuery.search
                         (ListUsersQuery.mk 2 1 None None None)) = false)
    by reflexivity.
  split; [exact H1|]. split; [exact H2|]. split; [exact H3|].
  split; [vm_compute; reflexivity|].
  destruct (proj1 (listUsers_page (ListUsersQuery.mk 2 1 None None None)
                     (Some bob_ctx) sample_store H1 H2 H3))
    as (rows & total & pages & before & after
        & Hrun & Htotal & Hperm & Hsorted & Hbefore & _).
  { vm_compute. discriminate. }
  exists rows, total, pages, before, after.
  split; [exact Hrun|]. split; [exact Hperm|]. split; [exact Hsorted|].
  rewrite Hbefore, Htotal. reflexivity.
Defined.

(** An instance of [middleware_redirect_is_served]: a manager who asks for
    [/admin/users] is sent to [/manager], and served there. *)
Lemma middleware_redirect_is_served_witness :
  middleware (fun _ => Some MANAGER) "/admin/users" (Some "r1")
  = redirect "/manager" []
  /\ exists headers,
       middleware (fun _ => Some MANAGER) "/manager" (Some "r1")
       = next headers.
Proof.
  assert (H : middleware (fun _ => Some MANAGER) "/admin/users" (Some "r1")
              = redirect "/manager" []) by (vm_compute; reflexivity).
  split; [exact H|].
  exact (middleware_redirect_is_served _ _ _ _ _ H).
Defined.

(** An instance of [protected_area_requires_login]: a visitor without
    cookie asks for [/admin/users], then for [/admin/users.csv]. *)
Lemma protected_area_requires_login_witness :
  middleware (fun _ => None) "/admin/users" None
  = redirect "/connexion" [("redirect", "/admin/users")]
  /\ middleware (fun _ => None) "/admin/users.csv" None = next [].
Proof.
  split.
  - destruct (protected_area_requires_login (fun _ => None) "/admin/users"
                None) as [H _].
    apply (H "/admin"); try reflexivity. cbn. auto.
  - destruct (protected_area_requires_login (fun _ => None)
                "/admin/users.csv" None) as [_ H].
    apply H. reflexivity.
Defined.

(** An instance of [role_areas_are_exclusive]: an administrator asks for
    [/user/tasks] and for [/profile]. *)
Lemma role_areas_are_exclusive_witness :
  userRoleOf (fun _ => Some ADMIN_RH) (Some "r1") = Some ADMIN_RH
  /\ middleware (fun _ => Some ADMIN_RH) "/user/tasks" (Some "r1")
     = redirect "/admin" []
  /\ middleware (fun _ => Some ADMIN_RH) "/profile" (Some "r1")
     = next [("X-Frame-Options", "DENY");
             ("X-Content-Type-Options", "nosniff");
             ("Referrer-Policy", "strict-origin-when-cross-origin");
             ("X-User-Role", "ADMIN_RH")].
Proof.
  assert (H : userRoleOf (fun _ => Some ADMIN_RH) (Some "r1")
              = Some ADMIN_RH) by reflexivity.
  split; [exact H|]. split.
  - destruct (role_areas_are_exclusive (fun _ => Some ADMIN_RH)
                "/user/tasks" (Some "r1") ADMIN_RH H eq_refl) as [Harea _].
    exact (Harea COLLABORATEUR eq_refl).
  - destruct (role_areas_are_exclusive (fun _ => Some ADMIN_RH)
                "/profile" (Some "r1") ADMIN_RH H eq_refl) as [_ Hall].
    apply (Hall "/profile"); [cbn; auto|reflexivity].
Defined.

(** An instance of [usersRouteGuard_admits]: alice, with her session [r0],
    reaches [GET /api/users/:userId]. *)
Lemma usersRouteGuard_admits_witness :
  usersRouteGuard sample_sha256 env_redeem GET_users_userId (Some "r0")
    linked_store = (linked_store, inr (context_of alice))
  /\ exists sessionToken x u,
       Some "r0" = Some sessionToken
       /\ sessionToken <> ""
       /\ find (fun y => AuthSession.tokenHash y
                         =? sample_sha256 sessionToken)
               (authSessions linked_store) = Some x
       /\ (clock env_redeem 0 <= AuthSession.expiresAt x)%Z
       /\ included_user (AuthSession.userId x) linked_store = Some u
       /\ context_of alice = context_of u.
Proof.
  assert (H : usersRouteGuard sample_sha256 env_redeem GET_users_userId
                (Some "r0") linked_store
              = (linked_store, inr (context_of alice)))
    by (vm_compute; reflexivity).
  split; [exact H|].
  exact (proj1 (proj2 (usersRouteGuard_admits sample_sha256 _ _ _ _ _ _ H))).
Defined.

(** An instance of [usersRouteGuard_refuses]: alice, a collaborator, is
    refused on [DELETE /api/users/:userId]. *)
Lemma usersRouteGuard_refuses_witness :
  usersRouteGuard sample_sha256 env_redeem DELETE_users_userId (Some "r0")
    linked_store
  = (linked_store, inl (mkHttpError 403 "INSUFFICIENT_PERMISSIONS"))
  /\ exists sessionToken user allowedRoles,
       Some "r0" = Some sessionToken
       /\ validateSession sample_sha256 env_redeem sessionToken linked_store
          = (linked_store, Ok user)
       /\ routeRoles DELETE_users_userId = Some allowedRoles
       /\ ~ In (UserSession.role user) allowedRoles.
Proof.
  assert (H : usersRouteGuard sample_sha256 env_redeem DELETE_users_userId
                (Some "r0") linked_store
              = (linked_store,
                 inl (mkHttpError 403 "INSUFFICIENT_PERMISSIONS")))
    by (vm_compute; reflexivity).
  split; [exact H|].
  destruct (usersRouteGuard_refuses sample_sha256 _ _ _ _ _ _ H)
    as [(E & _)|[(E & _)|[(E & _)|[(E & _)|(_ & _ & Hex)]]]];
    try discriminate E.
  exact Hex.
Defined.
